(** * Ledger store of the layer2 node: block execution, submit protocol,
      header / layer2-state verification and crash recovery.

    Shallow embedding of [ledgerstore.LedgerStoreImp]
    (src/node/core/utils/transaction_builder.go, package ledgerstore).

    The ledger store is a Go object mutated in place by its methods, whose
    calls into the sub-stores may fail.  Methods are therefore embedded in a
    state-and-error monad over the record [LedgerStoreImp]: a failing method
    keeps the mutations it made before the failure, as the Go code does. *)

From Stdlib Require Import ZArith List Lia String Bool Permutation.
From stdpp Require Import base option list gmap sorting.
Import ListNotations.

Local Open Scope Z_scope.

(** ** Machine integers *)

(** Go [uint32] arithmetic wraps around. *)
Definition u32 (x : Z) : Z := x mod 2 ^ 32.

Definition is_u32 (x : Z) : Prop := 0 <= x < 2 ^ 32.

#[global] Instance is_u32_dec (x : Z) : Decision (is_u32 x).
Proof. unfold is_u32. apply _. Defined.

(** ** Data model (packages common, types, event, store) *)

Definition byte := Z.
Definition bytes := list Z.

(** [common.Uint256]: a 256-bit value; [UINT256_EMPTY] is the zero value. *)
Definition Uint256 := Z.
Definition UINT256_EMPTY : Uint256 := 0.

(** [common.Address]: 20 bytes ([ADDR_LEN]), see the key layout comment in
    [isAccountUpdateStore]: ST_STORAGE : ContractAddr : UserAddr = 1 + 20 + 20. *)
Definition Address := list Z.
Definition ADDR_LEN : Z := 20.

Definition PublicKey := Z.

Record Header := mkHeader {
  Height : Z;
  PrevBlockHash : Uint256;
  Timestamp : Z;
  TransactionsRoot : Uint256;
  BlockRoot : Uint256;
  Bookkeepers : list PublicKey;
  NextBookkeeper : Address;
  SigData : list bytes
}.

Inductive TransactionType := Deploy | InvokeNeo | OtherTxType (code : Z).

Record Transaction := mkTransaction {
  TxType : TransactionType;
  Payload : bytes
}.

Record Block := mkBlock {
  BHeader : Header;
  Transactions : list Transaction
}.

Record Layer2State := mkLayer2State {
  L2Version : Z;
  L2Height : Z;
  L2StatesRoot : Uint256;
  L2SigData : list bytes
}.

Record BookkeeperState := mkBookkeeperState {
  CurrBookkeeper : list PublicKey;
  NextBookkeeperSet : list PublicKey
}.

(** [event.CONTRACT_STATE_FAIL] and [event.CONTRACT_STATE_SUCCESS]. *)
Inductive ContractState := CONTRACT_STATE_FAIL | CONTRACT_STATE_SUCCESS.

Record ExecuteNotify := mkExecuteNotify {
  NTxHash : Uint256;
  NState : ContractState;
  NGasConsumed : Z;
  NNotify : list bytes
}.

(** A memdb: its entries in the order [ForEach] visits them. *)
Definition MemDB := list (bytes * bytes).

Record ExecuteResult := mkExecuteResult {
  WriteSet : MemDB;
  RHash : Uint256;
  MerkleRoot : Uint256;
  Notify : list ExecuteNotify;
  UpdatedAccountStateRoot : Uint256;
  UpdatedAccountState : list Uint256
}.

(** The zero value of [store.ExecuteResult] (Go named result). *)
Definition emptyResult : ExecuteResult :=
  mkExecuteResult [] UINT256_EMPTY UINT256_EMPTY [] UINT256_EMPTY [].

(** ** Collaborator calls and errors *)

Inductive StoreId := BlockStoreId | StateStoreId | EventStoreId.

(** The calls into the sub-stores that return an [error] in the source.
    The integer is the height (or, in recovery, the loop index) the call is
    made for, the hash is the looked-up key. *)
Inductive IOp :=
| OpClearAll (s : StoreId)
| OpGetVersion
| OpSaveVersion
| OpSaveBookkeeperState
| OpContainBlock (hash : Uint256)
| OpBlockGetCurrentBlock
| OpStateGetCurrentBlock
| OpGetHeaderIndexList
| OpGetBlockHash (h : Z)
| OpGetBlock (hash : Uint256)
| OpGetHeader (hash : Uint256)
| OpBlockSaveCurrentBlock (h : Z)
| OpSaveBlock (h : Z)
| OpSaveMsgToLayer2Store (h : Z)
| OpAddStateMerkleTreeRoot (h : Z)
| OpAddBlockMerkleTreeRoot (h : Z)
| OpStateSaveCurrentBlock (h : Z)
| OpSaveLayer2States (h : Z)
| OpCommitTo (s : StoreId) (h : Z).

Inductive error :=
| ErrNotFound
| ErrIO (op : IOp)
| ErrExternal (code : Z)
| Errorf (msg : string)
| Wrap (msg : string) (cause : error).

Inductive result (A : Type) :=
| Ok (a : A)
| Fail (e : error).
Arguments Ok {A} a.
Arguments Fail {A} e.

Definition is_ok {A} (r : result A) : bool :=
  match r with Ok _ => true | Fail _ => false end.

(** What an observer of the collaborators sees, in call order. *)
Inductive Event :=
| EvClearAll (s : StoreId)
| EvSaveBookkeeperState (st : BookkeeperState)
| EvSaveVersion (v : Z)
| EvNewBatch (s : StoreId)
| EvCommitTo (s : StoreId)
| EvExecuteTx (height : Z) (txHash : Uint256)
| EvPublish (height : Z).

(** ** Overlay and cache (packages overlaydb, storage) *)

(** The transient overlay: the committed raw state it reads through to, its
    own write set, and its sticky error. *)
Record OverlayDB := mkOverlayDB {
  ov_store : gmap bytes bytes;
  ov_memdb : MemDB;
  ov_err : option error
}.

(** The execution cache layered on the overlay: its memdb. *)
Record CacheDB := mkCacheDB {
  cache_memdb : MemDB
}.

(** What a transaction handler leaves behind: its returned error, and the
    overlay, cache and notification it mutated through their pointers. *)
Record HandlerOut := mkHandlerOut {
  h_err : option error;
  h_overlay : OverlayDB;
  h_cache : CacheDB;
  h_notify : ExecuteNotify
}.

Record KeyState := mkKeyState {
  Key : bytes;
  Value : bytes
}.

(** ** Sub-stores (packages ledgerstore: BlockStore, StateStore, EventStore,
       Layer2Store) *)

(** Modelled from the spec: the Block Store of sections 2 and 6, an external
    collaborator with batched, transactional writes ([NewBatch], staged
    [Save*] calls, [CommitTo]) and directly written version marker. *)
Inductive BlockWrite :=
| BWHeaderIndexList (start : Z) (l : list Uint256)
| BWCurrentBlock (h : Z) (hash : Uint256)
| BWBlockHash (h : Z) (hash : Uint256)
| BWBlock (hash : Uint256) (b : Block).

Record BlockStore := mkBlockStore {
  bs_version : option Z;
  bs_current : option (Uint256 * Z);
  bs_headerIndex : gmap Z Uint256;
  bs_blockHash : gmap Z Uint256;
  bs_blocks : gmap Z Block;
  bs_batch : list BlockWrite
}.

(** Modelled from the spec: the State Store of sections 2 and 6. *)
Inductive StateWrite :=
| SWStateRoot (h : Z) (hash : Uint256)
| SWBlockRoot (txRoot : Uint256)
| SWCurrentBlock (h : Z) (hash : Uint256)
| SWLayer2States (h : Z) (hashes : list Uint256)
| SWDelete (key : bytes)
| SWPut (key val : bytes).

Record StateStore := mkStateStore {
  ss_current : option (Uint256 * Z);
  ss_bookkeeper : option BookkeeperState;
  ss_stateRoots : list (Z * Uint256);
  ss_blockRoots : list Uint256;
  ss_layer2 : gmap Z (list Uint256);
  ss_raw : gmap bytes bytes;
  ss_batch : list StateWrite
}.

(** Modelled from the spec: the Event Store of sections 2 and 6. *)
Inductive EventWrite :=
| EWNotifyByTx (txHash : Uint256) (n : ExecuteNotify)
| EWNotifyByBlock (h : Z) (txs : list Uint256)
| EWCurrentBlock (h : Z) (hash : Uint256).

Record EventStore := mkEventStore {
  es_current : option (Uint256 * Z);
  es_byTx : gmap Z ExecuteNotify;
  es_byBlock : gmap Z (list Uint256);
  es_batch : list EventWrite
}.

(** Modelled from the spec: the Layer2 Store of section 6, the messages
    saved so far ([nil] messages included). *)
Definition Layer2Store := list (option Layer2State).

Definition emptyBlockStore : BlockStore := mkBlockStore None None ∅ ∅ ∅ [].
Definition emptyStateStore : StateStore := mkStateStore None None [] [] ∅ ∅ [].
Definition emptyEventStore : EventStore := mkEventStore None ∅ ∅ [].

Fixpoint insertHeaderIndexList (start : Z) (l : list Uint256) (m : gmap Z Uint256)
  : gmap Z Uint256 :=
  match l with
  | [] => m
  | x :: l' => insertHeaderIndexList (start + 1) l' (<[start := x]> m)
  end.

Definition applyBlockWrite (s : BlockStore) (wr : BlockWrite) : BlockStore :=
  match wr with
  | BWHeaderIndexList start l =>
      mkBlockStore (bs_version s) (bs_current s)
        (insertHeaderIndexList start l (bs_headerIndex s))
        (bs_blockHash s) (bs_blocks s) (bs_batch s)
  | BWCurrentBlock h hash =>
      mkBlockStore (bs_version s) (Some (hash, h)) (bs_headerIndex s)
        (bs_blockHash s) (bs_blocks s) (bs_batch s)
  | BWBlockHash h hash =>
      mkBlockStore (bs_version s) (bs_current s) (bs_headerIndex s)
        (<[h := hash]> (bs_blockHash s)) (bs_blocks s) (bs_batch s)
  | BWBlock hash b =>
      mkBlockStore (bs_version s) (bs_current s) (bs_headerIndex s)
        (bs_blockHash s) (<[hash := b]> (bs_blocks s)) (bs_batch s)
  end.

Definition applyStateWrite (s : StateStore) (wr : StateWrite) : StateStore :=
  match wr with
  | SWStateRoot h hash =>
      mkStateStore (ss_current s) (ss_bookkeeper s) (ss_stateRoots s ++ [(h, hash)])
        (ss_blockRoots s) (ss_layer2 s) (ss_raw s) (ss_batch s)
  | SWBlockRoot r =>
      mkStateStore (ss_current s) (ss_bookkeeper s) (ss_stateRoots s)
        (ss_blockRoots s ++ [r]) (ss_layer2 s) (ss_raw s) (ss_batch s)
  | SWCurrentBlock h hash =>
      mkStateStore (Some (hash, h)) (ss_bookkeeper s) (ss_stateRoots s)
        (ss_blockRoots s) (ss_layer2 s) (ss_raw s) (ss_batch s)
  | SWLayer2States h hs =>
      mkStateStore (ss_current s) (ss_bookkeeper s) (ss_stateRoots s)
        (ss_blockRoots s) (<[h := hs]> (ss_layer2 s)) (ss_raw s) (ss_batch s)
  | SWDelete k =>
      mkStateStore (ss_current s) (ss_bookkeeper s) (ss_stateRoots s)
        (ss_blockRoots s) (ss_layer2 s) (delete k (ss_raw s)) (ss_batch s)
  | SWPut k v =>
      mkStateStore (ss_current s) (ss_bookkeeper s) (ss_stateRoots s)
        (ss_blockRoots s) (ss_layer2 s) (<[k := v]> (ss_raw s)) (ss_batch s)
  end.

Definition applyEventWrite (s : EventStore) (wr : EventWrite) : EventStore :=
  match wr with
  | EWNotifyByTx tx n =>
      mkEventStore (es_current s) (<[tx := n]> (es_byTx s)) (es_byBlock s) (es_batch s)
  | EWNotifyByBlock h txs =>
      mkEventStore (es_current s) (es_byTx s) (<[h := txs]> (es_byBlock s)) (es_batch s)
  | EWCurrentBlock h hash =>
      mkEventStore (Some (hash, h)) (es_byTx s) (es_byBlock s) (es_batch s)
  end.

Definition bs_stage (wr : BlockWrite) (s : BlockStore) : BlockStore :=
  mkBlockStore (bs_version s) (bs_current s) (bs_headerIndex s) (bs_blockHash s)
    (bs_blocks s) (bs_batch s ++ [wr]).

Definition ss_stage (wr : StateWrite) (s : StateStore) : StateStore :=
  mkStateStore (ss_current s) (ss_bookkeeper s) (ss_stateRoots s) (ss_blockRoots s)
    (ss_layer2 s) (ss_raw s) (ss_batch s ++ [wr]).

Definition es_stage (wr : EventWrite) (s : EventStore) : EventStore :=
  mkEventStore (es_current s) (es_byTx s) (es_byBlock s) (es_batch s ++ [wr]).

Definition bs_newBatch (s : BlockStore) : BlockStore :=
  mkBlockStore (bs_version s) (bs_current s) (bs_headerIndex s) (bs_blockHash s)
    (bs_blocks s) [].

Definition ss_newBatch (s : StateStore) : StateStore :=
  mkStateStore (ss_current s) (ss_bookkeeper s) (ss_stateRoots s) (ss_blockRoots s)
    (ss_layer2 s) (ss_raw s) [].

Definition es_newBatch (s : EventStore) : EventStore :=
  mkEventStore (es_current s) (es_byTx s) (es_byBlock s) [].

(** A successful [CommitTo] applies the staged writes in order, at once. *)
Definition bs_commit (s : BlockStore) : BlockStore :=
  bs_newBatch (fold_left applyBlockWrite (bs_batch s) s).

Definition ss_commit (s : StateStore) : StateStore :=
  ss_newBatch (fold_left applyStateWrite (ss_batch s) s).

Definition es_commit (s : EventStore) : EventStore :=
  es_newBatch (fold_left applyEventWrite (es_batch s) s).

Definition bs_saveVersion (v : Z) (s : BlockStore) : BlockStore :=
  mkBlockStore (Some v) (bs_current s) (bs_headerIndex s) (bs_blockHash s)
    (bs_blocks s) (bs_batch s).

Definition ss_saveBookkeeperState (st : BookkeeperState) (s : StateStore) : StateStore :=
  mkStateStore (ss_current s) (Some st) (ss_stateRoots s) (ss_blockRoots s)
    (ss_layer2 s) (ss_raw s) (ss_batch s).

(** ** The ledger store object *)

(** [LedgerStoreImp], without its two locks: the methods below are the
    bodies that run while the saving-block semaphore is held.  [trace] is a
    ghost field logging the collaborator calls made so far. *)
Record LedgerStoreImp := mkLedger {
  blockStore : BlockStore;
  stateStore : StateStore;
  eventStore : EventStore;
  layer2Store : Layer2Store;
  storedIndexCount : Z;
  currBlockHeight : Z;
  currBlockHash : Uint256;
  headerIndex : gmap Z Uint256;
  closing : bool;
  stateHashCheckHeight : Z;
  trace : list Event
}.

Definition with_blockStore (f : BlockStore -> BlockStore) (w : LedgerStoreImp) :=
  mkLedger (f (blockStore w)) (stateStore w) (eventStore w) (layer2Store w)
    (storedIndexCount w) (currBlockHeight w) (currBlockHash w) (headerIndex w)
    (closing w) (stateHashCheckHeight w) (trace w).

Definition with_stateStore (f : StateStore -> StateStore) (w : LedgerStoreImp) :=
  mkLedger (blockStore w) (f (stateStore w)) (eventStore w) (layer2Store w)
    (storedIndexCount w) (currBlockHeight w) (currBlockHash w) (headerIndex w)
    (closing w) (stateHashCheckHeight w) (trace w).

Definition with_eventStore (f : EventStore -> EventStore) (w : LedgerStoreImp) :=
  mkLedger (blockStore w) (stateStore w) (f (eventStore w)) (layer2Store w)
    (storedIndexCount w) (currBlockHeight w) (currBlockHash w) (headerIndex w)
    (closing w) (stateHashCheckHeight w) (trace w).

Definition with_layer2Store (f : Layer2Store -> Layer2Store) (w : LedgerStoreImp) :=
  mkLedger (blockStore w) (stateStore w) (eventStore w) (f (layer2Store w))
    (storedIndexCount w) (currBlockHeight w) (currBlockHash w) (headerIndex w)
    (closing w) (stateHashCheckHeight w) (trace w).

Definition with_storedIndexCount (n : Z) (w : LedgerStoreImp) :=
  mkLedger (blockStore w) (stateStore w) (eventStore w) (layer2Store w)
    n (currBlockHeight w) (currBlockHash w) (headerIndex w)
    (closing w) (stateHashCheckHeight w) (trace w).

Definition with_currentBlock (height : Z) (hash : Uint256) (w : LedgerStoreImp) :=
  mkLedger (blockStore w) (stateStore w) (eventStore w) (layer2Store w)
    (storedIndexCount w) height hash (headerIndex w)
    (closing w) (stateHashCheckHeight w) (trace w).

Definition with_headerIndex (f : gmap Z Uint256 -> gmap Z Uint256) (w : LedgerStoreImp) :=
  mkLedger (blockStore w) (stateStore w) (eventStore w) (layer2Store w)
    (storedIndexCount w) (currBlockHeight w) (currBlockHash w) (f (headerIndex w))
    (closing w) (stateHashCheckHeight w) (trace w).

Definition log_event (ev : Event) (w : LedgerStoreImp) :=
  mkLedger (blockStore w) (stateStore w) (eventStore w) (layer2Store w)
    (storedIndexCount w) (currBlockHeight w) (currBlockHash w) (headerIndex w)
    (closing w) (stateHashCheckHeight w) (trace w ++ [ev]).

(** ** External collaborators *)

Definition GasTable := list (string * Z).

(** [HandleDeployTransaction] and [HandleInvokeTransaction] of the state
    store: they read the ledger and mutate the overlay, the cache and the
    notification they are handed. *)
Definition Handler : Type :=
  LedgerStoreImp -> OverlayDB -> GasTable -> CacheDB -> Transaction -> Block ->
  ExecuteNotify -> HandlerOut.

(** Everything the ledger store calls and this file does not define:
    hashing, signatures, the execution engine, the merkle trees kept by the
    state store, the constants of other packages, and the two sources of
    non-determinism (which collaborator calls fail, and the order in which Go
    ranges over a map). *)
Record Env := mkEnv {
  io_fails : IOp -> bool;
  HeaderHash : Header -> Uint256;
  BlockHash : Block -> Uint256;
  TxHash : Transaction -> Uint256;
  Layer2StateHash : Layer2State -> Uint256;
  AddressFromBookkeepers : list PublicKey -> result Address;
  VerifyMultiSignature : Uint256 -> list PublicKey -> Z -> list bytes -> option error;
  SortPublicKeys : list PublicKey -> list PublicKey;
  CURR_LAYER2_STATE_VERSION : Z;
  refreshGlobalParam : Z -> Z -> CacheDB -> LedgerStoreImp -> option error;
  GAS_TABLE : GasTable;
  HandleDeployTransaction : Handler;
  HandleInvokeTransaction : Handler;
  ChangeHash : OverlayDB -> Uint256;
  ST_CONTRACT : byte;
  ST_STORAGE : byte;
  NewIterator : OverlayDB -> bytes -> list (bytes * bytes) * option error;
  sha256 : bytes -> Uint256;
  HashFullTreeWithLeafHash : list Uint256 -> Uint256;
  GetStateMerkleRootOf : StateStore -> Z -> result Uint256;
  GetStateMerkleRootWithNewHash : StateStore -> Uint256 -> Uint256;
  StateGetBlockRootWithNewTxRoots : StateStore -> list Uint256 -> Uint256;
  map_range : list (Address * KeyState) -> list (Address * KeyState);
  DefActorPublisher : bool
}.

(** The environment [E] with other transaction handlers. *)
Definition with_handlers (deploy invoke : Handler) (E : Env) : Env :=
  {| io_fails := io_fails E;
     HeaderHash := HeaderHash E;
     BlockHash := BlockHash E;
     TxHash := TxHash E;
     Layer2StateHash := Layer2StateHash E;
     AddressFromBookkeepers := AddressFromBookkeepers E;
     VerifyMultiSignature := VerifyMultiSignature E;
     SortPublicKeys := SortPublicKeys E;
     CURR_LAYER2_STATE_VERSION := CURR_LAYER2_STATE_VERSION E;
     refreshGlobalParam := refreshGlobalParam E;
     GAS_TABLE := GAS_TABLE E;
     HandleDeployTransaction := deploy;
     HandleInvokeTransaction := invoke;
     ChangeHash := ChangeHash E;
     ST_CONTRACT := ST_CONTRACT E;
     ST_STORAGE := ST_STORAGE E;
     NewIterator := NewIterator E;
     sha256 := sha256 E;
     HashFullTreeWithLeafHash := HashFullTreeWithLeafHash E;
     GetStateMerkleRootOf := GetStateMerkleRootOf E;
     GetStateMerkleRootWithNewHash := GetStateMerkleRootWithNewHash E;
     StateGetBlockRootWithNewTxRoots := StateGetBlockRootWithNewTxRoots E;
     map_range := map_range E;
     DefActorPublisher := DefActorPublisher E |}.

(** ** The state-and-error monad of the methods *)

Definition M (A : Type) : Type := LedgerStoreImp -> result A * LedgerStoreImp.

Definition ret {A} (a : A) : M A := fun w => (Ok a, w).

Definition fail {A} (e : error) : M A := fun w => (Fail e, w).

Definition bind {A B} (c : M A) (k : A -> M B) : M B :=
  fun w =>
    match c w with
    | (Ok a, w') => k a w'
    | (Fail e, w') => (Fail e, w')
    end.

Definition gets {A} (f : LedgerStoreImp -> A) : M A := fun w => (Ok (f w), w).

Definition modify (f : LedgerStoreImp -> LedgerStoreImp) : M unit :=
  fun w => (Ok tt, f w).

(** [if err != nil { return fmt.Errorf(msg, err) }] *)
Definition wrap {A} (msg : string) (c : M A) : M A :=
  fun w =>
    match c w with
    | (Fail e, w') => (Fail (Wrap msg e), w')
    | r => r
    end.

(** [err != nil && err != scom.ErrNotFound]: the error, when it is so. *)
Definition other_than_not_found (err : option error) : option error :=
  match err with
  | Some ErrNotFound => None
  | other => other
  end.

Definition check (e : option error) : M unit :=
  match e with
  | Some err => fail err
  | None => ret tt
  end.

Declare Scope ledger_scope.
Delimit Scope ledger_scope with ledger.
Notation "'let*' x ':=' c 'in' k" := (bind c (fun x => k))
  (at level 10, x name, c at level 100, k at level 200) : ledger_scope.
Notation "'let*' ' p ':=' c 'in' k" := (bind c (fun x => match x with p => k end))
  (at level 10, p pattern, c at level 100, k at level 200) : ledger_scope.
Notation "c1 ';;' c2" := (bind c1 (fun _ => c2))
  (at level 100, c2 at level 200, right associativity) : ledger_scope.

Local Open Scope ledger_scope.

Section LedgerStore.

Context (E : Env).

(** *** Calls into the sub-stores *)

(** A call that returns an error and, when it does not, has effect [f]. *)
Definition io (op : IOp) (f : LedgerStoreImp -> LedgerStoreImp) : M unit :=
  fun w => if io_fails E op then (Fail (ErrIO op), w) else (Ok tt, f w).

Definition NewBatch (s : StoreId) : M unit :=
  modify (fun w =>
    log_event (EvNewBatch s)
      match s with
      | BlockStoreId => with_blockStore bs_newBatch w
      | StateStoreId => with_stateStore ss_newBatch w
      | EventStoreId => with_eventStore es_newBatch w
      end).

Definition CommitTo (s : StoreId) (h : Z) : M unit :=
  modify (log_event (EvCommitTo s)) ;;
  io (OpCommitTo s h)
    match s with
    | BlockStoreId => with_blockStore bs_commit
    | StateStoreId => with_stateStore ss_commit
    | EventStoreId => with_eventStore es_commit
    end.

Definition ClearAll (s : StoreId) : M unit :=
  modify (log_event (EvClearAll s)) ;;
  io (OpClearAll s)
    match s with
    | BlockStoreId => with_blockStore (fun _ => emptyBlockStore)
    | StateStoreId => with_stateStore (fun _ => emptyStateStore)
    | EventStoreId => with_eventStore (fun _ => emptyEventStore)
    end.

Definition SaveBookkeeperState (st : BookkeeperState) : M unit :=
  modify (log_event (EvSaveBookkeeperState st)) ;;
  io OpSaveBookkeeperState (with_stateStore (ss_saveBookkeeperState st)).

Definition SaveVersion (v : Z) : M unit :=
  modify (log_event (EvSaveVersion v)) ;;
  io OpSaveVersion (with_blockStore (bs_saveVersion v)).

(** [blockStore.GetVersion]: the version and the error, as Go returns them. *)
Definition GetVersion (w : LedgerStoreImp) : Z * option error :=
  if io_fails E OpGetVersion then (0, Some (ErrIO OpGetVersion))
  else match bs_version (blockStore w) with
       | Some v => (v, None)
       | None => (0, Some ErrNotFound)
       end.

Definition ContainBlock (hash : Uint256) : M bool :=
  fun w => if io_fails E (OpContainBlock hash) then (Fail (ErrIO (OpContainBlock hash)), w)
           else (Ok (bool_decide (is_Some (bs_blocks (blockStore w) !! hash))), w).

Definition blockStore_GetCurrentBlock : M (Uint256 * Z) :=
  fun w => if io_fails E OpBlockGetCurrentBlock then (Fail (ErrIO OpBlockGetCurrentBlock), w)
           else match bs_current (blockStore w) with
                | Some c => (Ok c, w)
                | None => (Fail ErrNotFound, w)
                end.

Definition stateStore_GetCurrentBlock : M (Uint256 * Z) :=
  fun w => if io_fails E OpStateGetCurrentBlock then (Fail (ErrIO OpStateGetCurrentBlock), w)
           else match ss_current (stateStore w) with
                | Some c => (Ok c, w)
                | None => (Fail ErrNotFound, w)
                end.

Definition GetHeaderIndexList : M (gmap Z Uint256) :=
  fun w => if io_fails E OpGetHeaderIndexList then (Fail (ErrIO OpGetHeaderIndexList), w)
           else (Ok (bs_headerIndex (blockStore w)), w).

Definition blockStore_GetBlockHash (h : Z) : M Uint256 :=
  fun w => if io_fails E (OpGetBlockHash h) then (Fail (ErrIO (OpGetBlockHash h)), w)
           else match bs_blockHash (blockStore w) !! h with
                | Some x => (Ok x, w)
                | None => (Fail ErrNotFound, w)
                end.

Definition blockStore_GetBlock (hash : Uint256) : M Block :=
  fun w => if io_fails E (OpGetBlock hash) then (Fail (ErrIO (OpGetBlock hash)), w)
           else match bs_blocks (blockStore w) !! hash with
                | Some b => (Ok b, w)
                | None => (Fail ErrNotFound, w)
                end.

(** [blockStore.GetHeader]: the header pointer and the error. *)
Definition blockStore_GetHeader (hash : Uint256) (w : LedgerStoreImp)
  : option Header * option error :=
  if io_fails E (OpGetHeader hash) then (None, Some (ErrIO (OpGetHeader hash)))
  else match bs_blocks (blockStore w) !! hash with
       | Some b => (Some (BHeader b), None)
       | None => (None, Some ErrNotFound)
       end.

(** *** Accessors *)

Definition GetCurrentBlockHeight : M Z := gets currBlockHeight.

Definition setHeaderIndex (height : Z) (blockHash : Uint256) : M unit :=
  modify (with_headerIndex (<[height := blockHash]>)).

Definition setCurrentBlock (height : Z) (blockHash : Uint256) : M unit :=
  modify (with_currentBlock height blockHash).

Definition GetHeaderByHash (blockHash : Uint256) (w : LedgerStoreImp) :=
  blockStore_GetHeader blockHash w.

Definition GetStateMerkleRoot (height : Z) : M Uint256 :=
  fun w => (GetStateMerkleRootOf E (stateStore w) height, w).

(** *** Header and layer2-state verification *)

(** [m := len(bookkeepers) - (len(bookkeepers)-1)/3] on Go [int]: the
    division truncates towards zero. *)
Definition quorum (n : Z) : Z := n - Z.quot (n - 1) 3.

Definition len {A} (l : list A) : Z := Z.of_nat (length l).

Definition verifyHeader (header : Header) : M unit :=
  if Height header =? 0 then ret tt
  else
    let prevHeaderHash := PrevBlockHash header in
    let* w := gets (fun w => w) in
    let '(prevHeader, err) := GetHeaderByHash prevHeaderHash w in
    match other_than_not_found err, prevHeader with
    | Some e, _ => fail (Wrap "get prev header error" e)
    | None, None => fail (Errorf "cannot find pre header by blockHash")
    | None, Some prevHeader =>
        if negb (u32 (Height prevHeader + 1) =? Height header)
        then fail (Errorf "block height is incorrect")
        else if Timestamp prevHeader >=? Timestamp header
        then fail (Errorf "block timestamp is incorrect")
        else
          match AddressFromBookkeepers E (Bookkeepers header) with
          | Fail e => fail e
          | Ok address =>
              if negb (bool_decide (NextBookkeeper prevHeader = address))
              then fail (Errorf "bookkeeper address error")
              else
                let m := quorum (len (Bookkeepers header)) in
                let hash := HeaderHash E header in
                check (VerifyMultiSignature E hash (Bookkeepers header) m (SigData header))
          end
    end.

Definition verifyLayer2State (layer2State : Layer2State) (bookkeepers : list PublicKey)
  : M unit :=
  let hash := Layer2StateHash E layer2State in
  let m := quorum (len bookkeepers) in
  check (VerifyMultiSignature E hash bookkeepers m (L2SigData layer2State)).

(** *** Block execution *)

Definition NewOverlayDB (ss : StateStore) : OverlayDB :=
  mkOverlayDB (ss_raw ss) [] None.

Definition NewCacheDB (overlay : OverlayDB) : CacheDB := mkCacheDB [].

Definition Reset (cache : CacheDB) : CacheDB := mkCacheDB [].

(** The handler is handed the overlay, the cache and the notification by
    pointer; what it left in them is read back after the call. *)
Definition handleTransaction (overlay : OverlayDB) (cache : CacheDB)
    (gasTable : GasTable) (block : Block) (tx : Transaction)
  : M (ExecuteNotify * OverlayDB * CacheDB) :=
  let txHash := TxHash E tx in
  let notify := mkExecuteNotify txHash CONTRACT_STATE_FAIL 0 [] in
  match TxType tx with
  | Deploy =>
      let* w := gets (fun w => w) in
      modify (log_event (EvExecuteTx (Height (BHeader block)) txHash)) ;;
      let out := HandleDeployTransaction E w overlay gasTable cache tx block notify in
      match ov_err (h_overlay out) with
      | Some e => fail (Wrap "HandleDeployTransaction tx error" e)
      | None => ret (h_notify out, h_overlay out, h_cache out)
      end
  | InvokeNeo =>
      let* w := gets (fun w => w) in
      modify (log_event (EvExecuteTx (Height (BHeader block)) txHash)) ;;
      let out := HandleInvokeTransaction E w overlay gasTable cache tx block notify in
      match ov_err (h_overlay out) with
      | Some e => fail (Wrap "HandleInvokeTransaction tx error" e)
      | None => ret (h_notify out, h_overlay out, h_cache out)
      end
  | OtherTxType _ => ret (notify, overlay, cache)
  end.

(** The loop [for _, tx := range block.Transactions] of [executeBlock]. *)
Fixpoint runTransactions (block : Block) (gasTable : GasTable)
    (txs : list Transaction) (overlay : OverlayDB) (cache : CacheDB)
    (notifies : list ExecuteNotify)
  : M (list ExecuteNotify * OverlayDB * CacheDB) :=
  match txs with
  | [] => ret (notifies, overlay, cache)
  | tx :: rest =>
      let cache := Reset cache in
      let* r := handleTransaction overlay cache gasTable block tx in
      let '(notify, overlay, cache) := r in
      runTransactions block gasTable rest overlay cache (notifies ++ [notify])
  end.

(** [accumulateHash]: every key and value of the iterator, written to the
    hasher in iteration order. *)
Definition accumulateHash (entries : list (bytes * bytes)) : bytes :=
  concat (map (fun kv => fst kv ++ snd kv) entries).

Definition calculateTotalStateHash (overlay : OverlayDB) : result Uint256 :=
  let '(contracts, err1) := NewIterator E overlay [ST_CONTRACT E] in
  match err1 with
  | Some e => Fail e
  | None =>
      let '(storages, err2) := NewIterator E overlay [ST_STORAGE E] in
      match err2 with
      | Some e => Fail e
      | None => Ok (sha256 E (accumulateHash contracts ++ accumulateHash storages))
      end
  end.

Definition isAccountUpdateStore (key val : bytes) : bool := len key =? 41.

(** [bytes.Compare]. *)
Fixpoint bytes_compare (a b : bytes) : comparison :=
  match a, b with
  | [], [] => Eq
  | [], _ :: _ => Lt
  | _ :: _, [] => Gt
  | x :: a', y :: b' =>
      match x ?= y with
      | Eq => bytes_compare a' b'
      | c => c
      end
  end.

(** [KeyStateSlice.Less]: [bytes.Compare(this[i].Key, this[j].Key) > 0]. *)
Definition Less (x y : KeyState) : bool :=
  match bytes_compare (Key x) (Key y) with Gt => true | _ => false end.

Fixpoint sort_insert (x : KeyState) (l : list KeyState) : list KeyState :=
  match l with
  | [] => [x]
  | y :: l' => if Less y x then y :: sort_insert x l' else x :: l
  end.

(** [sort.Sort(KeyStateSlice(stateSlice))]. *)
Definition sortKeyStates (l : list KeyState) : list KeyState :=
  fold_right sort_insert [] l.

(** The callback of [memdb.ForEach]: one entry folded into the Go map
    [states].  The map is keyed by the hex encoding of the account address,
    which is one-to-one, hence here by the address. *)
Definition addAccountState (states : gmap Address KeyState) (kv : bytes * bytes)
  : gmap Address KeyState :=
  let '(key, val) := kv in
  if negb (isAccountUpdateStore key val) then states
  else
    let accountAddr := drop (Z.to_nat (ADDR_LEN + 1)) key in
    match states !! accountAddr with
    | None => <[accountAddr := mkKeyState accountAddr val]> states
    | Some item => <[accountAddr := mkKeyState (Key item) (Value item ++ val)]> states
    end.

(** [for _, v := range states]: the entries of the map in the order the Go
    runtime picks. *)
Definition range_states (states : gmap Address KeyState) : list KeyState :=
  map snd (map_range E (map_to_list states)).

Definition calculateChangeStateRoot (cache : CacheDB) : Uint256 * list Uint256 :=
  let memdb := cache_memdb cache in
  let states := fold_left addAccountState memdb ∅ in
  let stateSlice := sortKeyStates (range_states states) in
  let hashs := map (fun item => sha256 E (Value item)) (range_states states) in
  if len hashs =? 0 then (UINT256_EMPTY, [])
  else (HashFullTreeWithLeafHash E hashs, hashs).

Definition executeBlock (block : Block) : M ExecuteResult :=
  let* ss := gets stateStore in
  let overlay := NewOverlayDB ss in
  let height := Height (BHeader block) in
  (if negb (height =? 0)
   then let* w := gets (fun w => w) in
        check (refreshGlobalParam E (Timestamp (BHeader block)) height
                 (NewCacheDB (NewOverlayDB ss)) w)
   else ret tt) ;;
  let gasTable := GAS_TABLE E in
  let cache := NewCacheDB overlay in
  let* r := runTransactions block gasTable (Transactions block) overlay cache [] in
  let '(notifies, overlay, cache) := r in
  let hash := ChangeHash E overlay in
  let writeSet := ov_memdb overlay in
  let* T := gets stateHashCheckHeight in
  let* ss := gets stateStore in
  let* roots :=
    (if height <? T then ret (UINT256_EMPTY, hash)
     else if height =? T then
       match calculateTotalStateHash overlay with
       | Fail e => fail e
       | Ok res => ret (res, res)
       end
     else ret (GetStateMerkleRootWithNewHash E ss hash, hash)) in
  let '(merkleRoot, hash) := roots in
  let '(accountRoot, accountStates) := calculateChangeStateRoot cache in
  ret (mkExecuteResult writeSet hash merkleRoot notifies accountRoot accountStates).

(** *** Persisting a block *)

Definition SYSTEM_VERSION : Z := 1.
Definition HEADER_INDEX_BATCH_SIZE : Z := 2000.

Definition saveHeaderIndexList : M unit :=
  let* storeCount := gets storedIndexCount in
  let* currHeight := gets currBlockHeight in
  if u32 (currHeight - storeCount) <? HEADER_INDEX_BATCH_SIZE then ret tt
  else
    let* index := gets headerIndex in
    let headerList :=
      map (fun i => default UINT256_EMPTY (index !! u32 (storeCount + i)))
          (seqZ 0 HEADER_INDEX_BATCH_SIZE) in
    modify (with_blockStore (bs_stage (BWHeaderIndexList storeCount headerList))) ;;
    modify (with_storedIndexCount (u32 (storeCount + HEADER_INDEX_BATCH_SIZE))).

Definition saveBlockToBlockStore (block : Block) : M unit :=
  let blockHash := BlockHash E block in
  let blockHeight := Height (BHeader block) in
  setHeaderIndex blockHeight blockHash ;;
  wrap "saveHeaderIndexList error" saveHeaderIndexList ;;
  wrap "SaveCurrentBlock error"
    (io (OpBlockSaveCurrentBlock blockHeight)
        (with_blockStore (bs_stage (BWCurrentBlock blockHeight blockHash)))) ;;
  modify (with_blockStore (bs_stage (BWBlockHash blockHeight blockHash))) ;;
  wrap "SaveBlock error"
    (io (OpSaveBlock blockHeight)
        (with_blockStore (bs_stage (BWBlock blockHash block)))).

(** [result.WriteSet.ForEach]: an empty value deletes the key. *)
Definition writeSetOp (kv : bytes * bytes) : StateWrite :=
  if len (snd kv) =? 0 then SWDelete (fst kv) else SWPut (fst kv) (snd kv).

Definition saveBlockToStateStore (block : Block) (result : ExecuteResult) : M unit :=
  let blockHash := BlockHash E block in
  let blockHeight := Height (BHeader block) in
  modify (with_eventStore (fun es =>
    fold_left (fun es notify => es_stage (EWNotifyByTx (NTxHash notify) notify) es)
              (Notify result) es)) ;;
  wrap "AddBlockMerkleTreeRoot error"
    (io (OpAddStateMerkleTreeRoot blockHeight)
        (with_stateStore (ss_stage (SWStateRoot blockHeight (RHash result))))) ;;
  wrap "AddBlockMerkleTreeRoot error"
    (io (OpAddBlockMerkleTreeRoot blockHeight)
        (with_stateStore (ss_stage (SWBlockRoot (TransactionsRoot (BHeader block)))))) ;;
  wrap "SaveCurrentBlock error"
    (io (OpStateSaveCurrentBlock blockHeight)
        (with_stateStore (ss_stage (SWCurrentBlock blockHeight blockHash)))) ;;
  wrap "SaveLayer2States error"
    (io (OpSaveLayer2States blockHeight)
        (with_stateStore (ss_stage (SWLayer2States blockHeight (UpdatedAccountState result))))) ;;
  modify (with_stateStore (fun ss =>
    fold_left (fun ss kv => ss_stage (writeSetOp kv) ss) (WriteSet result) ss)).

Definition saveBlockToEventStore (block : Block) : M unit :=
  let blockHash := BlockHash E block in
  let blockHeight := Height (BHeader block) in
  let txs := map (TxHash E) (Transactions block) in
  (if len txs >? 0
   then modify (with_eventStore (es_stage (EWNotifyByBlock blockHeight txs)))
   else ret tt) ;;
  modify (with_eventStore (es_stage (EWCurrentBlock blockHeight blockHash))).

(** [log.Fatalf] in the second branch is followed by the [return] modelled
    here. *)
Definition GetBlockRootWithNewTxRoots (startHeight : Z) (txRoots : list Uint256)
  : M Uint256 :=
  let* curr := gets currBlockHeight in
  if curr >? u32 (u32 (startHeight + u32 (len txRoots)) - 1) then ret UINT256_EMPTY
  else if u32 (curr + 1) <? startHeight then ret UINT256_EMPTY
  else
    let needs := drop (Z.to_nat (u32 (u32 (curr + 1) - startHeight))) txRoots in
    gets (fun w => StateGetBlockRootWithNewTxRoots E (stateStore w) needs).

Definition submitBlock (block : Block) (layer2Msg : option Layer2State)
    (result : ExecuteResult) : M unit :=
  let blockHash := BlockHash E block in
  let blockHeight := Height (BHeader block) in
  let* blockRoot :=
    GetBlockRootWithNewTxRoots blockHeight [TransactionsRoot (BHeader block)] in
  if negb (blockHeight =? 0) && negb (blockRoot =? BlockRoot (BHeader block))
  then fail (Errorf "wrong block root at height")
  else
    NewBatch BlockStoreId ;;
    NewBatch StateStoreId ;;
    NewBatch EventStoreId ;;
    wrap "save to block store error" (saveBlockToBlockStore block) ;;
    wrap "save to msg layer2 state store error"
      (io (OpSaveMsgToLayer2Store blockHeight)
          (with_layer2Store (fun msgs => msgs ++ [layer2Msg]))) ;;
    wrap "save to state store error" (saveBlockToStateStore block result) ;;
    saveBlockToEventStore block ;;
    wrap "blockStore.CommitTo error" (CommitTo BlockStoreId blockHeight) ;;
    wrap "eventStore.CommitTo error" (CommitTo EventStoreId blockHeight) ;;
    wrap "stateStore.CommitTo error" (CommitTo StateStoreId blockHeight) ;;
    setCurrentBlock blockHeight blockHash ;;
    if DefActorPublisher E then modify (log_event (EvPublish blockHeight)) else ret tt.

(** *** The public entry points *)

Definition ExecuteBlock (block : Block) : M ExecuteResult :=
  let* currBlockHeight := GetCurrentBlockHeight in
  let blockHeight := Height (BHeader block) in
  if blockHeight <=? currBlockHeight then
    let* root := GetStateMerkleRoot blockHeight in
    ret (mkExecuteResult [] UINT256_EMPTY root [] UINT256_EMPTY [])
  else
    let nextBlockHeight := u32 (currBlockHeight + 1) in
    if negb (blockHeight =? nextBlockHeight)
    then fail (Errorf "block height not equal next block height")
    else executeBlock block.

Definition SubmitBlock (block : Block) (layer2State : option Layer2State)
    (result : ExecuteResult) : M unit :=
  let* isClosing := gets closing in
  if isClosing then fail (Errorf "save block error: ledger is closing")
  else
    let* currBlockHeight := GetCurrentBlockHeight in
    let blockHeight := Height (BHeader block) in
    if blockHeight <=? currBlockHeight then ret tt
    else
      let nextBlockHeight := u32 (currBlockHeight + 1) in
      if negb (blockHeight =? nextBlockHeight)
      then fail (Errorf "block height not equal next block height")
      else
        wrap "verifyHeader error" (verifyHeader (BHeader block)) ;;
        match layer2State with
        | Some l2 =>
            if negb (L2Height l2 =? nextBlockHeight)
            then fail (Errorf "layer2 state msg height not equal next block height")
            else if negb (L2Version l2 =? CURR_LAYER2_STATE_VERSION E)
            then fail (Errorf "error layer2 state msg version")
            else wrap "verifyLayer2State error"
                   (verifyLayer2State l2 (Bookkeepers (BHeader block)))
        | None => ret tt
        end ;;
        wrap "saveBlock error" (submitBlock block layer2State result).

(** *** Initialisation and recovery *)

Definition hasAlreadyInitGenesisBlock : M bool :=
  let* w := gets (fun w => w) in
  let '(version, err) := GetVersion w in
  match other_than_not_found err with
  | Some e => fail (Wrap "GetVersion error" e)
  | None => ret (version =? SYSTEM_VERSION)
  end.

Definition initGenesisBlock : M unit := SaveVersion SYSTEM_VERSION.

Definition loadCurrentBlock : M unit :=
  let* c := wrap "LoadCurrentBlock error" blockStore_GetCurrentBlock in
  let '(currentBlockHash, currentBlockHeight) := c in
  setCurrentBlock currentBlockHeight currentBlockHash.

(** The loop [for i := storeIndexCount; i <= currBlockHeight; i++] of
    [loadHeaderIndexList], [n] iterations from [i]. *)
Fixpoint loadHeaderIndexLoop (n : nat) (i : Z) : M unit :=
  match n with
  | O => ret tt
  | S n' =>
      let* blockHash := wrap "LoadBlockHash error" (blockStore_GetBlockHash i) in
      if blockHash =? UINT256_EMPTY then fail (Errorf "LoadBlockHash hash nil")
      else
        modify (with_headerIndex (<[i := blockHash]>)) ;;
        loadHeaderIndexLoop n' (i + 1)
  end.

(** For [currBlockHeight] below the largest [uint32] the loop runs
    [currBlockHeight + 1 - storeIndexCount] times. *)
Definition loadHeaderIndexList : M unit :=
  let* currBlockHeight := GetCurrentBlockHeight in
  let* index := wrap "LoadHeaderIndexList error" GetHeaderIndexList in
  let storeIndexCount := u32 (Z.of_nat (size index)) in
  modify (with_headerIndex (fun _ => index)) ;;
  modify (with_storedIndexCount storeIndexCount) ;;
  loadHeaderIndexLoop (Z.to_nat (currBlockHeight + 1 - storeIndexCount)) storeIndexCount.

(** The loop [for i := stateHeight; i < blockHeight; i++] of [recoverStore],
    [n] iterations from [i]. *)
Fixpoint recoverLoop (n : nat) (i : Z) : M unit :=
  match n with
  | O => ret tt
  | S n' =>
      let* blockHash := wrap "blockStore.GetBlockHash error" (blockStore_GetBlockHash i) in
      let* block := wrap "blockStore.GetBlock error" (blockStore_GetBlock blockHash) in
      NewBatch EventStoreId ;;
      NewBatch StateStoreId ;;
      let* result := executeBlock block in
      wrap "save to state store error" (saveBlockToStateStore block result) ;;
      saveBlockToEventStore block ;;
      wrap "eventStore.CommitTo error" (CommitTo EventStoreId i) ;;
      wrap "stateStore.CommitTo error" (CommitTo StateStoreId i) ;;
      recoverLoop n' (i + 1)
  end.

Definition recoverStore : M unit :=
  let* blockHeight := GetCurrentBlockHeight in
  let* c := wrap "stateStore.GetCurrentBlock error" stateStore_GetCurrentBlock in
  let stateHeight := snd c in
  recoverLoop (Z.to_nat (blockHeight - stateHeight)) stateHeight.

Definition init : M unit :=
  wrap "loadCurrentBlock error" loadCurrentBlock ;;
  wrap "loadHeaderIndexList error" loadHeaderIndexList ;;
  wrap "recoverStore error" recoverStore.

Definition InitLedgerStoreWithGenesisBlock (genesisBlock : Block)
    (defaultBookkeeper : list PublicKey) : M unit :=
  let* hasInit := wrap "hasAlreadyInit error" hasAlreadyInitGenesisBlock in
  if negb hasInit then
    wrap "blockStore.ClearAll error" (ClearAll BlockStoreId) ;;
    wrap "stateStore.ClearAll error" (ClearAll StateStoreId) ;;
    wrap "eventStore.ClearAll error" (ClearAll EventStoreId) ;;
    let defaultBookkeeper := SortPublicKeys E defaultBookkeeper in
    let bookkeeperState := mkBookkeeperState defaultBookkeeper defaultBookkeeper in
    wrap "SaveBookkeeperState error" (SaveBookkeeperState bookkeeperState) ;;
    let* result := executeBlock genesisBlock in
    wrap "save genesis block error" (submitBlock genesisBlock None result) ;;
    wrap "init error" initGenesisBlock
  else
    let genesisHash := BlockHash E genesisBlock in
    let* exist := wrap "HashBlockExist error" (ContainBlock genesisHash) in
    if negb exist then fail (Errorf "GenesisBlock arenot init correctly")
    else wrap "init error" init.

End LedgerStore.

Arguments submitBlock : simpl never.
Arguments executeBlock : simpl never.
Arguments verifyHeader : simpl never.

(** ** The ledger store: query surface, closing, saving-block lock *)

Section LedgerStoreQueries.

Context (E : Env).

(** [getHeaderIndex]: the zero [Uint256] for a height the map does not hold. *)
Definition getHeaderIndex (height : Z) : M Uint256 :=
  gets (fun w => default UINT256_EMPTY (headerIndex w !! height)).




Definition GetCurrentBlock : M (Z * Uint256) :=
  gets (fun w => (currBlockHeight w, currBlockHash w)).

Definition GetCurrentBlockHash : M Uint256 := gets currBlockHash.

Definition GetBlockHash (height : Z) : M Uint256 := getHeaderIndex height.

Definition IsContainBlock (blockHash : Uint256) : M bool := ContainBlock E blockHash.

Definition GetBlockByHash (blockHash : Uint256) : M Block := blockStore_GetBlock E blockHash.

(** [GetBlockByHeight]: [(nil, nil)] when the header index holds no hash
    (or the zero hash) for the height. *)
Definition GetBlockByHeight (height : Z) : M (option Block) :=
  let* blockHash := GetBlockHash height in
  if blockHash =? UINT256_EMPTY then ret None
  else
    let* block := GetBlockByHash blockHash in
    ret (Some block).

Definition GetHeaderByHeight (height : Z) (w : LedgerStoreImp)
  : option Header * option error :=
  match GetBlockHash height w with
  | (Ok blockHash, _) => GetHeaderByHash E blockHash w
  | (Fail e, _) => (None, Some e)
  end.

(** [Close]: [closeFails s] tells whether closing the sub-store [s] returns
    an error.  The stores are closed in the order block, event, state, up
    to the first error; [closing] is set before.  The saving-block lock the
    call takes on entry and gives back on return is modelled apart, below. *)
Definition with_closing (c : bool) (w : LedgerStoreImp) : LedgerStoreImp :=
  mkLedger (blockStore w) (stateStore w) (eventStore w) (layer2Store w)
    (storedIndexCount w) (currBlockHeight w) (currBlockHash w) (headerIndex w)
    c (stateHashCheckHeight w) (trace w).

Definition closeStore (closeFails : StoreId -> bool) (s : StoreId) : M unit :=
  if closeFails s then fail (ErrExternal 0) else ret tt.

Definition Close (closeFails : StoreId -> bool) : M unit :=
  modify (with_closing true) ;;
  wrap "blockStore close error" (closeStore closeFails BlockStoreId) ;;
  wrap "eventStore close error" (closeStore closeFails EventStoreId) ;;
  wrap "stateStore close error" (closeStore closeFails StateStoreId).

End LedgerStoreQueries.

(** The saving-block semaphore: a channel of capacity 1, modelled by the
    number of values it holds.  A blocking send on a full channel does not
    return: [None]. *)
Definition Semaphore := nat.

Inductive Released :=
| ReleasedOk (s : Semaphore)
| ReleasePanic.

(** [tryGetSavingBlockLock]: the returned flag is [false] when the value
    was sent, that is when the lock was taken. *)
Definition tryGetSavingBlockLock (s : Semaphore) : bool * Semaphore :=
  if (s <? 1)%nat then (false, S s) else (true, s).

Definition getSavingBlockLock (s : Semaphore) : option Semaphore :=
  if (s <? 1)%nat then Some (S s) else None.

Definition releaseSavingBlockLock (s : Semaphore) : Released :=
  match s with
  | S s' => ReleasedOk s'
  | O => ReleasePanic
  end.

(** ** Pre-execution *)

Record PrexecuteParam := mkPrexecuteParam {
  JitMode : bool;
  WasmFactor : Z;
  MinGas : bool
}.

(** [sstate.PreExecResult]. *)
Record PreExecResult := mkPreExecResult {
  PState : ContractState;
  PGas : Z;
  PResult : option bytes;
  PNotify : list bytes
}.

(** [smartcontract.Config]. *)
Record Config := mkConfig {
  CTime : Z;
  CHeight : Z;
  CTx : Transaction;
  CBlockHash : Uint256
}.

(** What [engine.Invoke] leaves behind: its result ([nil] or a value), its
    error, the gas left in the contract and the notifications. *)
Record InvokeOut := mkInvokeOut {
  i_result : option bytes;
  i_err : option error;
  i_gas : Z;
  i_notifications : list bytes
}.

(** What pre-execution calls and this file does not define: the clock, the
    constants and the gas table of package neovm (its keys are distinct),
    the gas formulas, the engine run on a contract with the given
    configuration, cache, gas table, gas, JIT mode and code, and the
    conversion of its result. *)
Record PreEnv := mkPreEnv {
  timeNow : Z;
  MIN_TRANSACTION_GAS : Z;
  NEOVM_GAS_TABLE : GasTable;
  WASM_GAS_FACTOR : string;
  UINT_INVOKE_CODE_LEN_NAME : string;
  CONTRACT_CREATE_NAME : string;
  UINT_DEPLOY_CODE_LEN_NAME : string;
  calcGasByCodeLen : Z -> Z -> Z;
  tuneGasFeeByHeight : Z -> Z -> Z -> Z -> Z;
  Invoke : Config -> LedgerStoreImp -> CacheDB -> GasTable -> Z -> bool -> bytes ->
           InvokeOut;
  ConvertNeoVmValueHexString : bytes -> result bytes
}.

Definition u64 (x : Z) : Z := x mod 2 ^ 64.
Definition MaxUint64 : Z := 2 ^ 64 - 1.

(** [gasTable[key]]: zero for a key the map does not hold. *)
Definition gasOf (gasTable : GasTable) (key : string) : Z :=
  match List.find (fun kv => String.eqb (fst kv) key) gasTable with
  | Some kv => snd kv
  | None => 0
  end.

Definition wasmMagicversion : bytes := [0; 97; 115; 109; 1; 0; 0; 0].

Section PreExecution.

Context (E : Env) (P : PreEnv).

(** The result returned with every error. *)
Definition stf : PreExecResult :=
  mkPreExecResult CONTRACT_STATE_FAIL (MIN_TRANSACTION_GAS P) None [].

(** The gas table of one pre-execution: [neovm.GAS_TABLE] with the wasm
    factor replaced when the parameter gives one. *)
Definition preExecGasTable (preParam : PrexecuteParam) : GasTable :=
  map (fun kv =>
         if String.eqb (fst kv) (WASM_GAS_FACTOR P) && negb (WasmFactor preParam =? 0)
         then (fst kv, WasmFactor preParam)
         else kv)
      (NEOVM_GAS_TABLE P).

(** [PreExecuteContractWithParam]; [None] is the nil dereference of a
    header returned as [nil] without an error. *)
Definition PreExecuteContractWithParam (tx : Transaction) (preParam : PrexecuteParam)
    (w : LedgerStoreImp) : option (PreExecResult * option error) :=
  let height := currBlockHeight w in
  let blockTime :=
    match GetHeaderByHeight E height w with
    | (Some header, None) => Some (u32 (Timestamp header + 1))
    | (None, None) => None
    | (_, Some _) => Some (timeNow P)
    end in
  match blockTime with
  | None => None
  | Some blockTime =>
      let blockHash :=
        match fst (GetBlockHash height w) with
        | Ok x => x
        | Fail _ => UINT256_EMPTY
        end in
      let sconfig := mkConfig blockTime (u32 (height + 1)) tx blockHash in
      let overlay := NewOverlayDB (stateStore w) in
      let cache := NewCacheDB overlay in
      let gasTable := preExecGasTable preParam in
      match TxType tx with
      | InvokeNeo =>
          let code := Payload tx in
          let gas :=
            u64 (MaxUint64 - calcGasByCodeLen P (len code)
                               (gasOf gasTable (UINT_INVOKE_CODE_LEN_NAME P))) in
          let out := Invoke P sconfig w cache gasTable gas (JitMode preParam) code in
          match i_err out with
          | Some err => Some (stf, Some err)
          | None =>
              let gasCost := u64 (MaxUint64 - i_gas out) in
              let gasCost :=
                if MinGas preParam then
                  let mixGas := MIN_TRANSACTION_GAS P in
                  let gasCost := if gasCost <? mixGas then mixGas else gasCost in
                  tuneGasFeeByHeight P (CHeight sconfig) gasCost (MIN_TRANSACTION_GAS P)
                    MaxUint64
                else gasCost in
              match i_result out with
              | Some val =>
                  match ConvertNeoVmValueHexString P val with
                  | Fail err => Some (stf, Some err)
                  | Ok cv =>
                      Some (mkPreExecResult CONTRACT_STATE_SUCCESS gasCost (Some cv)
                              (i_notifications out), None)
                  end
              | None =>
                  Some (mkPreExecResult CONTRACT_STATE_SUCCESS gasCost None
                          (i_notifications out), None)
              end
          end
      | Deploy =>
          let code := Payload tx in
          if (len code >=? len wasmMagicversion) &&
             match bytes_compare wasmMagicversion (take 8 code) with
             | Eq => true
             | _ => false
             end
          then Some (stf, Some (Errorf "this code is wasm binary. can not deployed as neo contract"))
          else
            Some (mkPreExecResult CONTRACT_STATE_SUCCESS
                    (u64 (gasOf gasTable (CONTRACT_CREATE_NAME P) +
                          calcGasByCodeLen P (len code)
                            (gasOf gasTable (UINT_DEPLOY_CODE_LEN_NAME P))))
                    None [], None)
      | OtherTxType _ => Some (stf, Some (Errorf "transaction type error"))
      end
  end.




End PreExecution.

(** ** A small concrete instance

    A toy chain with four bookkeepers, used to run the model on concrete
    inputs.  Hashes are small injective codes, a signature list verifies
    when it is long enough, and the engine executes a transaction whose
    payload is [[account; flag]]: flag 0 is an engine error, any other flag
    writes the flag under the account's storage key. *)
Module Toy.

Definition hashBytes (b : bytes) : Uint256 :=
  fold_left (fun acc x => acc * 257 + x + 1) b 0.

Definition accountKey (account : Z) : bytes :=
  5 :: repeat 7 20 ++ repeat account 20.

Definition handler : Handler :=
  fun _ overlay _ cache tx _ notify =>
    match Payload tx with
    | [account; flag] =>
        if flag =? 0
        then mkHandlerOut (Some (ErrExternal 1)) overlay cache notify
        else if flag =? 99
        then mkHandlerOut (Some (ErrExternal 2))
               (mkOverlayDB (ov_store overlay) (ov_memdb overlay) (Some (ErrExternal 2)))
               cache notify
        else mkHandlerOut None
               (mkOverlayDB (ov_store overlay)
                  (ov_memdb overlay ++ [(accountKey account, [flag])]) (ov_err overlay))
               (mkCacheDB (cache_memdb cache ++ [(accountKey account, [flag])]))
               (mkExecuteNotify (NTxHash notify) CONTRACT_STATE_SUCCESS 1 [])
    | _ => mkHandlerOut (Some (ErrExternal 1)) overlay cache notify
    end.

(** The same engine without the overlay fault of flag 99. *)
Definition safeHandler : Handler :=
  fun _ overlay _ cache tx _ notify =>
    match Payload tx with
    | [account; flag] =>
        if flag =? 0
        then mkHandlerOut (Some (ErrExternal 1)) overlay cache notify
        else mkHandlerOut None
               (mkOverlayDB (ov_store overlay)
                  (ov_memdb overlay ++ [(accountKey account, [flag])]) (ov_err overlay))
               (mkCacheDB (cache_memdb cache ++ [(accountKey account, [flag])]))
               (mkExecuteNotify (NTxHash notify) CONTRACT_STATE_SUCCESS 1 [])
    | _ => mkHandlerOut (Some (ErrExternal 1)) overlay cache notify
    end.

Definition hasPrefix (p k : bytes) : bool :=
  bool_decide (take (length p) k = p).

Definition stateRootAt (ss : StateStore) (h : Z) : result Uint256 :=
  match filter (fun e => fst e = h) (ss_stateRoots ss) with
  | e :: _ => Ok (snd e)
  | [] => Fail ErrNotFound
  end.

(** The environment with fault schedule [faults] and map iteration order
    [order]. *)
Definition env (faults : IOp -> bool)
    (order : list (Address * KeyState) -> list (Address * KeyState)) : Env :=
  {| io_fails := faults;
     HeaderHash := fun h => 1000 + Height h;
     BlockHash := fun b => 1000 + Height (BHeader b);
     TxHash := fun tx => 7000 + hashBytes (Payload tx);
     Layer2StateHash := fun l => 5000 + L2Height l;
     AddressFromBookkeepers := fun bks =>
       match bks with [] => Fail (ErrExternal 3) | _ => Ok bks end;
     VerifyMultiSignature := fun _ keys m sigs =>
       if len sigs <? m then Some (ErrExternal 4) else None;
     SortPublicKeys := merge_sort Z.le;
     CURR_LAYER2_STATE_VERSION := 1;
     refreshGlobalParam := fun _ _ _ _ => None;
     GAS_TABLE := [];
     HandleDeployTransaction := handler;
     HandleInvokeTransaction := handler;
     ChangeHash := fun ov => hashBytes (accumulateHash (ov_memdb ov));
     ST_CONTRACT := 4;
     ST_STORAGE := 5;
     NewIterator := fun ov p => (filter (fun kv => hasPrefix p (fst kv)) (ov_memdb ov), None);
     sha256 := hashBytes;
     HashFullTreeWithLeafHash := hashBytes;
     GetStateMerkleRootOf := stateRootAt;
     GetStateMerkleRootWithNewHash := fun ss h => hashBytes (map snd (ss_stateRoots ss) ++ [h]);
     StateGetBlockRootWithNewTxRoots := fun ss needs => len (ss_blockRoots ss) + len needs;
     map_range := order;
     DefActorPublisher := true |}.

Definition noFaults : IOp -> bool := fun _ => false.

Definition E0 : Env := env noFaults (fun l => l).

Definition Esafe : Env := with_handlers safeHandler safeHandler E0.

Definition keys : list PublicKey := [1; 2; 3; 4].

Definition header (h : Z) : Header :=
  mkHeader h (1000 + (h - 1)) (100 + h) (50 + h) (h + 1) keys keys [[1]; [2]; [3]].

Definition invoke (account flag : Z) : Transaction :=
  mkTransaction InvokeNeo [account; flag].

Definition block (h : Z) : Block := mkBlock (header h) [invoke h 1].

Definition genesis : Block := mkBlock (header 0) [].

(** Block 1 with a transaction that fails in the engine, followed by one
    that succeeds. *)
Definition mixedBlock : Block := mkBlock (header 1) [invoke 7 0; invoke 8 1].

(** A cache whose memdb holds one storage entry for each of two accounts. *)
Definition twoAccounts : CacheDB :=
  mkCacheDB [(accountKey 1, [10]); (accountKey 2, [20])].

(** Two iteration orders the Go runtime may pick for the same map. *)
Definition Eforward : Env := env noFaults (fun l => l).
Definition Ebackward : Env := env noFaults (@rev (Address * KeyState)).

(** A ledger store just opened on empty sub-stores, checkpoint height [T]. *)
Definition fresh (T : Z) : LedgerStoreImp :=
  mkLedger emptyBlockStore emptyStateStore emptyEventStore [] 0 0 UINT256_EMPTY ∅
    false T [].

Definition run {A} (c : M A) (w : LedgerStoreImp) : LedgerStoreImp := snd (c w).

(** [ExecuteBlock] then [SubmitBlock] of one block, as a consensus round
    does. *)
Definition addBlock (E : Env) (b : Block) (w : LedgerStoreImp) : LedgerStoreImp :=
  match ExecuteBlock E b w with
  | (Ok res, w1) => run (SubmitBlock E b None res) w1
  | (Fail _, w1) => w1
  end.

(** The ledger after genesis initialisation and blocks [1..n]. *)
Definition chain (n : nat) : LedgerStoreImp :=
  fold_left (fun w h => addBlock E0 (block h) w) (seqZ 1 (Z.of_nat n))
    (run (InitLedgerStoreWithGenesisBlock E0 genesis [3; 1; 4; 2]) (fresh 3)).

(** The process restarted on given sub-stores: in-memory fields are zero. *)
Definition reopen (bs : BlockStore) (ss : StateStore) (es : EventStore)
    (l2 : Layer2Store) (T : Z) : LedgerStoreImp :=
  mkLedger bs ss es l2 0 0 UINT256_EMPTY ∅ false T [].

(** Crash scenario: block and event stores committed through height 7, state
    store through height 5. *)
Definition crashed : LedgerStoreImp :=
  reopen (blockStore (chain 7)) (stateStore (chain 5)) (eventStore (chain 7))
    (layer2Store (chain 7)) 3.

(** Pre-execution on the toy chain: a gas table with three entries, gas by
    code length proportional to the length, an engine that fails on empty
    code and otherwise spends one unit of gas per byte of code. *)
Definition pre : PreEnv :=
  {| timeNow := 5000;
     MIN_TRANSACTION_GAS := 20000;
     NEOVM_GAS_TABLE :=
       [("WASM"%string, 10); ("CREATE"%string, 500); ("DEPLOY_LEN"%string, 3)];
     WASM_GAS_FACTOR := "WASM";
     UINT_INVOKE_CODE_LEN_NAME := "INVOKE_LEN";
     CONTRACT_CREATE_NAME := "CREATE";
     UINT_DEPLOY_CODE_LEN_NAME := "DEPLOY_LEN";
     calcGasByCodeLen := fun codeLen price => codeLen * price;
     tuneGasFeeByHeight := fun _ gas _ _ => gas;
     Invoke := fun _ _ _ _ gas _ code =>
       match code with
       | [] => mkInvokeOut None (Some (ErrExternal 7)) gas []
       | _ => mkInvokeOut (Some code) None (gas - len code) []
       end;
     ConvertNeoVmValueHexString := fun v => Ok v |}.

Definition deploy (code : bytes) : Transaction := mkTransaction Deploy code.

End Toy.

(** ** Vocabulary of the statements *)

(** [frame p c]: running [c] leaves the projection [p] of the ledger as it
    was, whether [c] fails or not. *)
Definition frame {A X} (p : LedgerStoreImp -> X) (c : M A) : Prop :=
  forall w, p (snd (c w)) = p w.

Definition is_commit (ev : Event) : option StoreId :=
  match ev with
  | EvCommitTo s => Some s
  | _ => None
  end.

(** The stores whose [CommitTo] was invoked, in call order. *)
Definition commitsOf (l : list Event) : list StoreId := omap is_commit l.

(** The durable milestones of a trace: everything but the opening of
    batches, the engine calls and the notifications. *)
Definition is_milestone (ev : Event) : bool :=
  match ev with
  | EvClearAll _ | EvSaveBookkeeperState _ | EvSaveVersion _ | EvCommitTo _ => true
  | EvNewBatch _ | EvExecuteTx _ _ | EvPublish _ => false
  end.

Definition milestones (w : LedgerStoreImp) : list Event :=
  List.filter is_milestone (trace w).

Definition pointer (w : LedgerStoreImp) : Z * Uint256 :=
  (currBlockHeight w, currBlockHash w).

(** What the steps before the first commit leave alone: the in-memory
    pointer and the milestones. *)
Definition submitView (w : LedgerStoreImp) : (Z * Uint256) * list Event :=
  (pointer w, milestones w).

(** The five ways a call of [submitBlock] can end, seen from the pointer
    and the milestones [x] it started with. *)
Definition submit_outcome (E : Env) (b : Block) (x : (Z * Uint256) * list Event)
    (r : result unit) (w' : LedgerStoreImp) : Prop :=
  let h := Height (BHeader b) in
  let failsB := io_fails E (OpCommitTo BlockStoreId h) in
  let failsE := io_fails E (OpCommitTo EventStoreId h) in
  let failsS := io_fails E (OpCommitTo StateStoreId h) in
  (is_ok r = false /\ pointer w' = fst x /\ milestones w' = snd x)
  \/ (is_ok r = false /\ pointer w' = fst x /\
      milestones w' = snd x ++ [EvCommitTo BlockStoreId] /\ failsB = true)
  \/ (is_ok r = false /\ pointer w' = fst x /\
      milestones w' = snd x ++ [EvCommitTo BlockStoreId; EvCommitTo EventStoreId] /\
      failsB = false /\ failsE = true)
  \/ (is_ok r = false /\ pointer w' = fst x /\
      milestones w' = snd x ++ [EvCommitTo BlockStoreId; EvCommitTo EventStoreId;
                                EvCommitTo StateStoreId] /\
      failsB = false /\ failsE = false /\ failsS = true)
  \/ (r = Ok tt /\ pointer w' = (h, BlockHash E b) /\
      milestones w' = snd x ++ [EvCommitTo BlockStoreId; EvCommitTo EventStoreId;
                                EvCommitTo StateStoreId] /\
      failsB = false /\ failsE = false /\ failsS = false).










(** Everything but the trace. *)
Definition untraced (w : LedgerStoreImp) : LedgerStoreImp :=
  mkLedger (blockStore w) (stateStore w) (eventStore w) (layer2Store w)
    (storedIndexCount w) (currBlockHeight w) (currBlockHash w) (headerIndex w)
    (closing w) (stateHashCheckHeight w) [].

(** What execution leaves alone: everything but the trace, and the
    milestones of the trace. *)
Definition execView (w : LedgerStoreImp) : LedgerStoreImp * list Event :=
  (untraced w, milestones w).





(** The conditions under which a non-genesis header is accepted, given the
    parent header. *)
Definition header_checks (E : Env) (hdr parent : Header) : Prop :=
  Height hdr = Height parent + 1 /\
  Timestamp parent < Timestamp hdr /\
  AddressFromBookkeepers E (Bookkeepers hdr) = Ok (NextBookkeeper parent) /\
  VerifyMultiSignature E (HeaderHash E hdr) (Bookkeepers hdr)
    (quorum (len (Bookkeepers hdr))) (SigData hdr) = None.

(** The block store holds headers whose height is a [uint32]. *)
Definition wf_blocks (w : LedgerStoreImp) : Prop :=
  map_Forall (fun _ blk => is_u32 (Height (BHeader blk))) (bs_blocks (blockStore w)).

(** The hashes [saveHeaderIndexList] collects for one batch: the header
    index at the heights [storedIndexCount + i], the zero hash where the
    index holds none. *)
Definition headerBatch (w : LedgerStoreImp) : list Uint256 :=
  map (fun i => default UINT256_EMPTY (headerIndex w !! u32 (storedIndexCount w + i)))
      (seqZ 0 HEADER_INDEX_BATCH_SIZE).

(** The effect of [saveHeaderIndexList]. *)
Definition flushHeaderIndex (w : LedgerStoreImp) : LedgerStoreImp :=
  if u32 (currBlockHeight w - storedIndexCount w) <? HEADER_INDEX_BATCH_SIZE then w
  else with_storedIndexCount (u32 (storedIndexCount w + HEADER_INDEX_BATCH_SIZE))
         (with_blockStore (bs_stage (BWHeaderIndexList (storedIndexCount w) (headerBatch w)))
            w).

(** The writes [submitBlock] stages for a block, per store, in order. *)
Definition blockBatchOf (E : Env) (b : Block) : list BlockWrite :=
  [BWCurrentBlock (Height (BHeader b)) (BlockHash E b);
   BWBlockHash (Height (BHeader b)) (BlockHash E b);
   BWBlock (BlockHash E b) b].

Definition stateBatchOf (E : Env) (b : Block) (res : ExecuteResult) : list StateWrite :=
  [SWStateRoot (Height (BHeader b)) (RHash res);
   SWBlockRoot (TransactionsRoot (BHeader b));
   SWCurrentBlock (Height (BHeader b)) (BlockHash E b);
   SWLayer2States (Height (BHeader b)) (UpdatedAccountState res)]
  ++ map writeSetOp (WriteSet res).

Definition eventBatchOf (E : Env) (b : Block) (res : ExecuteResult) : list EventWrite :=
  map (fun n => EWNotifyByTx (NTxHash n) n) (Notify res)
  ++ (if len (map (TxHash E) (Transactions b)) >? 0
      then [EWNotifyByBlock (Height (BHeader b)) (map (TxHash E) (Transactions b))]
      else [])
  ++ [EWCurrentBlock (Height (BHeader b)) (BlockHash E b)].

(** The ledger on which [submitBlock] stages the block: batches opened, the
    header index updated and, when due, flushed. *)
Definition submitBase (E : Env) (b : Block) (w : LedgerStoreImp) : LedgerStoreImp :=
  flushHeaderIndex
    (with_headerIndex (<[Height (BHeader b) := BlockHash E b]>)
       (log_event (EvNewBatch EventStoreId)
          (with_eventStore es_newBatch
             (log_event (EvNewBatch StateStoreId)
                (with_stateStore ss_newBatch
                   (log_event (EvNewBatch BlockStoreId)
                      (with_blockStore bs_newBatch w))))))).

(** The block, state and event stores with a list of writes committed on
    top of what is already staged. *)
Definition bs_commit_with (l : list BlockWrite) (s : BlockStore) : BlockStore :=
  bs_newBatch (fold_left applyBlockWrite (bs_batch s ++ l) s).

Definition ss_commit_with (l : list StateWrite) (s : StateStore) : StateStore :=
  ss_newBatch (fold_left applyStateWrite (ss_batch s ++ l) s).

Definition es_commit_with (l : list EventWrite) (s : EventStore) : EventStore :=
  es_newBatch (fold_left applyEventWrite (es_batch s ++ l) s).

(** What recovery leaves alone: the block store, the layer2 store, the
    in-memory pointer and header index, and the flags. *)
Definition recoverView (w : LedgerStoreImp)
  : BlockStore * Layer2Store * Z * (Z * Uint256) * gmap Z Uint256 * bool * Z :=
  (blockStore w, layer2Store w, storedIndexCount w, pointer w, headerIndex w,
   closing w, stateHashCheckHeight w).

(** What the loading of the pointer and of the header index leaves alone:
    the stores and the flags. *)
Definition storesView (w : LedgerStoreImp)
  : BlockStore * StateStore * EventStore * Layer2Store * bool * Z * list Event :=
  (blockStore w, stateStore w, eventStore w, layer2Store w, closing w,
   stateHashCheckHeight w, trace w).

(** The values the memdb holds for the account [a], in memdb order: the
    entries whose key has the account layout and ends with [a]. *)
Definition accountWrites (a : Address) (memdb : MemDB) : list bytes :=
  map snd
    (List.filter
       (fun kv => isAccountUpdateStore (fst kv) (snd kv) &&
                  bool_decide (drop (Z.to_nat (ADDR_LEN + 1)) (fst kv) = a))
       memdb).

(** The last write of a write set to the key [k]. *)
Definition lastWrite (k : bytes) (ws : MemDB) : option (bytes * bytes) :=
  List.find (fun kv => bool_decide (fst kv = k)) (rev ws).


(** * The transaction builder (package utils) *)

Module TxBuilder.

(** The [vm] opcodes the builder functions emit. *)
Inductive OpCode :=
| SYSCALL | PACK | NEWSTRUCT | TOALTSTACK | DUPFROMALTSTACK | SWAP | APPEND
| FROMALTSTACK.

(** One call on a [vm.ParamsBuilder]; the builder is the sequence of the
    calls made on it, [ToArray] its encoding. *)
Inductive Emit :=
| EmitPushBool (b : bool)
| EmitPushInteger (v : Z)
| EmitPushByteArray (b : bytes)
| EmitOp (op : OpCode).

Definition ParamsBuilder := list Emit.

(** The conversion [int64(v)] of an integer value: two's complement on 64
    bits. *)
Definition int64 (v : Z) : Z := (v + 2 ^ 63) mod 2 ^ 64 - 2 ^ 63.

(** The values of [[]interface{}] as the type switch of [BuildNeoVMParam]
    tells them apart.  A string is its bytes, a [common.Uint256] the bytes
    [ToArray] returns, a [*big.Int] its value.  [PSlice] is a value whose
    reflect kind, after one pointer at most, is "slice" and that no earlier
    case takes, with its elements; [PStruct] one whose kind is "struct", with
    its fields and whether each is exported ([Interface] panics on one that
    is not); [POther] any other value, a [nil] interface and a pointer to a
    pointer included. *)
#[local] Unset Elimination Schemes.
Inductive Param :=
| PBool (v : bool)
| PByte (v : Z)
| PInt (v : Z)
| PUint (v : Z)
| PInt32 (v : Z)
| PUint32 (v : Z)
| PInt64 (v : Z)
| PFixed64 (v : Z)
| PUint64 (v : Z)
| PString (v : bytes)
| PBigInt (v : Z)
| PBytes (v : bytes)
| PAddress (v : Address)
| PUint256 (v : bytes)
| PList (v : list Param)
| PSlice (v : list Param)
| PStruct (fields : list (bool * Param))
| POther.
#[local] Set Elimination Schemes.

(** How a call ends: [nil], the error "unsupported param", or a panic. *)
Inductive Outcome := Done | Unsupported | Panicked.

(** The loop [for i := len(smartContractParams) - 1; i >= 0; i--], [one]
    being the body of the loop. *)
Fixpoint buildReversed (one : Param -> ParamsBuilder -> Outcome * ParamsBuilder)
    (params : list Param) (builder : ParamsBuilder) : Outcome * ParamsBuilder :=
  match params with
  | [] => (Done, builder)
  | v :: earlier =>
      match buildReversed one earlier builder with
      | (Done, builder) => one v builder
      | stopped => stopped
      end
  end.

(** The loop over the fields of a struct; the recursive call on the
    one-element slice [[]interface{}{field.Interface()}] runs the body of
    the loop once. *)
Fixpoint buildFields (one : Param -> ParamsBuilder -> Outcome * ParamsBuilder)
    (fields : list (bool * Param)) (builder : ParamsBuilder)
  : Outcome * ParamsBuilder :=
  match fields with
  | [] => (Done, builder)
  | (exported, field) :: rest =>
      if negb exported then (Panicked, builder)
      else
        match one field builder with
        | (Done, builder) =>
            buildFields one rest
              (builder ++ [EmitOp DUPFROMALTSTACK; EmitOp SWAP; EmitOp APPEND])
        | stopped => stopped
        end
  end.

(** The case [[]interface{}] once the elements are built. *)
Definition pack (n : Z) (r : Outcome * ParamsBuilder) : Outcome * ParamsBuilder :=
  match r with
  | (Done, builder) => (Done, builder ++ [EmitPushInteger (int64 n); EmitOp PACK])
  | stopped => stopped
  end.

(** The body of the loop of [BuildNeoVMParam].  In the "slice" case the
    recursive call on [[]interface{}{ps}] runs the [[]interface{}] case on
    [ps]. *)
Fixpoint buildOne (v : Param) (builder : ParamsBuilder) {struct v}
  : Outcome * ParamsBuilder :=
  match v with
  | PBool b => (Done, builder ++ [EmitPushBool b])
  | PByte x => (Done, builder ++ [EmitPushInteger (int64 x)])
  | PInt x => (Done, builder ++ [EmitPushInteger (int64 x)])
  | PUint x => (Done, builder ++ [EmitPushInteger (int64 x)])
  | PInt32 x => (Done, builder ++ [EmitPushInteger (int64 x)])
  | PUint32 x => (Done, builder ++ [EmitPushInteger (int64 x)])
  | PInt64 x => (Done, builder ++ [EmitPushInteger (int64 x)])
  | PFixed64 x => (Done, builder ++ [EmitPushInteger (int64 x)])
  | PUint64 x => (Done, builder ++ [EmitPushInteger x])
  | PString s => (Done, builder ++ [EmitPushByteArray s])
  | PBigInt x => (Done, builder ++ [EmitPushInteger x])
  | PBytes b => (Done, builder ++ [EmitPushByteArray b])
  | PAddress a => (Done, builder ++ [EmitPushByteArray a])
  | PUint256 u => (Done, builder ++ [EmitPushByteArray u])
  | PList l => pack (len l) (buildReversed buildOne l builder)
  | PSlice ps => pack (len ps) (buildReversed buildOne ps builder)
  | PStruct fields =>
      match
        buildFields buildOne fields
          (builder ++ [EmitPushInteger 0; EmitOp NEWSTRUCT; EmitOp TOALTSTACK])
      with
      | (Done, builder) => (Done, builder ++ [EmitOp FROMALTSTACK])
      | stopped => stopped
      end
  | POther => (Unsupported, builder)
  end.

Definition BuildNeoVMParam (smartContractParams : list Param) (builder : ParamsBuilder)
  : Outcome * ParamsBuilder :=
  buildReversed buildOne smartContractParams builder.

(** [[]byte("Ontology.Native.Invoke")]. *)
Definition NATIVE_INVOKE_NAME : bytes :=
  map (fun a => Z.of_N (Ascii.N_of_ascii a))
      (list_ascii_of_string "Ontology.Native.Invoke").

Section Encoding.

(** [builder.ToArray()]. *)
Context (ToArray : ParamsBuilder -> bytes).

(** [BuildNeoVMInvokeCode]: the code, [nil] with an error. *)
Definition BuildNeoVMInvokeCode (smartContractAddress : Address) (params : list Param)
  : Outcome * option bytes :=
  match BuildNeoVMParam params [] with
  | (Done, builder) => (Done, Some ((ToArray builder ++ [103]) ++ smartContractAddress))
  | (stopped, _) => (stopped, None)
  end.

Definition BuildNativeInvokeCode (contractAddress : Address) (version : Z)
    (method : bytes) (params : list Param) : Outcome * option bytes :=
  match BuildNeoVMParam params [] with
  | (Done, builder) =>
      (Done,
       Some (ToArray
               (((((builder ++ [EmitPushByteArray method])
                     ++ [EmitPushByteArray contractAddress])
                    ++ [EmitPushInteger (int64 version)])
                   ++ [EmitOp SYSCALL])
                  ++ [EmitPushByteArray NATIVE_INVOKE_NAME])))
  | (stopped, _) => (stopped, None)
  end.

(** [types.MutableTransaction], the fields the builder sets. *)
Record MutableTransaction := mkMutableTransaction {
  MTxType : TransactionType;
  SystemId : Z;
  MPayload : bytes;
  GasLimit : Z
}.

Definition MaxUint64 : Z := 2 ^ 64 - 1.

Definition NewInvokeTransaction (code : bytes) : MutableTransaction :=
  mkMutableTransaction InvokeNeo 1 code 0.

Definition BuildNativeTransaction (addr : Address) (initMethod : bytes) (args : bytes)
  : MutableTransaction :=
  let builder :=
    ((((([] ++ [EmitPushByteArray args])
          ++ [EmitPushByteArray initMethod])
         ++ [EmitPushByteArray addr])
        ++ [EmitPushInteger 0])
       ++ [EmitOp SYSCALL])
      ++ [EmitPushByteArray NATIVE_INVOKE_NAME] in
  let tx := NewInvokeTransaction (ToArray builder) in
  mkMutableTransaction (MTxType tx) (SystemId tx) (MPayload tx) MaxUint64.

End Encoding.

(** A parameter [BuildNeoVMParam] can build: no value of another kind and
    no unexported field at any depth. *)
Fixpoint supported (v : Param) : bool :=
  match v with
  | PList l | PSlice l => forallb supported l
  | PStruct fields => forallb (fun f => fst f && supported (snd f)) fields
  | POther => false
  | _ => true
  end.

(** A builder function that only appends, with an outcome that does not
    depend on what the builder holds. *)
Definition appends (f : ParamsBuilder -> Outcome * ParamsBuilder) : Prop :=
  exists o e, forall builder, f builder = (o, builder ++ e).

End TxBuilder.

(** * The operator (package core) *)

Module Operator.

(** How a modelled call ends: it returns, it panics, or the fuel given to
    its loop ran out before the loop ended. *)
Inductive Run (A : Type) :=
| Returned (a : A)
| Panicked
| OutOfFuel.
Arguments Returned {A} a.
Arguments Panicked {A}.
Arguments OutOfFuel {A}.

(** ** [commitDeposit2Layer2] *)

(** [deposit.TokenAddress] as the function tells it apart. *)
Inductive Token := ONT_CONTRACT_ADDRESS | ONG_CONTRACT_ADDRESS | OtherToken.

Inductive DepositState := DEPOSIT_EVENT | DEPOSIT_COMMIT | DEPOSIT_FAILED.

Record Deposit := mkDeposit {
  DState : DepositState;
  DAmount : Z;
  DTokenAddress : Token;
  DID : Z
}.

(** The third argument of [UpdateDepositByID]: the time of the failure or
    the hash of the transaction sent. *)
Inductive UpdateNote := FailedAt | SentAs (hash : Uint256).

(** The calls into the layer2 SDK: building the transfer of one of the two
    tokens, [SetPayer] and [SignToTransaction] on the transaction built
    ([nil] when the token is neither), and the [k]-th call of
    [SendTransaction]. *)
Inductive SignOutcome := Signed | SignError (e : error) | SignPanic.

Record Layer2Sdk := mkLayer2Sdk {
  NewTransferTransaction : Token -> Z -> result Z;
  SignToTransaction : option Z -> SignOutcome;
  SendTransaction : nat -> result Uint256
}.

(** What a call of [commitDeposit2Layer2] did: the error it returned, the
    state it left in the deposit, its database update, and how many times it
    called [SendTransaction]. *)
Record CommitOut := mkCommitOut {
  c_err : option error;
  c_state : DepositState;
  c_update : option (Z * DepositState * UpdateNote);
  c_sends : nat
}.

(** The loop [for true] around [SendTransaction], entered at its [calls]-th
    call with the given [counter]: the counter, the hash and the number of
    calls when it is left. *)
Fixpoint sendLoop (fuel : nat) (sdk : Layer2Sdk) (calls : nat) (counter : Z)
  : option (Z * Uint256 * nat) :=
  match fuel with
  | O => None
  | S fuel =>
      match SendTransaction sdk calls with
      | Fail _ =>
          if counter =? 100 then Some (counter, UINT256_EMPTY, S calls)
          else sendLoop fuel sdk (S calls) (counter + 1)
      | Ok hash => Some (counter, hash, S calls)
      end
  end.

Definition commitDeposit2Layer2 (fuel : nat) (sdk : Layer2Sdk) (deposit : Deposit)
  : Run CommitOut :=
  let built :=
    match DTokenAddress deposit with
    | OtherToken => Ok None
    | token =>
        match NewTransferTransaction sdk token (DAmount deposit) with
        | Ok tx => Ok (Some tx)
        | Fail err => Fail err
        end
    end in
  match built with
  | Fail err => Returned (mkCommitOut (Some err) (DState deposit) None 0)
  | Ok tx =>
      match SignToTransaction sdk tx with
      | SignPanic => Panicked
      | SignError err => Returned (mkCommitOut (Some err) (DState deposit) None 0)
      | Signed =>
          match sendLoop fuel sdk 0 0 with
          | None => OutOfFuel
          | Some (counter, hash, calls) =>
              if counter =? 100
              then Returned (mkCommitOut None DEPOSIT_FAILED
                               (Some (DID deposit, DEPOSIT_FAILED, FailedAt)) calls)
              else Returned (mkCommitOut None DEPOSIT_COMMIT
                               (Some (DID deposit, DEPOSIT_COMMIT, SentAs hash)) calls)
          end
      end
  end.

(** ** [MonitorOntologyChain] *)

(** The loop [for currentHeight > this.ontologyChainInfo.Height] of one
    tick: [parse h] is the error of [parseOntologyChainBlock] at height [h];
    the result is the height the chain info is left at and the heights
    handed to [SetChainParseHeight], in order. *)
Fixpoint catchUp (fuel : nat) (parse : Z -> option error) (currentHeight : Z)
    (height : Z) (saved : list Z) : option (Z * list Z) :=
  match fuel with
  | O => None
  | S fuel =>
      if currentHeight >? height then
        let height := u32 (height + 1) in
        match parse height with
        | Some _ => Some (u32 (height - 1), saved)
        | None => catchUp fuel parse currentHeight height (saved ++ [height])
        end
      else Some (height, saved)
  end.

(** One tick of [MonitorOntologyChain]: [current] is what
    [GetCurrentBlockHeight] returns. *)
Definition monitorTick (fuel : nat) (current : result Z) (parse : Z -> option error)
    (height : Z) : option (Z * list Z) :=
  match current with
  | Fail _ => Some (height, [])
  | Ok currentHeight =>
      if currentHeight <=? height then Some (height, [])
      else catchUp fuel parse currentHeight height []
  end.

(** ** [checkLayer2State] *)









End Operator.

(** * Verification *)

(** ** Reasoning about the monad *)

Section Frame.

Context {X : Type} (p : LedgerStoreImp -> X).

Lemma frame_ret {A} (a : A) : frame p (ret a).
Proof. intros w. reflexivity. Qed.

Lemma frame_fail {A} (e : error) : frame p (@fail A e).
Proof. intros w. reflexivity. Qed.

Lemma frame_gets {A} (f : LedgerStoreImp -> A) : frame p (gets f).
Proof. intros w. reflexivity. Qed.

Lemma frame_check (e : option error) : frame p (check e).
Proof. intros w. destruct e; reflexivity. Qed.

Lemma frame_modify (f : LedgerStoreImp -> LedgerStoreImp) :
  (forall w, p (f w) = p w) -> frame p (modify f).
Proof. intros Hf w. apply Hf. Qed.

Lemma frame_io (E : Env) (op : IOp) (f : LedgerStoreImp -> LedgerStoreImp) :
  (forall w, p (f w) = p w) -> frame p (io E op f).
Proof.
  intros Hf w. unfold io. destruct (io_fails E op); simpl; [reflexivity | apply Hf].
Qed.

Lemma frame_bind {A B} (c : M A) (k : A -> M B) :
  frame p c -> (forall a, frame p (k a)) -> frame p (bind c k).
Proof.
  intros Hc Hk w. unfold bind. specialize (Hc w).
  destruct (c w) as [[a | e] w1]; simpl in *.
  - rewrite Hk. exact Hc.
  - exact Hc.
Qed.

Lemma frame_wrap {A} (msg : string) (c : M A) : frame p c -> frame p (wrap msg c).
Proof.
  intros Hc w. unfold wrap. specialize (Hc w).
  destruct (c w) as [[a | e] w1]; exact Hc.
Qed.

(** One step of a method: a framed call either fails, or the rest runs from
    a state with the same projection. *)
Lemma step_frame {A B} (c : M A) (k : A -> M B)
    (Q : X -> result B -> LedgerStoreImp -> Prop) :
  frame p c ->
  (forall e w, Q (p w) (Fail e) w) ->
  (forall a w, Q (p w) (fst (k a w)) (snd (k a w))) ->
  forall w, Q (p w) (fst (bind c k w)) (snd (bind c k w)).
Proof.
  intros Hc Hfail Hk w. unfold bind. specialize (Hc w).
  destruct (c w) as [[a | e] w1]; simpl in *; rewrite <- Hc.
  - apply Hk.
  - apply Hfail.
Qed.

End Frame.

(** A read-only call returns the ledger it was given. *)
Lemma frame_id_unchanged {A} (c : M A) (w : LedgerStoreImp) :
  frame (fun w => w) c -> snd (c w) = w.
Proof. intros H. apply H. Qed.

Ltac frame_step :=
  lazymatch goal with
  | |- frame _ (ret _) => apply frame_ret
  | |- frame _ (fail _) => apply frame_fail
  | |- frame _ (gets _) => apply frame_gets
  | |- frame _ (check _) => apply frame_check
  | |- frame _ (bind _ _) => apply frame_bind; [ | intros ? ]
  | |- frame _ (wrap _ _) => apply frame_wrap
  | |- frame _ (modify _) => apply frame_modify; intros ?
  | |- frame _ (io _ _ _) => apply frame_io; intros ?
  | |- frame _ (if ?b then _ else _) => destruct b
  | |- frame _ (match ?x with _ => _ end) => destruct x
  end.

Lemma milestones_log (ev : Event) (w : LedgerStoreImp) :
  milestones (log_event ev w) =
  milestones w ++ (if is_milestone ev then [ev] else []).
Proof.
  unfold milestones, log_event; simpl. rewrite List.filter_app. simpl.
  destruct (is_milestone ev); reflexivity.
Qed.

Lemma milestones_log_other (ev : Event) (w : LedgerStoreImp) :
  is_milestone ev = false -> milestones (log_event ev w) = milestones w.
Proof. intros H. rewrite milestones_log, H. apply app_nil_r. Qed.

Lemma milestones_with_blockStore f w : milestones (with_blockStore f w) = milestones w.
Proof. reflexivity. Qed.

Lemma milestones_with_stateStore f w : milestones (with_stateStore f w) = milestones w.
Proof. reflexivity. Qed.

Lemma milestones_with_eventStore f w : milestones (with_eventStore f w) = milestones w.
Proof. reflexivity. Qed.

Lemma milestones_with_currentBlock h x w :
  milestones (with_currentBlock h x w) = milestones w.
Proof. reflexivity. Qed.

Lemma commitsOf_app (l1 l2 : list Event) :
  commitsOf (l1 ++ l2) = commitsOf l1 ++ commitsOf l2.
Proof. apply omap_app. Qed.

Lemma commitsOf_milestones (w : LedgerStoreImp) :
  commitsOf (milestones w) = commitsOf (trace w).
Proof.
  unfold milestones, commitsOf. induction (trace w) as [| ev l IH]; [reflexivity |].
  destruct ev; simpl; first [exact IH | f_equal; exact IH].
Qed.

(** ** The submit protocol *)

Lemma view_with_blockStore f w : submitView (with_blockStore f w) = submitView w.
Proof. reflexivity. Qed.

Lemma view_with_stateStore f w : submitView (with_stateStore f w) = submitView w.
Proof. reflexivity. Qed.

Lemma view_with_eventStore f w : submitView (with_eventStore f w) = submitView w.
Proof. reflexivity. Qed.

Lemma view_with_layer2Store f w : submitView (with_layer2Store f w) = submitView w.
Proof. reflexivity. Qed.

Lemma view_with_storedIndexCount n w :
  submitView (with_storedIndexCount n w) = submitView w.
Proof. reflexivity. Qed.

Lemma view_with_headerIndex f w : submitView (with_headerIndex f w) = submitView w.
Proof. reflexivity. Qed.

Ltac view_side :=
  first
    [ apply view_with_blockStore | apply view_with_stateStore
    | apply view_with_eventStore | apply view_with_layer2Store
    | apply view_with_storedIndexCount | apply view_with_headerIndex
    | idtac ];
  try reflexivity;
  unfold submitView, pointer, milestones, log_event, with_blockStore, with_stateStore,
    with_eventStore, with_layer2Store, with_storedIndexCount, with_currentBlock,
    with_headerIndex;
  simpl; rewrite ?List.filter_app; simpl; rewrite ?app_nil_r; try reflexivity.

Ltac solve_frame := repeat (frame_step; view_side).

Section SubmitProtocol.

Context (E : Env).

Lemma frame_view_NewBatch (s : StoreId) : frame submitView (NewBatch s).
Proof. unfold NewBatch. destruct s; solve_frame. Qed.

Lemma frame_view_GetBlockRoot (h : Z) (l : list Uint256) :
  frame submitView (GetBlockRootWithNewTxRoots E h l).
Proof. unfold GetBlockRootWithNewTxRoots. solve_frame. Qed.

Lemma frame_view_saveHeaderIndexList : frame submitView saveHeaderIndexList.
Proof.
  unfold saveHeaderIndexList.
  apply frame_bind; [apply frame_gets | intros storeCount].
  apply frame_bind; [apply frame_gets | intros currHeight].
  destruct (u32 (currHeight - storeCount) <? HEADER_INDEX_BATCH_SIZE);
    [apply frame_ret |].
  apply frame_bind; [apply frame_gets | intros index].
  cbv zeta. generalize (map (fun i => default UINT256_EMPTY (index !! u32 (storeCount + i)))
                          (seqZ 0 HEADER_INDEX_BATCH_SIZE)).
  intros headerList.
  apply frame_bind; [| intros _]; apply frame_modify; intros w.
  - apply view_with_blockStore.
  - apply view_with_storedIndexCount.
Qed.

Lemma frame_view_saveBlockToBlockStore (b : Block) :
  frame submitView (saveBlockToBlockStore E b).
Proof.
  unfold saveBlockToBlockStore, setHeaderIndex.
  repeat (first [apply frame_view_saveHeaderIndexList | frame_step]; view_side).
Qed.

Lemma frame_view_saveBlockToStateStore (b : Block) (res : ExecuteResult) :
  frame submitView (saveBlockToStateStore E b res).
Proof. unfold saveBlockToStateStore. solve_frame. Qed.

Lemma frame_view_saveBlockToEventStore (b : Block) :
  frame submitView (saveBlockToEventStore E b).
Proof. unfold saveBlockToEventStore. solve_frame. Qed.

Lemma submit_outcome_fail (b : Block) (e : error) (w : LedgerStoreImp) :
  submit_outcome E b (submitView w) (Fail e) w.
Proof. left. repeat apply conj; reflexivity. Qed.

Lemma submitBlock_protocol (b : Block) (l2 : option Layer2State)
    (res : ExecuteResult) (w : LedgerStoreImp) :
  submit_outcome E b (submitView w)
    (fst (submitBlock E b l2 res w)) (snd (submitBlock E b l2 res w)).
Proof.
  revert w. unfold submitBlock.
  apply (step_frame submitView); [apply frame_view_GetBlockRoot | apply submit_outcome_fail |].
  intros blockRoot.
  destruct (negb (Height (BHeader b) =? 0) && negb (blockRoot =? BlockRoot (BHeader b))).
  { intros w. apply submit_outcome_fail. }
  do 3 (apply (step_frame submitView);
        [apply frame_view_NewBatch | apply submit_outcome_fail | intros _]).
  apply (step_frame submitView);
    [apply frame_wrap, frame_view_saveBlockToBlockStore | apply submit_outcome_fail | intros _].
  apply (step_frame submitView);
    [solve_frame | apply submit_outcome_fail | intros _].
  apply (step_frame submitView);
    [apply frame_wrap, frame_view_saveBlockToStateStore | apply submit_outcome_fail | intros _].
  apply (step_frame submitView);
    [apply frame_view_saveBlockToEventStore | apply submit_outcome_fail | intros _].
  intros w. unfold submit_outcome.
  cbv beta iota zeta delta [bind wrap CommitTo io modify setCurrentBlock ret fst snd].
  destruct (io_fails E (OpCommitTo BlockStoreId (Height (BHeader b)))).
  { right; left. repeat apply conj; try reflexivity. apply milestones_log. }
  destruct (io_fails E (OpCommitTo EventStoreId (Height (BHeader b)))).
  { right; right; left. repeat apply conj; try reflexivity.
    rewrite milestones_log, milestones_with_blockStore, milestones_log.
    rewrite <- app_assoc. reflexivity. }
  destruct (io_fails E (OpCommitTo StateStoreId (Height (BHeader b)))).
  { right; right; right; left. repeat apply conj; try reflexivity.
    rewrite milestones_log, milestones_with_eventStore, milestones_log,
      milestones_with_blockStore, milestones_log.
    rewrite <- !app_assoc. reflexivity. }
  right; right; right; right.
  assert (Hm : forall w1, milestones w1 =
            milestones (with_currentBlock (Height (BHeader b)) (BlockHash E b)
              (with_stateStore ss_commit (log_event (EvCommitTo StateStoreId)
                (with_eventStore es_commit (log_event (EvCommitTo EventStoreId)
                  (with_blockStore bs_commit (log_event (EvCommitTo BlockStoreId) w))))))) ->
            milestones w1 = milestones w ++
              [EvCommitTo BlockStoreId; EvCommitTo EventStoreId; EvCommitTo StateStoreId]).
  { intros w1 ->.
    rewrite milestones_with_currentBlock, milestones_with_stateStore, milestones_log, milestones_with_eventStore,
      milestones_log, milestones_with_blockStore, milestones_log.
    rewrite <- !app_assoc. reflexivity. }
  destruct (DefActorPublisher E); repeat apply conj; try reflexivity.
  - apply Hm. apply milestones_log_other. reflexivity.
  - apply Hm. reflexivity.
Qed.

End SubmitProtocol.

(** ** C1: commit order and the in-memory pointer *)

Ltac not_in_list H :=
  rewrite ?elem_of_cons, elem_of_nil in H;
  repeat (destruct H as [H | H]; [discriminate H |]); exact H.

(** C1.  Every call of [submitBlock] invokes the commits of the sub-stores
    in the fixed order Block Store, Event Store, State Store: the commits it
    invokes are a prefix of that sequence, and a later store's commit is
    invoked only if the earlier store's commit succeeded.  The in-memory
    current (height, hash) pointer is advanced only after all three commits
    succeeded, and a call that fails leaves the pointer exactly as it was. *)
Theorem submitBlock_commit_order (E : Env) (b : Block) (l2 : option Layer2State)
    (res : ExecuteResult) (w : LedgerStoreImp) :
  let r := fst (submitBlock E b l2 res w) in
  let w' := snd (submitBlock E b l2 res w) in
  let h := Height (BHeader b) in
  let allCommitted :=
    io_fails E (OpCommitTo BlockStoreId h) = false /\
    io_fails E (OpCommitTo EventStoreId h) = false /\
    io_fails E (OpCommitTo StateStoreId h) = false in
  exists cs : list StoreId,
    commitsOf (trace w') = commitsOf (trace w) ++ cs /\
    cs `prefix_of` [BlockStoreId; EventStoreId; StateStoreId] /\
    (EventStoreId ∈ cs -> io_fails E (OpCommitTo BlockStoreId h) = false) /\
    (StateStoreId ∈ cs ->
       io_fails E (OpCommitTo BlockStoreId h) = false /\
       io_fails E (OpCommitTo EventStoreId h) = false) /\
    (r = Ok tt ->
       cs = [BlockStoreId; EventStoreId; StateStoreId] /\ allCommitted /\
       pointer w' = (h, BlockHash E b)) /\
    (is_ok r = false -> pointer w' = pointer w) /\
    (pointer w' <> pointer w ->
       r = Ok tt /\ cs = [BlockStoreId; EventStoreId; StateStoreId] /\ allCommitted).
Proof.
  intros r w' h allCommitted. subst r w' h allCommitted.
  pose proof (submitBlock_protocol E b l2 res w) as H.
  destruct (submitBlock E b l2 res w) as [r w']. simpl in *.
  rewrite <- (commitsOf_milestones w), <- (commitsOf_milestones w').
  unfold submit_outcome in H; simpl in H.
  assert (Hprefix : forall cs rest,
            cs ++ rest = [BlockStoreId; EventStoreId; StateStoreId] ->
            cs `prefix_of` [BlockStoreId; EventStoreId; StateStoreId]).
  { intros cs rest <-. exists rest. reflexivity. }
  destruct H as [H | [H | [H | [H | H]]]].
  - destruct H as (Hr & Hp & Hm). exists []. rewrite Hm, app_nil_r.
    split; [reflexivity |]. split; [apply (Hprefix [] _ eq_refl) |].
    split; [intros Hin; exfalso; not_in_list Hin |].
    split; [intros Hin; exfalso; not_in_list Hin |].
    split; [intros ->; discriminate |].
    split; [intros _; exact Hp |].
    intros Hne. exfalso. apply Hne, Hp.
  - destruct H as (Hr & Hp & Hm & HB). exists [BlockStoreId].
    rewrite Hm, commitsOf_app.
    split; [reflexivity |]. split; [apply (Hprefix [_] _ eq_refl) |].
    split; [intros Hin; exfalso; not_in_list Hin |].
    split; [intros Hin; exfalso; not_in_list Hin |].
    split; [intros ->; discriminate |].
    split; [intros _; exact Hp |].
    intros Hne. exfalso. apply Hne, Hp.
  - destruct H as (Hr & Hp & Hm & HB & HE). exists [BlockStoreId; EventStoreId].
    rewrite Hm, commitsOf_app.
    split; [reflexivity |]. split; [apply (Hprefix [_; _] _ eq_refl) |].
    split; [intros _; exact HB |].
    split; [intros Hin; exfalso; not_in_list Hin |].
    split; [intros ->; discriminate |].
    split; [intros _; exact Hp |].
    intros Hne. exfalso. apply Hne, Hp.
  - destruct H as (Hr & Hp & Hm & HB & HE & HS).
    exists [BlockStoreId; EventStoreId; StateStoreId].
    rewrite Hm, commitsOf_app.
    split; [reflexivity |]. split; [apply (Hprefix [_; _; _] [] eq_refl) |].
    split; [intros _; exact HB |].
    split; [intros _; exact (conj HB HE) |].
    split; [intros ->; discriminate |].
    split; [intros _; exact Hp |].
    intros Hne. exfalso. apply Hne, Hp.
  - destruct H as (Hr & Hp & Hm & HB & HE & HS).
    exists [BlockStoreId; EventStoreId; StateStoreId].
    rewrite Hm, commitsOf_app. subst r.
    split; [reflexivity |]. split; [apply (Hprefix [_; _; _] [] eq_refl) |].
    split; [intros _; exact HB |].
    split; [intros _; exact (conj HB HE) |].
    split; [intros _; exact (conj eq_refl (conj (conj HB (conj HE HS)) Hp)) |].
    split; [intros Hok; discriminate Hok |].
    intros _. exact (conj eq_refl (conj eq_refl (conj HB (conj HE HS)))).
Qed.

(** On the toy chain, submitting block 1 after genesis advances the pointer
    to (1, hash of block 1). *)
Lemma submitBlock_commit_order_witness :
  pointer (snd (submitBlock Toy.E0 (Toy.block 1) None emptyResult (Toy.chain 0)))
  = (1, 1001).
Proof.
  destruct (submitBlock_commit_order Toy.E0 (Toy.block 1) None emptyResult (Toy.chain 0))
    as (cs & _ & _ & _ & _ & Hok & _).
  apply Hok. vm_compute. reflexivity.
Defined.

(** ** Height guards of the entry points *)

Section Guards.

Context (E : Env).

Lemma verifyHeader_readonly (hdr : Header) (w : LedgerStoreImp) :
  snd (verifyHeader E hdr w) = w.
Proof.
  apply (frame_id_unchanged (verifyHeader E hdr)).
  unfold verifyHeader. repeat (frame_step; try reflexivity).
Qed.

Lemma verifyLayer2State_readonly (l2 : Layer2State) (bks : list PublicKey)
    (w : LedgerStoreImp) :
  snd (verifyLayer2State E l2 bks w) = w.
Proof.
  apply (frame_id_unchanged (verifyLayer2State E l2 bks)).
  unfold verifyLayer2State. repeat (frame_step; try reflexivity).
Qed.

(** For [uint32] heights, a height above the current one and different from
    current + 1 is different from the wrapped successor too. *)
Lemma next_height_u32 (curr h : Z) :
  is_u32 curr -> is_u32 h -> curr < h -> u32 (curr + 1) = curr + 1.
Proof.
  unfold is_u32, u32. intros Hc Hh Hlt. apply Z.mod_small. lia.
Qed.

Lemma SubmitBlock_replay (b : Block) (l2 : option Layer2State) (res : ExecuteResult)
    (w : LedgerStoreImp) :
  Height (BHeader b) <= currBlockHeight w ->
  SubmitBlock E b l2 res w =
  (if closing w then Fail (Errorf "save block error: ledger is closing") else Ok tt, w).
Proof.
  intros Hle.
  cbv beta iota zeta delta [SubmitBlock bind gets GetCurrentBlockHeight ret fail].
  destruct (closing w); [reflexivity |].
  destruct (Z.leb_spec (Height (BHeader b)) (currBlockHeight w)); [reflexivity | lia].
Qed.

Lemma SubmitBlock_out_of_order (b : Block) (l2 : option Layer2State)
    (res : ExecuteResult) (w : LedgerStoreImp) :
  is_u32 (currBlockHeight w) -> is_u32 (Height (BHeader b)) ->
  Height (BHeader b) > currBlockHeight w + 1 ->
  is_ok (fst (SubmitBlock E b l2 res w)) = false /\ snd (SubmitBlock E b l2 res w) = w.
Proof.
  intros Hc Hh Hgt.
  cbv beta iota zeta delta [SubmitBlock bind gets GetCurrentBlockHeight ret fail].
  destruct (closing w); [split; reflexivity |].
  destruct (Z.leb_spec (Height (BHeader b)) (currBlockHeight w)); [lia |].
  rewrite (next_height_u32 _ (Height (BHeader b))) by (assumption || lia).
  destruct (Z.eqb_spec (Height (BHeader b)) (currBlockHeight w + 1)); [lia |].
  split; reflexivity.
Qed.

Lemma ExecuteBlock_replay (b : Block) (w : LedgerStoreImp) :
  Height (BHeader b) <= currBlockHeight w ->
  ExecuteBlock E b w =
  (match GetStateMerkleRootOf E (stateStore w) (Height (BHeader b)) with
   | Ok root => Ok (mkExecuteResult [] UINT256_EMPTY root [] UINT256_EMPTY [])
   | Fail e => Fail e
   end, w).
Proof.
  intros Hle.
  cbv beta iota zeta delta [ExecuteBlock bind gets GetCurrentBlockHeight ret fail
                             GetStateMerkleRoot].
  destruct (Z.leb_spec (Height (BHeader b)) (currBlockHeight w)); [| lia].
  destruct (GetStateMerkleRootOf E (stateStore w) (Height (BHeader b))); reflexivity.
Qed.

Lemma ExecuteBlock_out_of_order (b : Block) (w : LedgerStoreImp) :
  is_u32 (currBlockHeight w) -> is_u32 (Height (BHeader b)) ->
  Height (BHeader b) > currBlockHeight w + 1 ->
  is_ok (fst (ExecuteBlock E b w)) = false /\ snd (ExecuteBlock E b w) = w.
Proof.
  intros Hc Hh Hgt.
  cbv beta iota zeta delta [ExecuteBlock bind gets GetCurrentBlockHeight ret fail].
  destruct (Z.leb_spec (Height (BHeader b)) (currBlockHeight w)); [lia |].
  rewrite (next_height_u32 _ (Height (BHeader b))) by (assumption || lia).
  destruct (Z.eqb_spec (Height (BHeader b)) (currBlockHeight w + 1)); [lia |].
  split; reflexivity.
Qed.

End Guards.

Ltac u32_concrete := vm_compute; split; [discriminate | reflexivity].

(** ** C3: blocks that are not the next block *)

(** C3 (as stated, refuted).  On the toy chain at height 2, [SubmitBlock] of
    block 1, whose height is not current + 1, returns [nil]: it does not
    fail. *)
Lemma SubmitBlock_replay_returns_nil :
  Height (BHeader (Toy.block 1)) <> currBlockHeight (Toy.chain 2) + 1 /\
  fst (SubmitBlock Toy.E0 (Toy.block 1) None emptyResult (Toy.chain 2)) = Ok tt.
Proof. split; [vm_compute; discriminate | vm_compute; reflexivity]. Qed.

(** C3 (amended).  For every block whose header height is not
    currentHeight + 1, [SubmitBlock] leaves the ledger, and with it the
    current-block marker of every sub-store, unchanged.  It returns a non-nil
    error when the height is above currentHeight + 1; when the height is at
    most currentHeight it returns [nil] (or the closing error when the ledger
    is closing). *)
Theorem SubmitBlock_wrong_height_no_mutation (E : Env) (b : Block)
    (l2 : option Layer2State) (res : ExecuteResult) (w : LedgerStoreImp) :
  is_u32 (currBlockHeight w) -> is_u32 (Height (BHeader b)) ->
  Height (BHeader b) <> currBlockHeight w + 1 ->
  let r := fst (SubmitBlock E b l2 res w) in
  let w' := snd (SubmitBlock E b l2 res w) in
  w' = w /\
  bs_current (blockStore w') = bs_current (blockStore w) /\
  ss_current (stateStore w') = ss_current (stateStore w) /\
  es_current (eventStore w') = es_current (eventStore w) /\
  (Height (BHeader b) > currBlockHeight w + 1 -> is_ok r = false) /\
  (Height (BHeader b) <= currBlockHeight w ->
   r = if closing w then Fail (Errorf "save block error: ledger is closing") else Ok tt).
Proof.
  intros Hc Hh Hne r w'. subst r w'.
  destruct (Z_le_gt_dec (Height (BHeader b)) (currBlockHeight w)) as [Hle | Hgt].
  - rewrite (SubmitBlock_replay E b l2 res w Hle). simpl.
    repeat apply conj; try reflexivity. intros; lia.
  - assert (Hgt' : Height (BHeader b) > currBlockHeight w + 1) by lia.
    destruct (SubmitBlock_out_of_order E b l2 res w Hc Hh Hgt') as [Hr Hw].
    rewrite Hw. repeat apply conj; try reflexivity.
    + intros _. exact Hr.
    + intros. lia.
Qed.

(** On the toy chain at height 2, submitting block 5 fails and changes
    nothing. *)
Lemma SubmitBlock_wrong_height_no_mutation_witness :
  snd (SubmitBlock Toy.E0 (Toy.block 5) None emptyResult (Toy.chain 2)) = Toy.chain 2 /\
  is_ok (fst (SubmitBlock Toy.E0 (Toy.block 5) None emptyResult (Toy.chain 2))) = false.
Proof.
  assert (Hc : is_u32 (currBlockHeight (Toy.chain 2))) by u32_concrete.
  assert (Hh : is_u32 (Height (BHeader (Toy.block 5)))) by u32_concrete.
  assert (Hne : Height (BHeader (Toy.block 5)) <> currBlockHeight (Toy.chain 2) + 1)
    by (vm_compute; discriminate).
  destruct (SubmitBlock_wrong_height_no_mutation Toy.E0 (Toy.block 5) None emptyResult
              (Toy.chain 2) Hc Hh Hne) as (Hw & _ & _ & _ & Herr & _).
  split; [exact Hw | apply Herr; vm_compute; reflexivity].
Defined.

(** ** C4: idempotent replay *)

(** C4.  For a block at a height h <= currentHeight, [ExecuteBlock] executes
    nothing and mutates nothing (the ledger, its stores and the trace of
    collaborator calls are as before) and returns what the state store
    holds as state merkle root of height h; [SubmitBlock] of such a block
    mutates nothing either and returns [nil].  [ExecuteBlock] of a block at a
    height above currentHeight + 1 returns an error and touches nothing. *)
Theorem replay_is_idempotent (E : Env) (b : Block) (l2 : option Layer2State)
    (res : ExecuteResult) (w : LedgerStoreImp) :
  (Height (BHeader b) <= currBlockHeight w ->
     snd (ExecuteBlock E b w) = w /\
     fst (ExecuteBlock E b w) =
       match GetStateMerkleRootOf E (stateStore w) (Height (BHeader b)) with
       | Ok root => Ok (mkExecuteResult [] UINT256_EMPTY root [] UINT256_EMPTY [])
       | Fail e => Fail e
       end /\
     snd (SubmitBlock E b l2 res w) = w /\
     (closing w = false -> fst (SubmitBlock E b l2 res w) = Ok tt)) /\
  (is_u32 (currBlockHeight w) -> is_u32 (Height (BHeader b)) ->
   Height (BHeader b) > currBlockHeight w + 1 ->
     is_ok (fst (ExecuteBlock E b w)) = false /\ snd (ExecuteBlock E b w) = w).
Proof.
  split.
  - intros Hle.
    rewrite (ExecuteBlock_replay E b w Hle), (SubmitBlock_replay E b l2 res w Hle).
    simpl. repeat apply conj; try reflexivity. intros ->. reflexivity.
  - apply ExecuteBlock_out_of_order.
Qed.

(** On the toy chain at height 2: replaying block 1 returns the root
    persisted for height 1 and changes nothing; executing block 5 fails. *)
Lemma replay_is_idempotent_witness :
  (snd (ExecuteBlock Toy.E0 (Toy.block 1) (Toy.chain 2)) = Toy.chain 2 /\
   fst (ExecuteBlock Toy.E0 (Toy.block 1) (Toy.chain 2)) =
     match GetStateMerkleRootOf Toy.E0 (stateStore (Toy.chain 2))
             (Height (BHeader (Toy.block 1))) with
     | Ok root => Ok (mkExecuteResult [] UINT256_EMPTY root [] UINT256_EMPTY [])
     | Fail e => Fail e
     end /\
   snd (SubmitBlock Toy.E0 (Toy.block 1) None emptyResult (Toy.chain 2)) = Toy.chain 2 /\
   fst (SubmitBlock Toy.E0 (Toy.block 1) None emptyResult (Toy.chain 2)) = Ok tt) /\
  is_ok (fst (ExecuteBlock Toy.E0 (Toy.block 5) (Toy.chain 2))) = false.
Proof.
  split.
  - destruct (replay_is_idempotent Toy.E0 (Toy.block 1) None emptyResult (Toy.chain 2))
      as [Hreplay _].
    destruct Hreplay as (H1 & H2 & H3 & H4); [vm_compute; discriminate |].
    split; [exact H1 |]. split; [exact H2 |]. split; [exact H3 |].
    apply H4. vm_compute. reflexivity.
  - destruct (replay_is_idempotent Toy.E0 (Toy.block 5) None emptyResult (Toy.chain 2))
      as [_ Hfar].
    apply Hfar; [u32_concrete | u32_concrete | vm_compute; reflexivity].
Defined.

(** ** C6: validation of the layer2 state *)

Lemma quorum_floor (n : Z) : 1 <= n -> quorum n = n - (n - 1) / 3.
Proof.
  intros Hn. unfold quorum. rewrite Z.quot_div_nonneg by lia. reflexivity.
Qed.

(** C6 (as stated, refuted).  On the toy chain at height 2, [SubmitBlock] of
    the already committed block 1 with a layer2 state of height 9 and
    version 7 returns [nil]: the layer2 state is not validated and no error
    is returned. *)
Lemma SubmitBlock_replay_skips_layer2_validation :
  L2Height (mkLayer2State 7 9 0 []) <> currBlockHeight (Toy.chain 2) + 1 /\
  L2Version (mkLayer2State 7 9 0 []) <> CURR_LAYER2_STATE_VERSION Toy.E0 /\
  fst (SubmitBlock Toy.E0 (Toy.block 1) (Some (mkLayer2State 7 9 0 [])) emptyResult
         (Toy.chain 2)) = Ok tt.
Proof.
  split; [vm_compute; discriminate |].
  split; [vm_compute; discriminate | vm_compute; reflexivity].
Qed.

(** C6 (amended).  When [SubmitBlock] is called with a non-nil layer2 state
    and a block above the current height, then, if the layer2 state's height
    is not currentHeight + 1, or its version is not the current layer2-state
    version, or its multisignature over the layer2-state hash does not verify
    against the block header's n bookkeepers with threshold
    m = n - (n-1)/3 (Go division; n - floor((n-1)/3) for n >= 1),
    [SubmitBlock] returns an error and leaves the whole ledger, and so every
    sub-store, untouched. *)
Theorem SubmitBlock_layer2_validation (E : Env) (b : Block) (l2 : Layer2State)
    (res : ExecuteResult) (w : LedgerStoreImp) :
  is_u32 (currBlockHeight w) -> is_u32 (Height (BHeader b)) ->
  Height (BHeader b) > currBlockHeight w ->
  let n := len (Bookkeepers (BHeader b)) in
  (L2Height l2 <> currBlockHeight w + 1 \/
   L2Version l2 <> CURR_LAYER2_STATE_VERSION E \/
   VerifyMultiSignature E (Layer2StateHash E l2) (Bookkeepers (BHeader b))
     (quorum n) (L2SigData l2) <> None) ->
  (is_ok (fst (SubmitBlock E b (Some l2) res w)) = false /\
   snd (SubmitBlock E b (Some l2) res w) = w) /\
  (1 <= n -> quorum n = n - (n - 1) / 3).
Proof.
  intros Hc Hh Hgt n Hbad. split; [| apply quorum_floor].
  destruct (Z.eq_dec (Height (BHeader b)) (currBlockHeight w + 1)) as [Heq | Hne].
  2: { apply SubmitBlock_out_of_order; try assumption. lia. }
  cbv beta iota zeta delta [SubmitBlock bind gets GetCurrentBlockHeight ret fail wrap].
  destruct (closing w); [split; reflexivity |].
  destruct (Z.leb_spec (Height (BHeader b)) (currBlockHeight w)); [lia |].
  rewrite (next_height_u32 _ (Height (BHeader b))) by (assumption || lia).
  destruct (Z.eqb_spec (Height (BHeader b)) (currBlockHeight w + 1)); [| lia].
  cbv beta iota delta [negb].
  pose proof (verifyHeader_readonly E (BHeader b) w) as Hro.
  destruct (verifyHeader E (BHeader b) w) as [[[] | e1] w1]; simpl in Hro; subst w1;
    [| split; reflexivity].
  destruct (Z.eqb_spec (L2Height l2) (currBlockHeight w + 1)) as [Hh2 | Hh2];
    cbv beta iota delta [negb]; [| split; reflexivity].
  destruct (Z.eqb_spec (L2Version l2) (CURR_LAYER2_STATE_VERSION E)) as [Hv | Hv];
    cbv beta iota delta [negb]; [| split; reflexivity].
  unfold verifyLayer2State, check.
  destruct (VerifyMultiSignature E (Layer2StateHash E l2) (Bookkeepers (BHeader b))
              (quorum (len (Bookkeepers (BHeader b)))) (L2SigData l2)) as [e2 |] eqn:Hsig.
  - split; reflexivity.
  - exfalso. destruct Hbad as [Hb | [Hb | Hb]]; [exact (Hb Hh2) | exact (Hb Hv) |].
    apply Hb. exact Hsig.
Qed.

(** On the toy chain at height 2, block 3 with a layer2 state of height 9 is
    rejected and nothing changes. *)
Lemma SubmitBlock_layer2_validation_witness :
  is_ok (fst (SubmitBlock Toy.E0 (Toy.block 3) (Some (mkLayer2State 1 9 0 []))
                emptyResult (Toy.chain 2))) = false /\
  snd (SubmitBlock Toy.E0 (Toy.block 3) (Some (mkLayer2State 1 9 0 []))
         emptyResult (Toy.chain 2)) = Toy.chain 2.
Proof.
  apply (SubmitBlock_layer2_validation Toy.E0 (Toy.block 3) (mkLayer2State 1 9 0 [])
           emptyResult (Toy.chain 2)).
  - u32_concrete.
  - u32_concrete.
  - vm_compute. reflexivity.
  - left. vm_compute. discriminate.
Defined.

(** ** C5: header verification *)

Section VerifyHeader.

Context (E : Env).

Lemma GetHeaderByHash_typed (hash : Uint256) (w : LedgerStoreImp) (parent : Header) :
  wf_blocks w -> fst (GetHeaderByHash E hash w) = Some parent ->
  is_u32 (Height parent).
Proof.
  unfold GetHeaderByHash, blockStore_GetHeader. intros Hwf.
  destruct (io_fails E (OpGetHeader hash)); [discriminate |].
  destruct (bs_blocks (blockStore w) !! hash) as [blk |] eqn:Hblk; [| discriminate].
  simpl. intros [= <-]. exact (Hwf hash blk Hblk).
Qed.

Lemma successor_u32 (h p : Z) :
  is_u32 h -> is_u32 p -> h <> 0 -> (u32 (p + 1) = h <-> h = p + 1).
Proof.
  unfold is_u32, u32. intros Hh Hp Hnz. split.
  - intros Heq. destruct (Z.eq_dec (p + 1) (2 ^ 32)) as [Hmax | Hmax].
    + rewrite Hmax, Z.mod_same in Heq by lia. lia.
    + rewrite Z.mod_small in Heq by lia. lia.
  - intros ->. apply Z.mod_small. lia.
Qed.

Lemma verifyHeader_genesis (hdr : Header) (w : LedgerStoreImp) :
  Height hdr = 0 -> verifyHeader E hdr w = (Ok tt, w).
Proof. intros H0. unfold verifyHeader. rewrite H0. reflexivity. Qed.

Lemma verifyHeader_non_genesis (hdr : Header) (w : LedgerStoreImp) :
  is_u32 (Height hdr) -> wf_blocks w -> Height hdr <> 0 ->
  (fst (verifyHeader E hdr w) = Ok tt <->
   exists parent,
     fst (GetHeaderByHash E (PrevBlockHash hdr) w) = Some parent /\
     other_than_not_found (snd (GetHeaderByHash E (PrevBlockHash hdr) w)) = None /\
     header_checks E hdr parent).
Proof.
  intros Hh Hwf Hnz. unfold verifyHeader, header_checks.
  destruct (Z.eqb_spec (Height hdr) 0) as [| _]; [contradiction |].
  cbv beta iota zeta delta [bind gets ret fail check].
  pose proof (GetHeaderByHash_typed (PrevBlockHash hdr) w) as Htyped.
  destruct (GetHeaderByHash E (PrevBlockHash hdr) w) as [prev err]. simpl in *.
  destruct (other_than_not_found err) as [e |].
  { split; [discriminate | intros (p & _ & Habs & _); discriminate]. }
  destruct prev as [prevHeader |].
  2: { split; [discriminate | intros (p & Habs & _); discriminate]. }
  specialize (Htyped prevHeader Hwf eq_refl).
  pose proof (successor_u32 (Height hdr) (Height prevHeader) Hh Htyped Hnz) as Hsucc.
  destruct (Z.eqb_spec (u32 (Height prevHeader + 1)) (Height hdr)) as [Heq | Hne];
    cbv beta iota delta [negb].
  2: { split; [discriminate |].
       intros (p & [= <-] & _ & Hhp & _). exfalso. apply Hne, Hsucc, Hhp. }
  destruct (Z.geb_spec (Timestamp prevHeader) (Timestamp hdr)) as [Hge | Hlt].
  { split; [discriminate |]. intros (p & [= <-] & _ & _ & Hts & _). lia. }
  destruct (AddressFromBookkeepers E (Bookkeepers hdr)) as [address | e].
  2: { split; [discriminate |]. intros (p & _ & _ & _ & _ & Habs & _). discriminate. }
  destruct (decide (NextBookkeeper prevHeader = address)) as [Haddr | Haddr].
  2: { rewrite bool_decide_eq_false_2 by exact Haddr. cbv beta iota delta [negb].
       split; [discriminate |].
       intros (p & [= <-] & _ & _ & _ & [= ->] & _). contradiction. }
  rewrite bool_decide_eq_true_2 by exact Haddr. cbv beta iota delta [negb].
  destruct (VerifyMultiSignature E (HeaderHash E hdr) (Bookkeepers hdr)
              (quorum (len (Bookkeepers hdr))) (SigData hdr)) as [e |] eqn:Hsig.
  { split; [discriminate |]. intros (p & _ & _ & _ & _ & _ & Habs). discriminate. }
  split; [| reflexivity]. intros _. exists prevHeader.
  repeat apply conj; try reflexivity.
  - apply Hsucc, Heq.
  - exact Hlt.
  - rewrite Haddr. reflexivity.
Qed.

End VerifyHeader.

(** C5.  [verifyHeader] accepts every header of height 0 without any check.
    A non-genesis header is accepted if and only if the parent header named
    by its previous-block hash is found, its height is the parent's height
    plus 1, its timestamp is strictly greater than the parent's, the address
    recomputed from its bookkeeper list equals the parent's next-bookkeeper,
    and the multisignature over the header hash verifies against its n
    bookkeepers with threshold m = n - (n-1)/3 (Go division), which is
    n - floor((n-1)/3) for a non-empty bookkeeper list.  In particular a
    header whose bookkeeper address differs from the parent's commitment is
    rejected whatever its signatures.  Verification never changes the
    ledger. *)
Theorem verifyHeader_accepts_iff (E : Env) (hdr : Header) (w : LedgerStoreImp) :
  is_u32 (Height hdr) -> wf_blocks w ->
  let n := len (Bookkeepers hdr) in
  (Height hdr = 0 -> fst (verifyHeader E hdr w) = Ok tt) /\
  (Height hdr <> 0 ->
   (fst (verifyHeader E hdr w) = Ok tt <->
    exists parent,
      fst (GetHeaderByHash E (PrevBlockHash hdr) w) = Some parent /\
      other_than_not_found (snd (GetHeaderByHash E (PrevBlockHash hdr) w)) = None /\
      Height hdr = Height parent + 1 /\
      Timestamp parent < Timestamp hdr /\
      AddressFromBookkeepers E (Bookkeepers hdr) = Ok (NextBookkeeper parent) /\
      VerifyMultiSignature E (HeaderHash E hdr) (Bookkeepers hdr) (quorum n)
        (SigData hdr) = None)) /\
  (1 <= n -> quorum n = n - (n - 1) / 3) /\
  (forall parent address,
     Height hdr <> 0 ->
     fst (GetHeaderByHash E (PrevBlockHash hdr) w) = Some parent ->
     AddressFromBookkeepers E (Bookkeepers hdr) = Ok address ->
     address <> NextBookkeeper parent ->
     is_ok (fst (verifyHeader E hdr w)) = false) /\
  snd (verifyHeader E hdr w) = w.
Proof.
  intros Hh Hwf n. subst n.
  split; [intros H0; rewrite (verifyHeader_genesis E hdr w H0); reflexivity |].
  split; [intros Hnz; apply (verifyHeader_non_genesis E hdr w Hh Hwf Hnz) |].
  split; [apply quorum_floor |].
  split; [| apply verifyHeader_readonly].
  intros parent address Hnz Hparent Haddr Hdiff.
  destruct (fst (verifyHeader E hdr w)) as [[] | e] eqn:Hv; [| reflexivity].
  apply (verifyHeader_non_genesis E hdr w Hh Hwf Hnz) in Hv.
  destruct Hv as (p & Hp & _ & _ & _ & Ha & _).
  rewrite Hparent in Hp. injection Hp as <-.
  rewrite Haddr in Ha. injection Ha as ->. contradiction.
Qed.

(** On the toy chain at height 2, the header of block 3 is accepted: its
    parent is the header of block 2. *)
Lemma verifyHeader_accepts_iff_witness :
  fst (verifyHeader Toy.E0 (Toy.header 3) (Toy.chain 2)) = Ok tt.
Proof.
  assert (Hh : is_u32 (Height (Toy.header 3))) by u32_concrete.
  assert (Hwf : wf_blocks (Toy.chain 2)).
  { apply (bool_decide_unpack _). vm_compute. exact I. }
  destruct (verifyHeader_accepts_iff Toy.E0 (Toy.header 3) (Toy.chain 2) Hh Hwf)
    as (_ & Hiff & _).
  apply Hiff; [vm_compute; discriminate |].
  exists (Toy.header 2).
  repeat apply conj; vm_compute; reflexivity.
Defined.

(** ** Block execution *)

Section Execution.

Context (E : Env).






End Execution.

(** ** C8: the three-phase state root *)




(** ** C7: engine errors and infrastructure faults *)

Section EngineErrors.

Context (E : Env).








End EngineErrors.





(** Scenario E on the toy chain: the block still commits, the failing
    transaction is recorded as failed, the other as succeeded. *)
Example failed_transaction_block_commits :
  match executeBlock Toy.Esafe Toy.mixedBlock (Toy.chain 0) with
  | (Ok res, w1) =>
      map NState (Notify res) = [CONTRACT_STATE_FAIL; CONTRACT_STATE_SUCCESS] /\
      fst (SubmitBlock Toy.Esafe Toy.mixedBlock None res w1) = Ok tt /\
      pointer (snd (SubmitBlock Toy.Esafe Toy.mixedBlock None res w1)) = (1, 1001)
  | (Fail _, _) => False
  end.
Proof. vm_compute. repeat split. Qed.

(** ** C9: order of the per-account change hashes *)


(** C9 (code at the failing input).  For a cache holding storage entries of
    two accounts, two iteration orders of the same Go map, one the reverse
    of the other, give different lists of per-account change hashes and
    different account-level state roots; and the list obtained with the
    first order is not the one in the sorted order of [sortKeyStates]. *)
Theorem change_hashes_depend_on_map_iteration_order :
  (forall l : list (Address * KeyState), Permutation (map_range Toy.Ebackward l)
                                           (map_range Toy.Eforward l)) /\
  snd (calculateChangeStateRoot Toy.Eforward Toy.twoAccounts) <>
    snd (calculateChangeStateRoot Toy.Ebackward Toy.twoAccounts) /\
  fst (calculateChangeStateRoot Toy.Eforward Toy.twoAccounts) <>
    fst (calculateChangeStateRoot Toy.Ebackward Toy.twoAccounts) /\
  snd (calculateChangeStateRoot Toy.Eforward Toy.twoAccounts) <>
    map (fun item => sha256 Toy.Eforward (Value item))
        (sortKeyStates
           (range_states Toy.Eforward
              (fold_left addAccountState (cache_memdb Toy.twoAccounts) ∅))).
Proof.
  split; [intros l; simpl; symmetry; apply Permutation_rev |].
  split; [vm_compute; discriminate |].
  split; vm_compute; discriminate.
Qed.

(** ** C2: recovery *)

(** With the state store at height [s], [recoverStore] runs its loop
    [currBlockHeight - s] times, starting at index [s] itself. *)
Lemma recoverStore_is_loop_from_state_height (E : Env) (w : LedgerStoreImp)
    (hash : Uint256) (s : Z) :
  io_fails E OpStateGetCurrentBlock = false ->
  ss_current (stateStore w) = Some (hash, s) ->
  recoverStore E w = recoverLoop E (Z.to_nat (currBlockHeight w - s)) s w.
Proof.
  intros Hio Hs. unfold recoverStore, stateStore_GetCurrentBlock.
  cbv beta iota zeta delta [bind wrap gets GetCurrentBlockHeight].
  rewrite Hio, Hs. reflexivity.
Qed.

(** C2 (code at the failing input).  The toy ledger is reopened with the
    block store committed through height 7 and the state store through
    height 5.  Initialisation succeeds, but recovery re-executes and
    re-persists heights 5 and 6, not 6 and 7, and leaves the state store at
    height 6, one below the block store. *)
Theorem recovery_replays_from_state_height :
  bs_current (blockStore Toy.crashed) = Some (1007, 7) /\
  ss_current (stateStore Toy.crashed) = Some (1005, 5) /\
  fst (InitLedgerStoreWithGenesisBlock Toy.E0 Toy.genesis Toy.keys Toy.crashed) = Ok tt /\
  map fst (drop (length (ss_stateRoots (stateStore Toy.crashed)))
             (ss_stateRoots (stateStore
                (snd (InitLedgerStoreWithGenesisBlock Toy.E0 Toy.genesis Toy.keys
                        Toy.crashed))))) = [5; 6] /\
  ss_current (stateStore
    (snd (InitLedgerStoreWithGenesisBlock Toy.E0 Toy.genesis Toy.keys Toy.crashed)))
    = Some (1006, 6) /\
  bs_current (blockStore
    (snd (InitLedgerStoreWithGenesisBlock Toy.E0 Toy.genesis Toy.keys Toy.crashed)))
    = Some (1007, 7).
Proof. vm_compute. repeat split. Qed.

(** ** Initialisation with the genesis block *)

Section Initialisation.

Context (E : Env).

Lemma execView_log_exec h tx w : execView (log_event (EvExecuteTx h tx) w) = execView w.
Proof.
  unfold execView. f_equal. apply milestones_log_other. reflexivity.
Qed.

Lemma frame_exec_handleTransaction overlay cache gasTable block tx :
  frame execView (handleTransaction E overlay cache gasTable block tx).
Proof.
  unfold handleTransaction.
  destruct (TxType tx);
    repeat (frame_step; try reflexivity; try apply execView_log_exec).
Qed.

Lemma frame_exec_runTransactions block gasTable txs :
  forall overlay cache acc,
    frame execView (runTransactions E block gasTable txs overlay cache acc).
Proof.
  induction txs as [| tx rest IH]; intros overlay cache acc; simpl.
  - apply frame_ret.
  - apply frame_bind; [apply frame_exec_handleTransaction |].
    intros [[notify ov] c]. apply IH.
Qed.

Lemma frame_exec_executeBlock (block : Block) : frame execView (executeBlock E block).
Proof.
  unfold executeBlock.
  apply frame_bind; [apply frame_gets | intros ss].
  apply frame_bind.
  { destruct (negb (Height (BHeader block) =? 0)); repeat (frame_step; try reflexivity). }
  intros _.
  apply frame_bind; [apply frame_exec_runTransactions |].
  intros [[notifies overlay] cache].
  repeat (frame_step; try reflexivity).
Qed.











End Initialisation.

(** ** C10: initialisation when the version marker is absent *)



(** * Further properties of the ledger store *)

(** ** The state a successful [submitBlock] leaves *)

Section SubmitSuccess.

Context (E : Env).

Lemma saveHeaderIndexList_effect (w : LedgerStoreImp) :
  saveHeaderIndexList w = (Ok tt, flushHeaderIndex w).
Proof.
  unfold saveHeaderIndexList, flushHeaderIndex, headerBatch.
  cbv beta iota zeta delta [bind gets modify ret].
  destruct (u32 (currBlockHeight w - storedIndexCount w) <? HEADER_INDEX_BATCH_SIZE);
    reflexivity.
Qed.

Lemma bs_fold_ext (l : list BlockWrite) (s1 s2 : BlockStore) :
  bs_version s1 = bs_version s2 -> bs_current s1 = bs_current s2 ->
  bs_headerIndex s1 = bs_headerIndex s2 -> bs_blockHash s1 = bs_blockHash s2 ->
  bs_blocks s1 = bs_blocks s2 ->
  bs_newBatch (fold_left applyBlockWrite l s1) =
  bs_newBatch (fold_left applyBlockWrite l s2).
Proof.
  revert s1 s2. induction l as [| x l IH]; intros s1 s2 H1 H2 H3 H4 H5; simpl.
  - unfold bs_newBatch. rewrite H1, H2, H3, H4, H5. reflexivity.
  - apply IH; destruct x; simpl; congruence.
Qed.

Lemma ss_fold_ext (l : list StateWrite) (s1 s2 : StateStore) :
  ss_current s1 = ss_current s2 -> ss_bookkeeper s1 = ss_bookkeeper s2 ->
  ss_stateRoots s1 = ss_stateRoots s2 -> ss_blockRoots s1 = ss_blockRoots s2 ->
  ss_layer2 s1 = ss_layer2 s2 -> ss_raw s1 = ss_raw s2 ->
  ss_newBatch (fold_left applyStateWrite l s1) =
  ss_newBatch (fold_left applyStateWrite l s2).
Proof.
  revert s1 s2. induction l as [| x l IH]; intros s1 s2 H1 H2 H3 H4 H5 H6; simpl.
  - unfold ss_newBatch. rewrite H1, H2, H3, H4, H5, H6. reflexivity.
  - apply IH; destruct x; simpl; congruence.
Qed.

Lemma es_fold_ext (l : list EventWrite) (s1 s2 : EventStore) :
  es_current s1 = es_current s2 -> es_byTx s1 = es_byTx s2 ->
  es_byBlock s1 = es_byBlock s2 ->
  es_newBatch (fold_left applyEventWrite l s1) =
  es_newBatch (fold_left applyEventWrite l s2).
Proof.
  revert s1 s2. induction l as [| x l IH]; intros s1 s2 H1 H2 H3; simpl.
  - unfold es_newBatch. rewrite H1, H2, H3. reflexivity.
  - apply IH; destruct x; simpl; congruence.
Qed.

Lemma bs_commit_stage (l : list BlockWrite) (s : BlockStore) :
  bs_commit (fold_left (fun s wr => bs_stage wr s) l s) = bs_commit_with l s.
Proof.
  revert s. induction l as [| wr l IH]; intros s; simpl.
  - unfold bs_commit, bs_commit_with. rewrite app_nil_r. reflexivity.
  - rewrite IH. unfold bs_commit_with. simpl. rewrite <- app_assoc. simpl.
    apply bs_fold_ext; reflexivity.
Qed.

Lemma ss_commit_stage (l : list StateWrite) (s : StateStore) :
  ss_commit (fold_left (fun s wr => ss_stage wr s) l s) = ss_commit_with l s.
Proof.
  revert s. induction l as [| wr l IH]; intros s; simpl.
  - unfold ss_commit, ss_commit_with. rewrite app_nil_r. reflexivity.
  - rewrite IH. unfold ss_commit_with. simpl. rewrite <- app_assoc. simpl.
    apply ss_fold_ext; reflexivity.
Qed.

Lemma es_commit_stage (l : list EventWrite) (s : EventStore) :
  es_commit (fold_left (fun s wr => es_stage wr s) l s) = es_commit_with l s.
Proof.
  revert s. induction l as [| wr l IH]; intros s; simpl.
  - unfold es_commit, es_commit_with. rewrite app_nil_r. reflexivity.
  - rewrite IH. unfold es_commit_with. simpl. rewrite <- app_assoc. simpl.
    apply es_fold_ext; reflexivity.
Qed.

Lemma GetBlockRoot_readonly (h : Z) (l : list Uint256) (w : LedgerStoreImp) :
  snd (GetBlockRootWithNewTxRoots E h l w) = w.
Proof.
  apply (frame_id_unchanged (GetBlockRootWithNewTxRoots E h l)).
  unfold GetBlockRootWithNewTxRoots. repeat (frame_step; try reflexivity).
Qed.

Lemma fold_left_stage_map {S W A} (stage : W -> S -> S) (f : A -> W) (l : list A) (s : S) :
  fold_left (fun s wr => stage wr s) (map f l) s =
  fold_left (fun s x => stage (f x) s) l s.
Proof. revert s. induction l as [| x l IH]; intros s; simpl; [reflexivity | apply IH]. Qed.

Lemma submitBlock_success_state (b : Block) (l2 : option Layer2State)
    (res : ExecuteResult) (w w' : LedgerStoreImp) :
  submitBlock E b l2 res w = (Ok tt, w') ->
  blockStore w' = bs_commit_with (blockBatchOf E b) (blockStore (submitBase E b w)) /\
  stateStore w' = ss_commit_with (stateBatchOf E b res) (stateStore (submitBase E b w)) /\
  eventStore w' = es_commit_with (eventBatchOf E b res) (eventStore (submitBase E b w)) /\
  layer2Store w' = layer2Store w ++ [l2] /\
  headerIndex w' = <[Height (BHeader b) := BlockHash E b]> (headerIndex w) /\
  storedIndexCount w' = storedIndexCount (submitBase E b w) /\
  pointer w' = (Height (BHeader b), BlockHash E b) /\
  closing w' = closing w /\
  stateHashCheckHeight w' = stateHashCheckHeight w.
Proof.
  unfold submitBlock.
  cbv beta iota zeta delta [bind].
  pose proof (GetBlockRoot_readonly (Height (BHeader b)) [TransactionsRoot (BHeader b)] w)
    as Hro.
  destruct (GetBlockRootWithNewTxRoots E (Height (BHeader b))
              [TransactionsRoot (BHeader b)] w) as [[blockRoot | e] w0];
    simpl in Hro; subst w0; [| discriminate].
  destruct (negb (Height (BHeader b) =? 0) && negb (blockRoot =? BlockRoot (BHeader b)));
    [discriminate |].
  cbv beta iota zeta delta [wrap NewBatch modify io ret fail saveBlockToBlockStore
    setHeaderIndex saveBlockToStateStore saveBlockToEventStore CommitTo setCurrentBlock
    gets bind].
  rewrite saveHeaderIndexList_effect.
  unfold submitBase.
  match goal with
  | |- context [flushHeaderIndex ?x] => set (base := flushHeaderIndex x)
  end.
  destruct (io_fails E (OpBlockSaveCurrentBlock (Height (BHeader b)))); cbv beta iota;
    [intros H; discriminate H |].
  destruct (io_fails E (OpSaveBlock (Height (BHeader b)))); cbv beta iota;
    [intros H; discriminate H |].
  destruct (io_fails E (OpSaveMsgToLayer2Store (Height (BHeader b)))); cbv beta iota;
    [intros H; discriminate H |].
  destruct (io_fails E (OpAddStateMerkleTreeRoot (Height (BHeader b)))); cbv beta iota;
    [intros H; discriminate H |].
  destruct (io_fails E (OpAddBlockMerkleTreeRoot (Height (BHeader b)))); cbv beta iota;
    [intros H; discriminate H |].
  destruct (io_fails E (OpStateSaveCurrentBlock (Height (BHeader b)))); cbv beta iota;
    [intros H; discriminate H |].
  destruct (io_fails E (OpSaveLayer2States (Height (BHeader b)))); cbv beta iota;
    [intros H; discriminate H |].
  assert (Hev : forall X : LedgerStoreImp,
            (if len (map (TxHash E) (Transactions b)) >? 0
             then fun w1 : LedgerStoreImp =>
                    (Ok tt, with_eventStore
                              (es_stage (EWNotifyByBlock (Height (BHeader b))
                                           (map (TxHash E) (Transactions b)))) w1)
             else fun w1 : LedgerStoreImp => (Ok tt, w1)) X =
            (Ok tt,
             with_eventStore
               (fun es => fold_left (fun s wr => es_stage wr s)
                            (if len (map (TxHash E) (Transactions b)) >? 0
                             then [EWNotifyByBlock (Height (BHeader b))
                                     (map (TxHash E) (Transactions b))]
                             else []) es) X)).
  { intros X. destruct (len (map (TxHash E) (Transactions b)) >? 0); [reflexivity |].
    destruct X; reflexivity. }
  rewrite Hev. clear Hev. cbv beta iota.
  destruct (io_fails E (OpCommitTo BlockStoreId (Height (BHeader b)))); cbv beta iota;
    [intros H; discriminate H |].
  destruct (io_fails E (OpCommitTo EventStoreId (Height (BHeader b)))); cbv beta iota;
    [intros H; discriminate H |].
  destruct (io_fails E (OpCommitTo StateStoreId (Height (BHeader b)))); cbv beta iota;
    [intros H; discriminate H |].
  assert (Hbase : layer2Store base = layer2Store w /\
                  headerIndex base =
                    <[Height (BHeader b) := BlockHash E b]> (headerIndex w) /\
                  closing base = closing w /\
                  stateHashCheckHeight base = stateHashCheckHeight w).
  { subst base. unfold flushHeaderIndex.
    match goal with
    | |- context [if ?c then _ else _] => destruct c
    end; repeat apply conj; reflexivity. }
  destruct Hbase as (Hb1 & Hb2 & Hb3 & Hb4).
  rewrite <- Hb1, <- Hb2, <- Hb3, <- Hb4. clear Hb1 Hb2 Hb3 Hb4.
  clearbody base.
  destruct (DefActorPublisher E); cbv beta iota; intros [= <-];
    (split; [rewrite <- bs_commit_stage; reflexivity |];
     split; [rewrite <- ss_commit_stage; unfold stateBatchOf;
             rewrite fold_left_app, fold_left_stage_map; reflexivity |];
     split; [rewrite <- es_commit_stage; unfold eventBatchOf;
             rewrite !fold_left_app, fold_left_stage_map; reflexivity |];
     repeat apply conj; reflexivity).
Qed.

Ltac store_fields :=
  cbv beta iota zeta delta
    [bs_commit_with ss_commit_with es_commit_with blockBatchOf
     bs_newBatch ss_newBatch es_newBatch bs_stage ss_stage es_stage
     with_blockStore with_stateStore with_eventStore with_headerIndex
     with_storedIndexCount log_event
     blockStore stateStore eventStore
     bs_batch bs_version bs_current bs_headerIndex bs_blockHash bs_blocks
     ss_batch ss_current ss_bookkeeper ss_stateRoots ss_blockRoots ss_layer2 ss_raw
     es_batch es_current es_byTx es_byBlock
     applyBlockWrite fold_left app].

Lemma blockStore_submitted (b : Block) (w : LedgerStoreImp) :
  bs_current (bs_commit_with (blockBatchOf E b) (blockStore (submitBase E b w)))
    = Some (BlockHash E b, Height (BHeader b)) /\
  bs_blockHash (bs_commit_with (blockBatchOf E b) (blockStore (submitBase E b w)))
    = <[Height (BHeader b) := BlockHash E b]> (bs_blockHash (blockStore w)) /\
  bs_blocks (bs_commit_with (blockBatchOf E b) (blockStore (submitBase E b w)))
    = <[BlockHash E b := b]> (bs_blocks (blockStore w)) /\
  bs_version (bs_commit_with (blockBatchOf E b) (blockStore (submitBase E b w)))
    = bs_version (blockStore w) /\
  bs_batch (bs_commit_with (blockBatchOf E b) (blockStore (submitBase E b w))) = [].
Proof.
  unfold submitBase, flushHeaderIndex.
  match goal with
  | |- context [if ?c then _ else _] => destruct c
  end; destruct w as [bs ss es l2s n ch cx hi cl T tr]; destruct bs;
    store_fields; repeat apply conj; reflexivity.
Qed.

Lemma stateStore_base (b : Block) (w : LedgerStoreImp) :
  stateStore (submitBase E b w) = ss_newBatch (stateStore w).
Proof.
  unfold submitBase, flushHeaderIndex.
  match goal with
  | |- context [if ?c then _ else _] => destruct c
  end; reflexivity.
Qed.

Lemma eventStore_base (b : Block) (w : LedgerStoreImp) :
  eventStore (submitBase E b w) = es_newBatch (eventStore w).
Proof.
  unfold submitBase, flushHeaderIndex.
  match goal with
  | |- context [if ?c then _ else _] => destruct c
  end; reflexivity.
Qed.

Lemma ss_current_writes (ws : MemDB) (s : StateStore) :
  ss_current (fold_left applyStateWrite (map writeSetOp ws) s) = ss_current s /\
  ss_bookkeeper (fold_left applyStateWrite (map writeSetOp ws) s) = ss_bookkeeper s /\
  ss_stateRoots (fold_left applyStateWrite (map writeSetOp ws) s) = ss_stateRoots s /\
  ss_blockRoots (fold_left applyStateWrite (map writeSetOp ws) s) = ss_blockRoots s /\
  ss_layer2 (fold_left applyStateWrite (map writeSetOp ws) s) = ss_layer2 s.
Proof.
  revert s. induction ws as [| kv ws IH]; intros s; simpl; [repeat apply conj; reflexivity |].
  destruct (IH (applyStateWrite s (writeSetOp kv))) as (H1 & H2 & H3 & H4 & H5).
  rewrite H1, H2, H3, H4, H5. unfold writeSetOp.
  destruct (len (snd kv) =? 0); repeat apply conj; reflexivity.
Qed.

Lemma stateStore_submitted (b : Block) (res : ExecuteResult) (w : LedgerStoreImp) :
  ss_current (ss_commit_with (stateBatchOf E b res) (stateStore (submitBase E b w)))
    = Some (BlockHash E b, Height (BHeader b)) /\
  ss_stateRoots (ss_commit_with (stateBatchOf E b res) (stateStore (submitBase E b w)))
    = ss_stateRoots (stateStore w) ++ [(Height (BHeader b), RHash res)] /\
  ss_blockRoots (ss_commit_with (stateBatchOf E b res) (stateStore (submitBase E b w)))
    = ss_blockRoots (stateStore w) ++ [TransactionsRoot (BHeader b)] /\
  ss_layer2 (ss_commit_with (stateBatchOf E b res) (stateStore (submitBase E b w)))
    = <[Height (BHeader b) := UpdatedAccountState res]> (ss_layer2 (stateStore w)) /\
  ss_bookkeeper (ss_commit_with (stateBatchOf E b res) (stateStore (submitBase E b w)))
    = ss_bookkeeper (stateStore w).
Proof.
  rewrite stateStore_base. unfold ss_commit_with, stateBatchOf.
  change (ss_batch (ss_newBatch (stateStore w))) with (@nil StateWrite).
  rewrite app_nil_l, fold_left_app.
  set (s4 := fold_left applyStateWrite _ (ss_newBatch (stateStore w))).
  destruct (ss_current_writes (WriteSet res) s4) as (H1 & H2 & H3 & H4 & H5).
  repeat apply conj.
  - transitivity (ss_current (fold_left applyStateWrite (map writeSetOp (WriteSet res)) s4));
      [reflexivity | rewrite H1; reflexivity].
  - transitivity (ss_stateRoots
                    (fold_left applyStateWrite (map writeSetOp (WriteSet res)) s4));
      [reflexivity | rewrite H3; reflexivity].
  - transitivity (ss_blockRoots
                    (fold_left applyStateWrite (map writeSetOp (WriteSet res)) s4));
      [reflexivity | rewrite H4; reflexivity].
  - transitivity (ss_layer2 (fold_left applyStateWrite (map writeSetOp (WriteSet res)) s4));
      [reflexivity | rewrite H5; reflexivity].
  - transitivity (ss_bookkeeper
                    (fold_left applyStateWrite (map writeSetOp (WriteSet res)) s4));
      [reflexivity | rewrite H2; reflexivity].
Qed.

Lemma es_notifies_fold (ns : list ExecuteNotify) (s : EventStore) :
  es_current (fold_left applyEventWrite
                (map (fun n => EWNotifyByTx (NTxHash n) n) ns) s) = es_current s /\
  es_byBlock (fold_left applyEventWrite
                (map (fun n => EWNotifyByTx (NTxHash n) n) ns) s) = es_byBlock s.
Proof.
  revert s. induction ns as [| n ns IH]; intros s; [split; reflexivity |].
  exact (IH (applyEventWrite s (EWNotifyByTx (NTxHash n) n))).
Qed.

Lemma eventStore_submitted (b : Block) (res : ExecuteResult) (w : LedgerStoreImp) :
  es_current (es_commit_with (eventBatchOf E b res) (eventStore (submitBase E b w)))
    = Some (BlockHash E b, Height (BHeader b)) /\
  es_byBlock (es_commit_with (eventBatchOf E b res) (eventStore (submitBase E b w)))
    = if len (map (TxHash E) (Transactions b)) >? 0
      then <[Height (BHeader b) := map (TxHash E) (Transactions b)]>
             (es_byBlock (eventStore w))
      else es_byBlock (eventStore w).
Proof.
  rewrite eventStore_base. unfold es_commit_with, eventBatchOf.
  change (es_batch (es_newBatch (eventStore w))) with (@nil EventWrite).
  rewrite app_nil_l, !fold_left_app.
  destruct (es_notifies_fold (Notify res) (es_newBatch (eventStore w))) as [H1 H2].
  set (s1 := fold_left applyEventWrite _ (es_newBatch (eventStore w))) in *.
  split.
  - reflexivity.
  - destruct (len (map (TxHash E) (Transactions b)) >? 0).
    + transitivity (<[Height (BHeader b) := map (TxHash E) (Transactions b)]>
                      (es_byBlock s1)); [reflexivity | rewrite H2; reflexivity].
    + transitivity (es_byBlock s1); [reflexivity | rewrite H2; reflexivity].
Qed.

(** How [SubmitBlock] can return [nil]: a replay, or a full [submitBlock]
    of the next block after its header was verified. *)
Lemma SubmitBlock_ok_inv (b : Block) (l2 : option Layer2State) (res : ExecuteResult)
    (w w' : LedgerStoreImp) :
  SubmitBlock E b l2 res w = (Ok tt, w') ->
  (Height (BHeader b) <= currBlockHeight w /\ w' = w) \/
  (currBlockHeight w < Height (BHeader b) /\
   Height (BHeader b) = u32 (currBlockHeight w + 1) /\
   closing w = false /\
   fst (verifyHeader E (BHeader b) w) = Ok tt /\
   submitBlock E b l2 res w = (Ok tt, w')).
Proof.
  cbv beta iota zeta delta [SubmitBlock bind gets GetCurrentBlockHeight ret fail wrap].
  destruct (closing w); [discriminate |].
  destruct (Z.leb_spec (Height (BHeader b)) (currBlockHeight w)) as [Hle | Hgt].
  { intros [= <-]. left. split; [exact Hle | reflexivity]. }
  destruct (Z.eqb_spec (Height (BHeader b)) (u32 (currBlockHeight w + 1))) as [Heq | Hne];
    cbv beta iota delta [negb]; [| discriminate].
  pose proof (verifyHeader_readonly E (BHeader b) w) as Hro.
  destruct (verifyHeader E (BHeader b) w) as [[[] | e1] w1]; simpl in Hro; subst w1;
    [| discriminate].
  assert (Hl2 : forall c : M unit,
            (forall w0, snd (c w0) = w0) ->
            (let (r0, w'1) := c w in
             match r0 with
             | Ok _ =>
                 let (r1, w'2) := submitBlock E b l2 res w'1 in
                 match r1 with
                 | Ok a1 => (Ok a1, w'2)
                 | Fail e => (Fail (Wrap "saveBlock error" e), w'2)
                 end
             | Fail e => (Fail e, w'1)
             end) = (Ok tt, w') ->
            submitBlock E b l2 res w = (Ok tt, w')).
  { intros c Hc. specialize (Hc w). destruct (c w) as [[[] | e] w2]; simpl in Hc; subst w2;
      [| discriminate].
    destruct (submitBlock E b l2 res w) as [[[] | e] w3]; [| discriminate].
    intros [= <-]. reflexivity. }
  intros Hrun. right. repeat apply conj; try assumption; try reflexivity.
  destruct l2 as [l2s |].
  - apply (Hl2 (if negb (L2Height l2s =? u32 (currBlockHeight w + 1))
                then fail (Errorf "layer2 state msg height not equal next block height")
                else if negb (L2Version l2s =? CURR_LAYER2_STATE_VERSION E)
                     then fail (Errorf "error layer2 state msg version")
                     else fun w0 =>
                            let (r, w'0) :=
                              verifyLayer2State E l2s (Bookkeepers (BHeader b)) w0 in
                            match r with
                            | Ok a => (Ok a, w'0)
                            | Fail e => (Fail (Wrap "verifyLayer2State error" e), w'0)
                            end)); [| exact Hrun].
    intros w0. destruct (negb _); [reflexivity |]. destruct (negb _); [reflexivity |].
    pose proof (verifyLayer2State_readonly E l2s (Bookkeepers (BHeader b)) w0) as Hr2.
    destruct (verifyLayer2State E l2s (Bookkeepers (BHeader b)) w0) as [[|] w4];
      exact Hr2.
  - apply (Hl2 (fun w0 => (Ok tt, w0))); [reflexivity | exact Hrun].
Qed.

Lemma SubmitBlock_fail_pointer (b : Block) (l2 : option Layer2State)
    (res : ExecuteResult) (w : LedgerStoreImp) :
  is_ok (fst (SubmitBlock E b l2 res w)) = false ->
  pointer (snd (SubmitBlock E b l2 res w)) = pointer w.
Proof.
  cbv beta iota zeta delta [SubmitBlock bind gets GetCurrentBlockHeight ret fail wrap].
  destruct (closing w); [reflexivity |].
  destruct (Height (BHeader b) <=? currBlockHeight w); [reflexivity |].
  destruct (negb (Height (BHeader b) =? u32 (currBlockHeight w + 1))); [reflexivity |].
  pose proof (verifyHeader_readonly E (BHeader b) w) as Hro.
  destruct (verifyHeader E (BHeader b) w) as [[[] | e1] w1]; simpl in Hro; subst w1;
    [| reflexivity].
  assert (Hl2 : forall c : M unit,
            (forall w0, snd (c w0) = w0) ->
            is_ok (fst (let (r0, w'1) := c w in
                        match r0 with
                        | Ok _ =>
                            let (r1, w'2) := submitBlock E b l2 res w'1 in
                            match r1 with
                            | Ok a1 => (Ok a1, w'2)
                            | Fail e => (Fail (Wrap "saveBlock error" e), w'2)
                            end
                        | Fail e => (Fail e, w'1)
                        end)) = false ->
            pointer (snd (let (r0, w'1) := c w in
                          match r0 with
                          | Ok _ =>
                              let (r1, w'2) := submitBlock E b l2 res w'1 in
                              match r1 with
                              | Ok a1 => (Ok a1, w'2)
                              | Fail e => (Fail (Wrap "saveBlock error" e), w'2)
                              end
                          | Fail e => (Fail e, w'1)
                          end)) = pointer w).
  { intros c Hc. specialize (Hc w). destruct (c w) as [[[] | e] w2]; simpl in Hc; subst w2;
      [| reflexivity].
    pose proof (submitBlock_protocol E b l2 res w) as Hp.
    destruct (submitBlock E b l2 res w) as [[[] | e] w3]; simpl in *; [discriminate |].
    intros _. unfold submit_outcome in Hp. simpl in Hp.
    destruct Hp as [H | [H | [H | [H | H]]]]; try apply H.
    destruct H as [Habs _]. discriminate Habs. }
  destruct l2 as [l2s |].
  - apply (Hl2 (if negb (L2Height l2s =? u32 (currBlockHeight w + 1))
                then fail (Errorf "layer2 state msg height not equal next block height")
                else if negb (L2Version l2s =? CURR_LAYER2_STATE_VERSION E)
                     then fail (Errorf "error layer2 state msg version")
                     else fun w0 =>
                            let (r, w'0) :=
                              verifyLayer2State E l2s (Bookkeepers (BHeader b)) w0 in
                            match r with
                            | Ok a => (Ok a, w'0)
                            | Fail e => (Fail (Wrap "verifyLayer2State error" e), w'0)
                            end)).
    intros w0. destruct (negb _); [reflexivity |]. destruct (negb _); [reflexivity |].
    pose proof (verifyLayer2State_readonly E l2s (Bookkeepers (BHeader b)) w0) as Hr2.
    destruct (verifyLayer2State E l2s (Bookkeepers (BHeader b)) w0) as [[|] w4];
      exact Hr2.
  - apply (Hl2 (fun w0 => (Ok tt, w0))). reflexivity.
Qed.

End SubmitSuccess.

Lemma run_ok {A} (c : M A) (w : LedgerStoreImp) (a : A) :
  fst (c w) = Ok a -> c w = (Ok a, snd (c w)).
Proof. destruct (c w) as [r w']. simpl. intros ->. reflexivity. Qed.

(** ** What a committed block leaves behind *)

(** X1.  After a successful [submitBlock] of a block with hash [x] at height
    [h], the current-block markers of the block, state and event stores are
    all [(x, h)], they agree with the in-memory pointer, and the header
    index maps [h] to [x]; the version marker is untouched. *)
Theorem submitBlock_markers_agree (E : Env) (b : Block) (l2 : option Layer2State)
    (res : ExecuteResult) (w w' : LedgerStoreImp) :
  submitBlock E b l2 res w = (Ok tt, w') ->
  bs_current (blockStore w') = Some (BlockHash E b, Height (BHeader b)) /\
  ss_current (stateStore w') = Some (BlockHash E b, Height (BHeader b)) /\
  es_current (eventStore w') = Some (BlockHash E b, Height (BHeader b)) /\
  currBlockHeight w' = Height (BHeader b) /\
  currBlockHash w' = BlockHash E b /\
  headerIndex w' !! Height (BHeader b) = Some (BlockHash E b) /\
  bs_version (blockStore w') = bs_version (blockStore w).
Proof.
  intros Hsub.
  destruct (submitBlock_success_state E b l2 res w w' Hsub)
    as (Hbs & Hss & Hes & _ & Hhi & _ & Hp & _).
  rewrite Hbs, Hss, Hes, Hhi.
  destruct (blockStore_submitted E b w) as (H1 & _ & _ & H4 & _).
  destruct (stateStore_submitted E b res w) as (H5 & _).
  destruct (eventStore_submitted E b res w) as (H6 & _).
  unfold pointer in Hp. injection Hp as Hh Hx.
  repeat apply conj; try assumption. apply lookup_insert_eq.
Qed.

(** On the toy chain after genesis, submitting block 1. *)
Lemma submitBlock_markers_agree_witness :
  ss_current (stateStore (snd (submitBlock Toy.E0 (Toy.block 1) None emptyResult
                                 (Toy.chain 0))))
  = Some (BlockHash Toy.E0 (Toy.block 1), Height (BHeader (Toy.block 1))).
Proof.
  apply (submitBlock_markers_agree Toy.E0 (Toy.block 1) None emptyResult (Toy.chain 0)).
  apply run_ok. vm_compute. reflexivity.
Defined.

(** X2.  [SubmitBlock] accepts blocks in strict height order: a call that
    returns [nil] either changed nothing (the block was at or below the
    current height) or moved the in-memory pointer to exactly the next
    height and to the hash of the submitted block; a call that returns an
    error leaves the pointer where it was. *)
Theorem SubmitBlock_height_moves_by_one (E : Env) (b : Block)
    (l2 : option Layer2State) (res : ExecuteResult) (w : LedgerStoreImp) :
  is_u32 (currBlockHeight w) -> is_u32 (Height (BHeader b)) ->
  (fst (SubmitBlock E b l2 res w) = Ok tt ->
     (Height (BHeader b) <= currBlockHeight w /\ snd (SubmitBlock E b l2 res w) = w) \/
     (Height (BHeader b) = currBlockHeight w + 1 /\
      currBlockHeight (snd (SubmitBlock E b l2 res w)) = currBlockHeight w + 1 /\
      currBlockHash (snd (SubmitBlock E b l2 res w)) = BlockHash E b)) /\
  (is_ok (fst (SubmitBlock E b l2 res w)) = false ->
     pointer (snd (SubmitBlock E b l2 res w)) = pointer w).
Proof.
  intros Hc Hh. split; [| apply SubmitBlock_fail_pointer].
  intros Hok. apply run_ok in Hok.
  destruct (SubmitBlock_ok_inv E b l2 res w _ Hok)
    as [[Hle Hw] | (Hlt & Heq & _ & _ & Hsub)].
  - left. split; assumption.
  - right. rewrite (next_height_u32 _ (Height (BHeader b))) in Heq by assumption.
    destruct (submitBlock_success_state E b l2 res w _ Hsub)
      as (_ & _ & _ & _ & _ & _ & Hp & _).
    unfold pointer in Hp. injection Hp as Hh' Hx'.
    rewrite Hh', Hx'. repeat apply conj; [exact Heq | exact Heq | reflexivity].
Qed.

(** On the toy chain at height 2, block 5 is refused and the pointer stays. *)
Lemma SubmitBlock_height_moves_by_one_witness :
  pointer (snd (SubmitBlock Toy.E0 (Toy.block 5) None emptyResult (Toy.chain 2)))
  = pointer (Toy.chain 2).
Proof.
  apply (SubmitBlock_height_moves_by_one Toy.E0 (Toy.block 5) None emptyResult
           (Toy.chain 2)); [u32_concrete | u32_concrete | vm_compute; reflexivity].
Defined.

(** X3.  A block committed by [SubmitBlock] can be read back: afterwards
    [GetCurrentBlock] returns its height and hash, [GetBlockHash] of its
    height returns its hash, [IsContainBlock] of its hash is true,
    [GetBlockByHash] and [GetBlockByHeight] return the block and
    [GetHeaderByHash] its header, provided these reads do not fail and the
    block hash is not the zero hash (which [GetBlockByHeight] takes for a
    missing block). *)
Theorem SubmitBlock_then_read_back (E : Env) (b : Block) (l2 : option Layer2State)
    (res : ExecuteResult) (w w' : LedgerStoreImp) :
  SubmitBlock E b l2 res w = (Ok tt, w') ->
  currBlockHeight w < Height (BHeader b) ->
  BlockHash E b <> UINT256_EMPTY ->
  io_fails E (OpGetBlock (BlockHash E b)) = false ->
  io_fails E (OpContainBlock (BlockHash E b)) = false ->
  io_fails E (OpGetHeader (BlockHash E b)) = false ->
  GetCurrentBlock w' = (Ok (Height (BHeader b), BlockHash E b), w') /\
  GetBlockHash (Height (BHeader b)) w' = (Ok (BlockHash E b), w') /\
  IsContainBlock E (BlockHash E b) w' = (Ok true, w') /\
  GetBlockByHash E (BlockHash E b) w' = (Ok b, w') /\
  GetBlockByHeight E (Height (BHeader b)) w' = (Ok (Some b), w') /\
  GetHeaderByHash E (BlockHash E b) w' = (Some (BHeader b), None).
Proof.
  intros Hsubmit Hlt Hnz HioB HioC HioH.
  destruct (SubmitBlock_ok_inv E b l2 res w w' Hsubmit)
    as [[Hle _] | (_ & _ & _ & _ & Hsub)]; [lia |].
  destruct (submitBlock_success_state E b l2 res w w' Hsub)
    as (Hbs & _ & _ & _ & Hhi & _ & Hp & _).
  destruct (blockStore_submitted E b w) as (_ & _ & Hblocks & _).
  rewrite <- Hbs in Hblocks.
  assert (Hget : bs_blocks (blockStore w') !! BlockHash E b = Some b)
    by (rewrite Hblocks; apply lookup_insert_eq).
  assert (Hidx : headerIndex w' !! Height (BHeader b) = Some (BlockHash E b))
    by (rewrite Hhi; apply lookup_insert_eq).
  unfold pointer in Hp. injection Hp as Hh Hx.
  assert (HbyHash : GetBlockByHash E (BlockHash E b) w' = (Ok b, w')).
  { unfold GetBlockByHash, blockStore_GetBlock. rewrite HioB, Hget. reflexivity. }
  assert (HbyIdx : GetBlockHash (Height (BHeader b)) w' = (Ok (BlockHash E b), w')).
  { unfold GetBlockHash, getHeaderIndex, gets. rewrite Hidx. reflexivity. }
  repeat apply conj.
  - unfold GetCurrentBlock, gets. rewrite Hh, Hx. reflexivity.
  - exact HbyIdx.
  - unfold IsContainBlock, ContainBlock. rewrite HioC, Hget. reflexivity.
  - exact HbyHash.
  - unfold GetBlockByHeight, bind. rewrite HbyIdx.
    destruct (Z.eqb_spec (BlockHash E b) UINT256_EMPTY) as [Habs | _];
      [contradiction |].
    rewrite HbyHash. reflexivity.
  - unfold GetHeaderByHash, blockStore_GetHeader. rewrite HioH, Hget. reflexivity.
Qed.

(** On the toy chain at height 2, block 3 is read back after its submission. *)
Lemma SubmitBlock_then_read_back_witness :
  GetBlockByHeight Toy.E0 (Height (BHeader (Toy.block 3)))
    (snd (SubmitBlock Toy.E0 (Toy.block 3) None emptyResult (Toy.chain 2)))
  = (Ok (Some (Toy.block 3)),
     snd (SubmitBlock Toy.E0 (Toy.block 3) None emptyResult (Toy.chain 2))).
Proof.
  apply (SubmitBlock_then_read_back Toy.E0 (Toy.block 3) None emptyResult (Toy.chain 2)).
  - apply run_ok. vm_compute. reflexivity.
  - vm_compute. reflexivity.
  - vm_compute. discriminate.
  - reflexivity.
  - reflexivity.
  - reflexivity.
Defined.

(** ** Closing, reading and reopening *)

Lemma bind_ok_inv {A B} (c : M A) (k : A -> M B) (w w' : LedgerStoreImp) (b : B) :
  bind c k w = (Ok b, w') ->
  exists a w1, c w = (Ok a, w1) /\ k a w1 = (Ok b, w').
Proof.
  unfold bind. destruct (c w) as [[a | e] w1]; [| discriminate].
  intros H. exists a, w1. split; [reflexivity | exact H].
Qed.

Lemma wrap_ok_inv {A} (msg : string) (c : M A) (w w' : LedgerStoreImp) (a : A) :
  wrap msg c w = (Ok a, w') -> c w = (Ok a, w').
Proof. unfold wrap. destruct (c w) as [[a0 | e] w1]; [trivial | discriminate]. Qed.

Lemma frame_reader {A X} (p : LedgerStoreImp -> X) (c : M A) :
  (forall w, snd (c w) = w) -> frame p c.
Proof. intros H w. rewrite H. reflexivity. Qed.

Lemma frame_weaken {A X Y} (p : LedgerStoreImp -> X) (q : X -> Y) (c : M A) :
  frame p c -> frame (fun w => q (p w)) c.
Proof. intros H w. rewrite (H w). reflexivity. Qed.

Lemma bind_wrap_ok {A B} (msg : string) (c : M A) (k : A -> M B)
    (w w1 : LedgerStoreImp) (a : A) :
  c w = (Ok a, w1) -> bind (wrap msg c) k w = k a w1.
Proof. intros H. unfold bind, wrap. rewrite H. reflexivity. Qed.

Lemma bind_wrap_fail {A B} (msg : string) (c : M A) (k : A -> M B)
    (w w1 : LedgerStoreImp) (e : error) :
  c w = (Fail e, w1) -> bind (wrap msg c) k w = (Fail (Wrap msg e), w1).
Proof. intros H. unfold bind, wrap. rewrite H. reflexivity. Qed.

Section Reopen.

Context (E : Env).

Lemma blockStore_GetBlockHash_reader (h : Z) (w : LedgerStoreImp) :
  snd (blockStore_GetBlockHash E h w) = w.
Proof.
  unfold blockStore_GetBlockHash. destruct (io_fails E _); [reflexivity |].
  destruct (_ !! _); reflexivity.
Qed.

Lemma blockStore_GetBlock_reader (x : Uint256) (w : LedgerStoreImp) :
  snd (blockStore_GetBlock E x w) = w.
Proof.
  unfold blockStore_GetBlock. destruct (io_fails E _); [reflexivity |].
  destruct (_ !! _); reflexivity.
Qed.

Lemma blockStore_GetCurrentBlock_reader (w : LedgerStoreImp) :
  snd (blockStore_GetCurrentBlock E w) = w.
Proof.
  unfold blockStore_GetCurrentBlock. destruct (io_fails E _); [reflexivity |].
  destruct (bs_current _); reflexivity.
Qed.

Lemma stateStore_GetCurrentBlock_reader (w : LedgerStoreImp) :
  snd (stateStore_GetCurrentBlock E w) = w.
Proof.
  unfold stateStore_GetCurrentBlock. destruct (io_fails E _); [reflexivity |].
  destruct (ss_current _); reflexivity.
Qed.

Lemma GetHeaderIndexList_reader (w : LedgerStoreImp) :
  snd (GetHeaderIndexList E w) = w.
Proof. unfold GetHeaderIndexList. destruct (io_fails E _); reflexivity. Qed.

Lemma ContainBlock_reader (x : Uint256) (w : LedgerStoreImp) :
  snd (ContainBlock E x w) = w.
Proof. unfold ContainBlock. destruct (io_fails E _); reflexivity. Qed.

Lemma hasAlreadyInitGenesisBlock_reader (w : LedgerStoreImp) :
  snd (hasAlreadyInitGenesisBlock E w) = w.
Proof.
  unfold hasAlreadyInitGenesisBlock, bind, gets, GetVersion.
  destruct (io_fails E _); [reflexivity |].
  destruct (bs_version _); reflexivity.
Qed.

Lemma hasAlreadyInit_marked (w : LedgerStoreImp) :
  bs_version (blockStore w) = Some SYSTEM_VERSION ->
  hasAlreadyInitGenesisBlock E w = (Ok true, w) \/
  exists e, hasAlreadyInitGenesisBlock E w = (Fail e, w).
Proof.
  intros Hv. unfold hasAlreadyInitGenesisBlock, bind, gets, GetVersion.
  destruct (io_fails E _).
  - right. eexists. reflexivity.
  - left. rewrite Hv. reflexivity.
Qed.

Lemma frame_recover_executeBlock (b : Block) : frame recoverView (executeBlock E b).
Proof.
  apply (frame_weaken execView
           (fun v => recoverView (fst v)) (executeBlock E b)).
  apply frame_exec_executeBlock.
Qed.

Lemma frame_recover_saveBlockToStateStore (b : Block) (res : ExecuteResult) :
  frame recoverView (saveBlockToStateStore E b res).
Proof. unfold saveBlockToStateStore. repeat (frame_step; try reflexivity). Qed.

Lemma frame_recover_saveBlockToEventStore (b : Block) :
  frame recoverView (saveBlockToEventStore E b).
Proof. unfold saveBlockToEventStore. repeat (frame_step; try reflexivity). Qed.

Lemma frame_recoverLoop (n : nat) :
  forall i, frame recoverView (recoverLoop E n i).
Proof.
  induction n as [| n IH]; intros i; simpl; [apply frame_ret |].
  apply frame_bind;
    [apply frame_wrap, frame_reader, blockStore_GetBlockHash_reader | intros x].
  apply frame_bind;
    [apply frame_wrap, frame_reader, blockStore_GetBlock_reader | intros b].
  apply frame_bind; [unfold NewBatch; apply frame_modify; reflexivity | intros _].
  apply frame_bind; [unfold NewBatch; apply frame_modify; reflexivity | intros _].
  apply frame_bind; [apply frame_recover_executeBlock | intros res].
  apply frame_bind;
    [apply frame_wrap, frame_recover_saveBlockToStateStore | intros _].
  apply frame_bind; [apply frame_recover_saveBlockToEventStore | intros _].
  apply frame_bind;
    [apply frame_wrap; unfold CommitTo; repeat (frame_step; try reflexivity)
    | intros _].
  apply frame_bind;
    [apply frame_wrap; unfold CommitTo; repeat (frame_step; try reflexivity)
    | intros _].
  apply IH.
Qed.

Lemma frame_recoverStore : frame recoverView (recoverStore E).
Proof.
  unfold recoverStore.
  apply frame_bind; [apply frame_gets | intros h].
  apply frame_bind;
    [apply frame_wrap, frame_reader, stateStore_GetCurrentBlock_reader | intros c].
  apply frame_recoverLoop.
Qed.

Lemma recoverStore_frame_fields (w : LedgerStoreImp) :
  pointer (snd (recoverStore E w)) = pointer w /\
  headerIndex (snd (recoverStore E w)) = headerIndex w /\
  storedIndexCount (snd (recoverStore E w)) = storedIndexCount w.
Proof.
  pose proof (frame_recoverStore w) as H.
  repeat apply conj.
  - exact (f_equal (fun v => let '(_, _, _, p, _, _, _) := v in p) H).
  - exact (f_equal (fun v => let '(_, _, _, _, i, _, _) := v in i) H).
  - exact (f_equal (fun v => let '(_, _, n, _, _, _, _) := v in n) H).
Qed.

Lemma frame_stores_loadCurrentBlock : frame storesView (loadCurrentBlock E).
Proof.
  unfold loadCurrentBlock.
  apply frame_bind;
    [apply frame_wrap, frame_reader, blockStore_GetCurrentBlock_reader | intros [x h]].
  unfold setCurrentBlock. apply frame_modify. reflexivity.
Qed.

Lemma frame_stores_loadHeaderIndexLoop (n : nat) :
  forall i, frame storesView (loadHeaderIndexLoop E n i).
Proof.
  induction n as [| n IH]; intros i; simpl; [apply frame_ret |].
  apply frame_bind;
    [apply frame_wrap, frame_reader, blockStore_GetBlockHash_reader | intros x].
  destruct (x =? UINT256_EMPTY); [apply frame_fail |].
  apply frame_bind; [apply frame_modify; reflexivity | intros _]. apply IH.
Qed.

Lemma frame_stores_loadHeaderIndexList : frame storesView (loadHeaderIndexList E).
Proof.
  unfold loadHeaderIndexList.
  apply frame_bind; [apply frame_gets | intros h].
  apply frame_bind;
    [apply frame_wrap, frame_reader, GetHeaderIndexList_reader | intros index].
  apply frame_bind; [apply frame_modify; reflexivity | intros _].
  apply frame_bind; [apply frame_modify; reflexivity | intros _].
  apply frame_stores_loadHeaderIndexLoop.
Qed.

Lemma frame_blockStore_init :
  frame (fun w => (blockStore w, layer2Store w, closing w, stateHashCheckHeight w))
        (init E).
Proof.
  unfold init.
  apply frame_bind; [| intros _; apply frame_bind; [| intros _]]; apply frame_wrap.
  - apply (frame_weaken storesView
             (fun v => let '(b, _, _, l, c, t, _) := v in (b, l, c, t))).
    apply frame_stores_loadCurrentBlock.
  - apply (frame_weaken storesView
             (fun v => let '(b, _, _, l, c, t, _) := v in (b, l, c, t))).
    apply frame_stores_loadHeaderIndexList.
  - apply (frame_weaken recoverView
             (fun v => let '(b, l, _, _, _, c, t) := v in (b, l, c, t))).
    apply frame_recoverStore.
Qed.

End Reopen.

(** X4.  [Close] marks the ledger as closing whether or not the stores
    close cleanly, touches nothing else, and closes the stores in the order
    block, event, state up to the first error.  From then on [SubmitBlock]
    refuses every block, a replayed one included, and changes nothing. *)
Theorem Close_refuses_later_submits (E : Env) (closeFails : StoreId -> bool)
    (b : Block) (l2 : option Layer2State) (res : ExecuteResult) (w : LedgerStoreImp) :
  snd (Close closeFails w) = with_closing true w /\
  fst (Close closeFails w) =
    (if closeFails BlockStoreId
     then Fail (Wrap "blockStore close error" (ErrExternal 0))
     else if closeFails EventStoreId
     then Fail (Wrap "eventStore close error" (ErrExternal 0))
     else if closeFails StateStoreId
     then Fail (Wrap "stateStore close error" (ErrExternal 0))
     else Ok tt) /\
  SubmitBlock E b l2 res (snd (Close closeFails w)) =
    (Fail (Errorf "save block error: ledger is closing"), snd (Close closeFails w)).
Proof.
  assert (Hsnd : snd (Close closeFails w) = with_closing true w).
  { unfold Close, closeStore, bind, modify, wrap, fail, ret.
    destruct (closeFails BlockStoreId); [reflexivity |].
    destruct (closeFails EventStoreId); [reflexivity |].
    destruct (closeFails StateStoreId); reflexivity. }
  repeat apply conj.
  - exact Hsnd.
  - unfold Close, closeStore, bind, modify, wrap, fail, ret.
    destruct (closeFails BlockStoreId); [reflexivity |].
    destruct (closeFails EventStoreId); [reflexivity |].
    destruct (closeFails StateStoreId); reflexivity.
  - rewrite Hsnd. reflexivity.
Qed.

(** X5.  The saving-block lock is exclusive: once [tryGetSavingBlockLock]
    has taken it (flag [false]), a second try reports it held and leaves it
    so, a blocking [getSavingBlockLock] does not return, and
    [releaseSavingBlockLock] gives back the state before the lock was taken;
    releasing a lock that is not held panics. *)
Theorem savingBlockLock_exclusive (s s' : Semaphore) :
  tryGetSavingBlockLock s = (false, s') ->
  tryGetSavingBlockLock s' = (true, s') /\
  getSavingBlockLock s' = None /\
  releaseSavingBlockLock s' = ReleasedOk s /\
  releaseSavingBlockLock s = ReleasePanic /\
  getSavingBlockLock s = Some s'.
Proof.
  unfold tryGetSavingBlockLock, getSavingBlockLock.
  destruct s as [| n]; simpl; [| discriminate].
  intros [= <-]. repeat apply conj; reflexivity.
Qed.

Lemma savingBlockLock_exclusive_witness :
  tryGetSavingBlockLock 1%nat = (true, 1%nat).
Proof.
  apply (savingBlockLock_exclusive 0%nat 1%nat). reflexivity.
Defined.

(** X6.  [ExecuteBlock] is a dry run: whatever the block, the faults and
    the outcome, it leaves the stores with their pending batches, the
    header index, the pointer, the flags and the durable milestones as they
    were. *)
Theorem ExecuteBlock_changes_nothing (E : Env) (b : Block) (w : LedgerStoreImp) :
  untraced (snd (ExecuteBlock E b w)) = untraced w /\
  milestones (snd (ExecuteBlock E b w)) = milestones w.
Proof.
  assert (H : frame execView (ExecuteBlock E b)).
  { unfold ExecuteBlock, GetCurrentBlockHeight.
    apply frame_bind; [apply frame_gets | intros h].
    destruct (Height (BHeader b) <=? h).
    - apply frame_bind; [apply frame_reader; reflexivity | intros r; apply frame_ret].
    - destruct (negb _); [apply frame_fail | apply frame_exec_executeBlock]. }
  specialize (H w). unfold execView in H.
  split; [exact (f_equal fst H) | exact (f_equal snd H)].
Qed.

(** X7.  Recovery writes to the state and event stores only: whatever its
    outcome, [recoverStore] leaves the block store, the layer2 store, the
    in-memory pointer, the header index and its stored count as they
    were. *)
Theorem recoverStore_keeps_block_store (E : Env) (w : LedgerStoreImp) :
  blockStore (snd (recoverStore E w)) = blockStore w /\
  layer2Store (snd (recoverStore E w)) = layer2Store w /\
  pointer (snd (recoverStore E w)) = pointer w /\
  headerIndex (snd (recoverStore E w)) = headerIndex w /\
  storedIndexCount (snd (recoverStore E w)) = storedIndexCount w.
Proof.
  pose proof (frame_recoverStore E w) as H.
  repeat apply conj.
  - exact (f_equal (fun v => let '(b, _, _, _, _, _, _) := v in b) H).
  - exact (f_equal (fun v => let '(_, l, _, _, _, _, _) := v in l) H).
  - exact (f_equal (fun v => let '(_, _, _, p, _, _, _) := v in p) H).
  - exact (f_equal (fun v => let '(_, _, _, _, i, _, _) := v in i) H).
  - exact (f_equal (fun v => let '(_, _, n, _, _, _, _) := v in n) H).
Qed.

(** X8.  Reopening a ledger whose version marker is present but whose block
    store does not hold the genesis block fails with "GenesisBlock arenot
    init correctly" and changes nothing: the stores are not cleared. *)
Theorem reopen_without_genesis_fails (E : Env) (genesis : Block)
    (bks : list PublicKey) (w : LedgerStoreImp) :
  bs_version (blockStore w) = Some SYSTEM_VERSION ->
  bs_blocks (blockStore w) !! BlockHash E genesis = None ->
  io_fails E OpGetVersion = false ->
  io_fails E (OpContainBlock (BlockHash E genesis)) = false ->
  InitLedgerStoreWithGenesisBlock E genesis bks w =
    (Fail (Errorf "GenesisBlock arenot init correctly"), w).
Proof.
  intros Hv Hb Hio1 Hio2.
  unfold InitLedgerStoreWithGenesisBlock, hasAlreadyInitGenesisBlock, GetVersion,
    ContainBlock.
  cbv beta iota zeta delta [bind wrap gets ret fail other_than_not_found].
  rewrite Hio1, Hv. cbv beta iota zeta delta [other_than_not_found].
  change (SYSTEM_VERSION =? SYSTEM_VERSION) with true.
  cbv beta iota delta [negb]. rewrite Hio2, Hb.
  rewrite bool_decide_eq_false_2 by (intros [x Hx]; discriminate).
  reflexivity.
Qed.

Lemma reopen_without_genesis_fails_witness :
  InitLedgerStoreWithGenesisBlock Toy.E0 (Toy.block 9) Toy.keys (Toy.chain 2) =
    (Fail (Errorf "GenesisBlock arenot init correctly"), Toy.chain 2).
Proof.
  apply (reopen_without_genesis_fails Toy.E0 (Toy.block 9) Toy.keys (Toy.chain 2));
    vm_compute; reflexivity.
Defined.

(** X9.  With the version marker present, [InitLedgerStoreWithGenesisBlock]
    never writes to the block store nor to the layer2 store, whatever its
    outcome: the genesis path with its [ClearAll] is not taken and the
    reopening path only reads them. *)
Theorem reopen_keeps_block_store (E : Env) (genesis : Block)
    (bks : list PublicKey) (w : LedgerStoreImp) :
  bs_version (blockStore w) = Some SYSTEM_VERSION ->
  blockStore (snd (InitLedgerStoreWithGenesisBlock E genesis bks w)) = blockStore w /\
  layer2Store (snd (InitLedgerStoreWithGenesisBlock E genesis bks w)) = layer2Store w.
Proof.
  intros Hv.
  set (view := fun w => (blockStore w, layer2Store w, closing w, stateHashCheckHeight w)).
  assert (H : view (snd (InitLedgerStoreWithGenesisBlock E genesis bks w)) = view w).
  { unfold InitLedgerStoreWithGenesisBlock.
    destruct (hasAlreadyInit_marked E w Hv) as [Hc | [e Hc]].
    - rewrite (bind_wrap_ok _ _ _ _ _ _ Hc). cbv beta iota delta [negb].
      revert w Hv Hc. intros w _ _. revert w.
      change (frame view
                (let* exist := wrap "HashBlockExist error"
                                 (ContainBlock E (BlockHash E genesis)) in
                 if negb exist then fail (Errorf "GenesisBlock arenot init correctly")
                 else wrap "init error" (init E))%ledger).
      apply frame_bind;
        [apply frame_wrap, frame_reader, ContainBlock_reader | intros exist].
      destruct (negb exist); [apply frame_fail |].
      apply frame_wrap, frame_blockStore_init.
    - rewrite (bind_wrap_fail _ _ _ _ _ _ Hc). reflexivity. }
  unfold view in H. injection H as H1 H2 _ _. split; assumption.
Qed.

Lemma reopen_keeps_block_store_witness :
  blockStore (snd (InitLedgerStoreWithGenesisBlock Toy.E0 Toy.genesis Toy.keys
                     Toy.crashed)) = blockStore Toy.crashed /\
  layer2Store (snd (InitLedgerStoreWithGenesisBlock Toy.E0 Toy.genesis Toy.keys
                      Toy.crashed)) = layer2Store Toy.crashed.
Proof.
  apply (reopen_keeps_block_store Toy.E0 Toy.genesis Toy.keys Toy.crashed).
  vm_compute. reflexivity.
Defined.

Section ReopenSuccess.

Context (E : Env).

Lemma blockStore_GetBlockHash_ok (i : Z) (w w1 : LedgerStoreImp) (x : Uint256) :
  blockStore_GetBlockHash E i w = (Ok x, w1) ->
  w1 = w /\ bs_blockHash (blockStore w) !! i = Some x.
Proof.
  unfold blockStore_GetBlockHash. destruct (io_fails E _); [discriminate |].
  destruct (_ !! _) as [y |]; [| discriminate].
  intros [= <- <-]. split; reflexivity.
Qed.

(** The header-index loading loop, when it succeeds: the heights
    [i .. i + n - 1] are read from the block store and none is the zero
    hash. *)
Lemma loadHeaderIndexLoop_ok (n : nat) :
  forall (i : Z) (w w' : LedgerStoreImp),
    loadHeaderIndexLoop E n i w = (Ok tt, w') ->
    storesView w' = storesView w /\ pointer w' = pointer w /\
    storedIndexCount w' = storedIndexCount w /\
    (forall j, headerIndex w' !! j =
               if decide (i <= j < i + Z.of_nat n)
               then bs_blockHash (blockStore w) !! j
               else headerIndex w !! j) /\
    (forall j, i <= j < i + Z.of_nat n ->
               exists x, bs_blockHash (blockStore w) !! j = Some x /\
                         x <> UINT256_EMPTY).
Proof.
  induction n as [| n IH]; intros i w w'.
  - simpl. intros [= <-]. repeat apply conj; try reflexivity.
    + intros j. destruct (decide _) as [Hj | _]; [lia | reflexivity].
    + intros j Hj. lia.
  - cbn [loadHeaderIndexLoop]. intros Hrun.
    apply bind_ok_inv in Hrun as (x & w1 & Hget & Hrun).
    apply wrap_ok_inv, blockStore_GetBlockHash_ok in Hget as [-> Hx].
    destruct (Z.eqb_spec x UINT256_EMPTY) as [| Hnz]; [discriminate |].
    apply bind_ok_inv in Hrun as ([] & w2 & Hmod & Hrun).
    injection Hmod as <-.
    destruct (IH _ _ _ Hrun) as (Hs & Hp & Hc & Hidx & Hnon).
    repeat apply conj.
    + exact Hs.
    + exact Hp.
    + exact Hc.
    + intros j. rewrite Hidx.
      change (blockStore (with_headerIndex (<[i:=x]>) w)) with (blockStore w).
      change (headerIndex (with_headerIndex (<[i:=x]>) w))
        with (<[i:=x]> (headerIndex w)).
      destruct (decide (i + 1 <= j < i + 1 + Z.of_nat n)) as [Hj | Hj];
        destruct (decide (i <= j < i + Z.of_nat (S n))) as [Hj' | Hj'];
        try reflexivity; try lia.
      * assert (j = i) as -> by lia. rewrite lookup_insert_eq. symmetry. exact Hx.
      * apply lookup_insert_ne. lia.
    + intros j Hj. destruct (decide (j = i)) as [-> | Hne].
      * exists x. split; assumption.
      * apply (Hnon j). lia.
Qed.

Lemma loadCurrentBlock_ok (w w' : LedgerStoreImp) :
  loadCurrentBlock E w = (Ok tt, w') ->
  exists hash h, bs_current (blockStore w) = Some (hash, h) /\
                 w' = with_currentBlock h hash w.
Proof.
  unfold loadCurrentBlock. intros Hrun.
  apply bind_ok_inv in Hrun as ([hash h] & w1 & Hget & Hrun).
  apply wrap_ok_inv in Hget. unfold blockStore_GetCurrentBlock in Hget.
  destruct (io_fails E _); [discriminate |].
  destruct (bs_current (blockStore w)) as [c |] eqn:Hc; [| discriminate].
  injection Hget as -> <-. injection Hrun as <-.
  exists hash, h. split; reflexivity.
Qed.

Lemma loadHeaderIndexList_ok (w w' : LedgerStoreImp) :
  loadHeaderIndexList E w = (Ok tt, w') ->
  let count := u32 (Z.of_nat (size (bs_headerIndex (blockStore w)))) in
  storesView w' = storesView w /\ pointer w' = pointer w /\
  storedIndexCount w' = count /\
  (forall j, headerIndex w' !! j =
             if decide (count <= j <= currBlockHeight w)
             then bs_blockHash (blockStore w) !! j
             else bs_headerIndex (blockStore w) !! j) /\
  (forall j, count <= j <= currBlockHeight w ->
             exists x, bs_blockHash (blockStore w) !! j = Some x /\
                       x <> UINT256_EMPTY).
Proof.
  unfold loadHeaderIndexList, GetCurrentBlockHeight. intros Hrun.
  apply bind_ok_inv in Hrun as (h & w1 & Hh & Hrun). injection Hh as <- <-.
  apply bind_ok_inv in Hrun as (index & w1 & Hget & Hrun).
  apply wrap_ok_inv in Hget. unfold GetHeaderIndexList in Hget.
  destruct (io_fails E _); [discriminate |]. injection Hget as <- <-.
  apply bind_ok_inv in Hrun as ([] & w1 & Hm & Hrun). injection Hm as <-.
  apply bind_ok_inv in Hrun as ([] & w1 & Hm & Hrun). injection Hm as <-.
  apply loadHeaderIndexLoop_ok in Hrun as (Hs & Hp & Hc & Hidx & Hnon).
  cbv zeta. set (count := u32 (Z.of_nat (size (bs_headerIndex (blockStore w))))) in *.
  repeat apply conj.
  - exact Hs.
  - exact Hp.
  - exact Hc.
  - intros j. rewrite Hidx.
    destruct (decide (count <= j <
                      count + Z.of_nat (Z.to_nat (currBlockHeight w + 1 - count))))
      as [Hj | Hj];
      destruct (decide (count <= j <= currBlockHeight w)) as [Hj' | Hj'];
      try reflexivity; lia.
  - intros j Hj. apply (Hnon j). lia.
Qed.

End ReopenSuccess.

(** X10.  A successful reopening (version marker present) sets the
    in-memory pointer to the block store's current-block marker, finds the
    genesis block in the block store, and rebuilds the header index: the
    persisted index list, extended from its length up to the current height
    with the block hashes of the block store, none of which is the zero
    hash. *)
Theorem reopen_loads_pointer_and_index (E : Env) (genesis : Block)
    (bks : list PublicKey) (w w' : LedgerStoreImp) :
  bs_version (blockStore w) = Some SYSTEM_VERSION ->
  InitLedgerStoreWithGenesisBlock E genesis bks w = (Ok tt, w') ->
  exists hash h,
    bs_current (blockStore w) = Some (hash, h) /\
    pointer w' = (h, hash) /\
    is_Some (bs_blocks (blockStore w) !! BlockHash E genesis) /\
    storedIndexCount w' = u32 (Z.of_nat (size (bs_headerIndex (blockStore w)))) /\
    (forall j, headerIndex w' !! j =
               if decide (storedIndexCount w' <= j <= h)
               then bs_blockHash (blockStore w) !! j
               else bs_headerIndex (blockStore w) !! j) /\
    (forall j, storedIndexCount w' <= j <= h ->
               exists x, headerIndex w' !! j = Some x /\ x <> UINT256_EMPTY).
Proof.
  intros Hv Hrun. unfold InitLedgerStoreWithGenesisBlock in Hrun.
  destruct (hasAlreadyInit_marked E w Hv) as [Hc | [e Hc]];
    [| rewrite (bind_wrap_fail _ _ _ _ _ _ Hc) in Hrun; discriminate].
  rewrite (bind_wrap_ok _ _ _ _ _ _ Hc) in Hrun. cbv beta iota delta [negb] in Hrun.
  apply bind_ok_inv in Hrun as (exist & w1 & Hex & Hrun).
  apply wrap_ok_inv in Hex. unfold ContainBlock in Hex.
  destruct (io_fails E _); [discriminate |]. injection Hex as <- <-.
  destruct (bool_decide_reflect (is_Some (bs_blocks (blockStore w) !! BlockHash E genesis)))
    as [Hgen | _]; [| discriminate].
  cbv beta iota delta [negb] in Hrun.
  apply wrap_ok_inv in Hrun. unfold init in Hrun.
  apply bind_ok_inv in Hrun as ([] & w1 & H1 & Hrun).
  apply wrap_ok_inv, loadCurrentBlock_ok in H1 as (hash & h & Hcur & ->).
  apply bind_ok_inv in Hrun as ([] & w2 & H2 & Hrun).
  apply wrap_ok_inv, loadHeaderIndexList_ok in H2 as (Hs & Hp & Hcount & Hidx & Hnon).
  apply wrap_ok_inv in Hrun.
  pose proof (recoverStore_frame_fields E w2) as Hrec. rewrite Hrun in Hrec.
  destruct Hrec as (Hp' & Hi' & Hc').
  change (blockStore (with_currentBlock h hash w)) with (blockStore w) in *.
  change (currBlockHeight (with_currentBlock h hash w)) with h in *.
  change (pointer (with_currentBlock h hash w)) with (h, hash) in *.
  exists hash, h. simpl in Hp', Hi', Hc'. rewrite Hp', Hc', Hi', Hp, Hcount.
  repeat apply conj; try reflexivity; try assumption.
  intros j Hj. destruct (Hnon j Hj) as (x & Hx & Hnz). exists x.
  split; [| exact Hnz]. rewrite Hidx. destruct (decide _); [exact Hx | lia].
Qed.

(** The toy ledger reopened after a crash: pointer at height 7. *)
Lemma reopen_loads_pointer_and_index_witness :
  exists hash h,
    bs_current (blockStore Toy.crashed) = Some (hash, h) /\
    pointer (snd (InitLedgerStoreWithGenesisBlock Toy.E0 Toy.genesis Toy.keys
                    Toy.crashed)) = (h, hash) /\
    is_Some (bs_blocks (blockStore Toy.crashed) !! BlockHash Toy.E0 Toy.genesis) /\
    storedIndexCount (snd (InitLedgerStoreWithGenesisBlock Toy.E0 Toy.genesis Toy.keys
                             Toy.crashed))
    = u32 (Z.of_nat (size (bs_headerIndex (blockStore Toy.crashed)))) /\
    (forall j, headerIndex (snd (InitLedgerStoreWithGenesisBlock Toy.E0 Toy.genesis
                                   Toy.keys Toy.crashed)) !! j =
               if decide (storedIndexCount
                            (snd (InitLedgerStoreWithGenesisBlock Toy.E0 Toy.genesis
                                    Toy.keys Toy.crashed)) <= j <= h)
               then bs_blockHash (blockStore Toy.crashed) !! j
               else bs_headerIndex (blockStore Toy.crashed) !! j) /\
    (forall j, storedIndexCount
                 (snd (InitLedgerStoreWithGenesisBlock Toy.E0 Toy.genesis Toy.keys
                         Toy.crashed)) <= j <= h ->
               exists x, headerIndex (snd (InitLedgerStoreWithGenesisBlock Toy.E0
                                             Toy.genesis Toy.keys Toy.crashed)) !! j
                         = Some x /\ x <> UINT256_EMPTY).
Proof.
  apply (reopen_loads_pointer_and_index Toy.E0 Toy.genesis Toy.keys Toy.crashed).
  - vm_compute. reflexivity.
  - apply run_ok. vm_compute. reflexivity.
Defined.

(** ** The per-account change hashes *)

Lemma addAccountState_other (s : gmap Address KeyState) (kv : bytes * bytes) :
  isAccountUpdateStore (fst kv) (snd kv) = false -> addAccountState s kv = s.
Proof. destruct kv as [k v]. unfold addAccountState. simpl. intros ->. reflexivity. Qed.

Lemma fold_addAccountState_filter (l : MemDB) :
  forall s,
    fold_left addAccountState
      (List.filter (fun kv => isAccountUpdateStore (fst kv) (snd kv)) l) s
    = fold_left addAccountState l s.
Proof.
  induction l as [| kv l IH]; intros s; [reflexivity |].
  cbn [List.filter fold_left].
  destruct (isAccountUpdateStore (fst kv) (snd kv)) eqn:Hk.
  - cbn [fold_left]. apply IH.
  - rewrite (addAccountState_other s kv Hk). apply IH.
Qed.

Lemma addAccountState_lookup (s : gmap Address KeyState) (k v : bytes) (a : Address) :
  isAccountUpdateStore k v = true ->
  addAccountState s (k, v) !! a =
  if decide (drop (Z.to_nat (ADDR_LEN + 1)) k = a)
  then Some match s !! a with
            | Some item => mkKeyState (Key item) (Value item ++ v)
            | None => mkKeyState a v
            end
  else s !! a.
Proof.
  intros Hk. unfold addAccountState. rewrite Hk. cbn [negb].
  match goal with
  | |- (match ?x with Some _ => _ | None => _ end) !! _ = _ =>
      destruct x as [item |] eqn:Hs
  end.
  - destruct (decide _) as [Ha | Ha].
    + assert (Hs' : s !! a = Some item) by (rewrite <- Ha; exact Hs).
      rewrite Hs', <- Ha. apply lookup_insert_eq.
    + apply lookup_insert_ne. exact Ha.
  - destruct (decide _) as [Ha | Ha].
    + assert (Hs' : s !! a = None) by (rewrite <- Ha; exact Hs).
      rewrite Hs', <- Ha. apply lookup_insert_eq.
    + apply lookup_insert_ne. exact Ha.
Qed.

Lemma fold_addAccountState_lookup (l : MemDB) :
  forall (s : gmap Address KeyState) (a : Address),
    fold_left addAccountState l s !! a =
    match s !! a, accountWrites a l with
    | None, [] => None
    | None, ws => Some (mkKeyState a (concat ws))
    | Some item, ws => Some (mkKeyState (Key item) (Value item ++ concat ws))
    end.
Proof.
  induction l as [| [k v] l IH]; intros s a.
  - cbn. destruct (s !! a) as [[ky vl] |]; [| reflexivity].
    cbn. rewrite app_nil_r. reflexivity.
  - cbn [fold_left]. rewrite IH. unfold accountWrites. cbn [List.filter fst snd].
    destruct (isAccountUpdateStore k v) eqn:Hk; cbn [andb].
    + rewrite (addAccountState_lookup s k v a Hk).
      destruct (decide (drop (Z.to_nat (ADDR_LEN + 1)) k = a)) as [Ha | Ha].
      * rewrite (bool_decide_eq_true_2 _ Ha). cbn [map snd].
        destruct (s !! a) as [item |]; cbn [Key Value concat].
        -- rewrite <- app_assoc. reflexivity.
        -- reflexivity.
      * rewrite (bool_decide_eq_false_2 _ Ha). reflexivity.
    + rewrite (addAccountState_other s (k, v) Hk). reflexivity.
Qed.

(** X11.  [calculateChangeStateRoot] looks only at the entries whose key
    is 41 bytes long: dropping every other entry from the cache leaves its
    result as it is. *)
Theorem calculateChangeStateRoot_ignores_other_keys (E : Env) (cache : CacheDB) :
  calculateChangeStateRoot E
    (mkCacheDB (List.filter (fun kv => len (fst kv) =? 41) (cache_memdb cache)))
  = calculateChangeStateRoot E cache.
Proof.
  unfold calculateChangeStateRoot. cbn [cache_memdb].
  change (List.filter (fun kv => len (fst kv) =? 41) (cache_memdb cache))
    with (List.filter (fun kv : bytes * bytes => isAccountUpdateStore (fst kv) (snd kv))
            (cache_memdb cache)).
  rewrite fold_addAccountState_filter. reflexivity.
Qed.

(** X12.  The map [states] built by the [ForEach] callback holds, for each
    account, one entry whose value is the concatenation, in memdb order, of
    the values of all entries whose 41-byte key ends with that account,
    whatever contract they belong to; an account without such an entry has
    none. *)
Theorem account_state_is_concatenation (memdb : MemDB) (a : Address) :
  fold_left addAccountState memdb ∅ !! a =
  match accountWrites a memdb with
  | [] => None
  | ws => Some (mkKeyState a (concat ws))
  end.
Proof. rewrite fold_addAccountState_lookup, lookup_empty. reflexivity. Qed.



(** ** What a committed block leaves in the state and event stores *)

Section Persisted.

Context (E : Env).

Lemma fold_left_snoc {A B} (f : A -> B -> A) (l : list B) (x : B) (a : A) :
  fold_left f (l ++ [x]) a = f (fold_left f l a) x.
Proof. rewrite fold_left_app. reflexivity. Qed.

Lemma ss_raw_writes (ws : MemDB) (s : StateStore) (k : bytes) :
  ss_raw (fold_left applyStateWrite (map writeSetOp ws) s) !! k =
  match lastWrite k ws with
  | Some kv => if len (snd kv) =? 0 then None else Some (snd kv)
  | None => ss_raw s !! k
  end.
Proof.
  unfold lastWrite. induction ws as [| kv ws IH] using rev_ind; [reflexivity |].
  rewrite map_app, rev_app_distr. cbn [map app rev List.find].
  rewrite fold_left_snoc.
  destruct (decide (fst kv = k)) as [Hk | Hk].
  - rewrite (bool_decide_eq_true_2 _ Hk). unfold writeSetOp.
    destruct (len (snd kv) =? 0); cbn [applyStateWrite ss_raw]; rewrite Hk.
    + apply lookup_delete_eq.
    + apply lookup_insert_eq.
  - rewrite (bool_decide_eq_false_2 _ Hk), <- IH. unfold writeSetOp.
    destruct (len (snd kv) =? 0); cbn [applyStateWrite ss_raw].
    + apply lookup_delete_ne. exact Hk.
    + apply lookup_insert_ne. exact Hk.
Qed.

Lemma ss_raw_submitted (b : Block) (res : ExecuteResult) (w : LedgerStoreImp)
    (k : bytes) :
  ss_raw (ss_commit_with (stateBatchOf E b res) (stateStore (submitBase E b w))) !! k =
  match lastWrite k (WriteSet res) with
  | Some kv => if len (snd kv) =? 0 then None else Some (snd kv)
  | None => ss_raw (stateStore w) !! k
  end.
Proof.
  rewrite stateStore_base. unfold ss_commit_with, stateBatchOf.
  change (ss_batch (ss_newBatch (stateStore w))) with (@nil StateWrite).
  rewrite app_nil_l, fold_left_app.
  set (s4 := fold_left applyStateWrite _ (ss_newBatch (stateStore w))).
  transitivity (ss_raw (fold_left applyStateWrite (map writeSetOp (WriteSet res)) s4) !! k);
    [reflexivity |].
  rewrite ss_raw_writes. reflexivity.
Qed.

Lemma es_byTx_notifies (ns : list ExecuteNotify) (s : EventStore) (x : Uint256) :
  es_byTx (fold_left applyEventWrite
             (map (fun n => EWNotifyByTx (NTxHash n) n) ns) s) !! x =
  match List.find (fun n => bool_decide (NTxHash n = x)) (rev ns) with
  | Some n => Some n
  | None => es_byTx s !! x
  end.
Proof.
  induction ns as [| n ns IH] using rev_ind; [reflexivity |].
  rewrite map_app, rev_app_distr. cbn [map app rev List.find].
  rewrite fold_left_snoc. cbn [applyEventWrite es_byTx].
  destruct (decide (NTxHash n = x)) as [Hk | Hk].
  - rewrite (bool_decide_eq_true_2 _ Hk), Hk. apply lookup_insert_eq.
  - rewrite (bool_decide_eq_false_2 _ Hk), <- IH. apply lookup_insert_ne. exact Hk.
Qed.

Lemma es_byTx_submitted (b : Block) (res : ExecuteResult) (w : LedgerStoreImp)
    (x : Uint256) :
  es_byTx (es_commit_with (eventBatchOf E b res) (eventStore (submitBase E b w))) !! x =
  match List.find (fun n => bool_decide (NTxHash n = x)) (rev (Notify res)) with
  | Some n => Some n
  | None => es_byTx (eventStore w) !! x
  end.
Proof.
  rewrite eventStore_base. unfold es_commit_with, eventBatchOf.
  change (es_batch (es_newBatch (eventStore w))) with (@nil EventWrite).
  rewrite app_nil_l, !fold_left_app.
  transitivity (es_byTx (fold_left applyEventWrite
                           (map (fun n => EWNotifyByTx (NTxHash n) n) (Notify res))
                           (es_newBatch (eventStore w))) !! x).
  - destruct (len (map (TxHash E) (Transactions b)) >? 0); reflexivity.
  - rewrite es_byTx_notifies. reflexivity.
Qed.









End Persisted.

(** X14.  What a successfully committed block leaves in the state store
    and the layer2 store: the state root and the transactions root are
    appended, the account hashes are filed under the block height, the
    bookkeeper state is untouched, the layer2 message (a [nil] one
    included) is appended, and the write set is applied in order: for every
    key the last write wins, an empty value deleting the key. *)
Theorem committed_block_in_state_store (E : Env) (b : Block) (l2 : option Layer2State)
    (res : ExecuteResult) (w w' : LedgerStoreImp) :
  submitBlock E b l2 res w = (Ok tt, w') ->
  ss_stateRoots (stateStore w') =
    ss_stateRoots (stateStore w) ++ [(Height (BHeader b), RHash res)] /\
  ss_blockRoots (stateStore w') =
    ss_blockRoots (stateStore w) ++ [TransactionsRoot (BHeader b)] /\
  ss_layer2 (stateStore w') !! Height (BHeader b) = Some (UpdatedAccountState res) /\
  ss_bookkeeper (stateStore w') = ss_bookkeeper (stateStore w) /\
  layer2Store w' = layer2Store w ++ [l2] /\
  (forall k, ss_raw (stateStore w') !! k =
             match lastWrite k (WriteSet res) with
             | Some kv => if len (snd kv) =? 0 then None else Some (snd kv)
             | None => ss_raw (stateStore w) !! k
             end).
Proof.
  intros Hsub.
  destruct (submitBlock_success_state E b l2 res w w' Hsub)
    as (_ & Hss & _ & Hl2 & _).
  destruct (stateStore_submitted E b res w) as (_ & H2 & H3 & H4 & H5).
  rewrite Hss, H2, H3, H4, H5, Hl2.
  repeat apply conj; try reflexivity.
  - apply lookup_insert_eq.
  - intros k. apply ss_raw_submitted.
Qed.

Lemma committed_block_in_state_store_witness :
  ss_stateRoots (stateStore (snd (submitBlock Toy.E0 (Toy.block 1) None emptyResult
                                    (Toy.chain 0)))) =
    ss_stateRoots (stateStore (Toy.chain 0)) ++
      [(Height (BHeader (Toy.block 1)), RHash emptyResult)].
Proof.
  apply (committed_block_in_state_store Toy.E0 (Toy.block 1) None emptyResult
           (Toy.chain 0)).
  apply run_ok. vm_compute. reflexivity.
Defined.

(** X15.  What a successfully committed block leaves in the event store:
    every notification of the result is filed under its transaction hash
    (the last one, when several carry the same hash), the other entries are
    kept, and the list of transaction hashes is filed under the block
    height unless the block has no transaction. *)
Theorem committed_block_in_event_store (E : Env) (b : Block) (l2 : option Layer2State)
    (res : ExecuteResult) (w w' : LedgerStoreImp) :
  submitBlock E b l2 res w = (Ok tt, w') ->
  (forall x, es_byTx (eventStore w') !! x =
             match List.find (fun n => bool_decide (NTxHash n = x)) (rev (Notify res)) with
             | Some n => Some n
             | None => es_byTx (eventStore w) !! x
             end) /\
  (Transactions b <> [] ->
   es_byBlock (eventStore w') !! Height (BHeader b) =
     Some (map (TxHash E) (Transactions b))) /\
  (Transactions b = [] -> es_byBlock (eventStore w') = es_byBlock (eventStore w)).
Proof.
  intros Hsub.
  destruct (submitBlock_success_state E b l2 res w w' Hsub)
    as (_ & _ & Hes & _).
  destruct (eventStore_submitted E b res w) as (_ & H2).
  rewrite Hes, H2. repeat apply conj.
  - intros x. apply es_byTx_submitted.
  - intros Hne. destruct (Transactions b) as [| tx txs]; [contradiction |].
    change (len (map (TxHash E) (tx :: txs)))
      with (Z.of_nat (S (length (map (TxHash E) txs)))).
    destruct (Z.gtb_spec (Z.of_nat (S (length (map (TxHash E) txs)))) 0); [| lia].
    apply lookup_insert_eq.
  - intros ->. reflexivity.
Qed.

Lemma committed_block_in_event_store_witness :
  (forall x, es_byTx (eventStore (snd (submitBlock Toy.E0 (Toy.block 1) None emptyResult
                                         (Toy.chain 0)))) !! x =
             match List.find (fun n => bool_decide (NTxHash n = x))
                     (rev (Notify emptyResult)) with
             | Some n => Some n
             | None => es_byTx (eventStore (Toy.chain 0)) !! x
             end) /\
  (Transactions (Toy.block 1) <> [] ->
   es_byBlock (eventStore (snd (submitBlock Toy.E0 (Toy.block 1) None emptyResult
                                  (Toy.chain 0)))) !! Height (BHeader (Toy.block 1)) =
     Some (map (TxHash Toy.E0) (Transactions (Toy.block 1)))) /\
  (Transactions (Toy.block 1) = [] ->
   es_byBlock (eventStore (snd (submitBlock Toy.E0 (Toy.block 1) None emptyResult
                                  (Toy.chain 0))))
   = es_byBlock (eventStore (Toy.chain 0))).
Proof.
  apply (committed_block_in_event_store Toy.E0 (Toy.block 1) None emptyResult
           (Toy.chain 0)).
  apply run_ok. vm_compute. reflexivity.
Defined.



(** ** Block roots and header heights *)

(** X17.  [GetBlockRootWithNewTxRoots], with [txRoots] the transaction
    roots of the heights [startHeight, startHeight + 1, ...]: when the
    arithmetic does not wrap around, the result is the zero hash if the
    roots end below the current height or start above the next one;
    otherwise the slice index is within bounds and the state store is asked
    with exactly the roots of the heights above the current one. *)
Theorem GetBlockRootWithNewTxRoots_needs (E : Env) (startHeight : Z)
    (txRoots : list Uint256) (w : LedgerStoreImp) :
  is_u32 startHeight -> 0 <= currBlockHeight w -> is_u32 (currBlockHeight w + 1) ->
  1 <= startHeight + len txRoots <= 2 ^ 32 ->
  GetBlockRootWithNewTxRoots E startHeight txRoots w =
    (Ok (if (startHeight + len txRoots - 1 <? currBlockHeight w)
            || (currBlockHeight w + 1 <? startHeight)
         then UINT256_EMPTY
         else StateGetBlockRootWithNewTxRoots E (stateStore w)
                (drop (Z.to_nat (currBlockHeight w + 1 - startHeight)) txRoots)), w) /\
  ((startHeight + len txRoots - 1 <? currBlockHeight w)
   || (currBlockHeight w + 1 <? startHeight) = false ->
   0 <= currBlockHeight w + 1 - startHeight <= len txRoots).
Proof.
  intros Hs Hc0 Hc Hl. unfold is_u32 in *.
  assert (Hend : u32 (u32 (startHeight + u32 (len txRoots)) - 1)
                 = startHeight + len txRoots - 1).
  { unfold u32. rewrite Zplus_mod_idemp_r, Zminus_mod_idemp_l.
    apply Z.mod_small. lia. }
  assert (Hnext : u32 (currBlockHeight w + 1) = currBlockHeight w + 1)
    by (apply Z.mod_small; lia).
  split.
  - unfold GetBlockRootWithNewTxRoots.
    cbv beta iota zeta delta [bind gets ret]. rewrite Hend, Hnext.
    rewrite Z.gtb_ltb.
    destruct (Z.ltb_spec (startHeight + len txRoots - 1) (currBlockHeight w));
      [reflexivity |].
    destruct (Z.ltb_spec (currBlockHeight w + 1) startHeight); [reflexivity |].
    cbn [orb]. unfold u32. rewrite Z.mod_small by lia. reflexivity.
  - intros Hg. apply orb_false_elim in Hg as [H1 H2].
    apply Z.ltb_ge in H1, H2. lia.
Qed.

Lemma GetBlockRootWithNewTxRoots_needs_witness :
  GetBlockRootWithNewTxRoots Toy.E0 3 [53] (Toy.chain 2) =
    (Ok (if (3 + len [53] - 1 <? currBlockHeight (Toy.chain 2))
            || (currBlockHeight (Toy.chain 2) + 1 <? 3)
         then UINT256_EMPTY
         else StateGetBlockRootWithNewTxRoots Toy.E0 (stateStore (Toy.chain 2))
                (drop (Z.to_nat (currBlockHeight (Toy.chain 2) + 1 - 3)) [53])),
     Toy.chain 2) /\
  ((3 + len [53] - 1 <? currBlockHeight (Toy.chain 2))
   || (currBlockHeight (Toy.chain 2) + 1 <? 3) = false ->
   0 <= currBlockHeight (Toy.chain 2) + 1 - 3 <= len [53]).
Proof.
  apply (GetBlockRootWithNewTxRoots_needs Toy.E0 3 [53] (Toy.chain 2)).
  - u32_concrete.
  - vm_compute. discriminate.
  - u32_concrete.
  - vm_compute. split; discriminate.
Defined.

(** X18.  [submitBlock] checks the block root before it touches anything:
    for the next height, a header whose block root is not the one the state
    store computes from the stored roots and the block's transactions root
    makes it fail at once, the ledger unchanged. *)
Theorem submitBlock_checks_block_root (E : Env) (b : Block) (l2 : option Layer2State)
    (res : ExecuteResult) (w : LedgerStoreImp) :
  0 <= currBlockHeight w -> is_u32 (currBlockHeight w + 1) ->
  Height (BHeader b) = currBlockHeight w + 1 ->
  BlockRoot (BHeader b) <>
    StateGetBlockRootWithNewTxRoots E (stateStore w) [TransactionsRoot (BHeader b)] ->
  submitBlock E b l2 res w = (Fail (Errorf "wrong block root at height"), w).
Proof.
  intros Hc0 Hc Hh Hroot. unfold is_u32 in Hc.
  assert (Hget : GetBlockRootWithNewTxRoots E (Height (BHeader b))
                   [TransactionsRoot (BHeader b)] w =
                 (Ok (StateGetBlockRootWithNewTxRoots E (stateStore w)
                        [TransactionsRoot (BHeader b)]), w)).
  { unfold GetBlockRootWithNewTxRoots. cbv beta iota zeta delta [bind gets ret].
    change (len [TransactionsRoot (BHeader b)]) with 1. rewrite Hh.
    change (u32 1) with 1.
    assert (Hu : forall x, 0 <= x < 2 ^ 32 -> u32 x = x)
      by (intros x Hx; apply Z.mod_small; exact Hx).
    assert (Hend : u32 (u32 (currBlockHeight w + 1 + 1) - 1) = currBlockHeight w + 1).
    { unfold u32. rewrite Zminus_mod_idemp_l.
      replace (currBlockHeight w + 1 + 1 - 1) with (currBlockHeight w + 1) by lia.
      apply Z.mod_small. lia. }
    rewrite Hend, (Hu (currBlockHeight w + 1)) by lia.
    replace (currBlockHeight w + 1 - (currBlockHeight w + 1)) with 0 by lia.
    destruct (Z.gtb_spec (currBlockHeight w) (currBlockHeight w + 1)); [lia |].
    destruct (Z.ltb_spec (currBlockHeight w + 1) (currBlockHeight w + 1)); [lia |].
    reflexivity. }
  unfold submitBlock. cbv beta iota zeta delta [bind]. rewrite Hget.
  destruct (Z.eqb_spec (Height (BHeader b)) 0) as [| _]; [lia |].
  destruct (Z.eqb_spec
              (StateGetBlockRootWithNewTxRoots E (stateStore w)
                 [TransactionsRoot (BHeader b)])
              (BlockRoot (BHeader b))) as [Heq | _];
    [exfalso; apply Hroot; symmetry; exact Heq |].
  reflexivity.
Qed.

Lemma submitBlock_checks_block_root_witness :
  submitBlock Toy.E0
    (mkBlock (mkHeader 1 1000 101 51 77 Toy.keys Toy.keys [[1]; [2]; [3]]) [])
    None emptyResult (Toy.chain 0)
  = (Fail (Errorf "wrong block root at height"), Toy.chain 0).
Proof.
  apply (submitBlock_checks_block_root Toy.E0
           (mkBlock (mkHeader 1 1000 101 51 77 Toy.keys Toy.keys [[1]; [2]; [3]]) [])
           None emptyResult (Toy.chain 0)).
  - vm_compute. discriminate.
  - u32_concrete.
  - vm_compute. reflexivity.
  - vm_compute. discriminate.
Defined.




(** * Properties of the transaction builder *)

Section BuilderProofs.

Import TxBuilder.

(** Induction on parameters, the elements of lists and the fields of
    structs included. *)
Lemma Param_nested_ind (P : Param -> Prop) :
  (forall v,
     match v with
     | PList l | PSlice l => Forall P l
     | PStruct fields => Forall (fun f => P (snd f)) fields
     | _ => True
     end -> P v) ->
  forall v, P v.
Proof.
  intros H. fix IH 1. intros v. apply H. destruct v as
    [| | | | | | | | | | | | | | l | l | fields |]; try exact I.
  - induction l as [| x l IHl]; constructor; [apply IH | exact IHl].
  - induction l as [| x l IHl]; constructor; [apply IH | exact IHl].
  - induction fields as [| [e x] fields IHl]; constructor; [apply IH | exact IHl].
Qed.

Lemma appends_buildReversed (l : list Param) :
  Forall (fun v => appends (buildOne v)) l -> appends (buildReversed buildOne l).
Proof.
  induction 1 as [| v l [o [e Hv]] _ [o' [e' IH]]].
  - exists Done, []. intros builder. cbn. rewrite app_nil_r. reflexivity.
  - destruct o' as [| |].
    + exists o, (e' ++ e). intros builder. cbn. rewrite IH, Hv, app_assoc. reflexivity.
    + exists Unsupported, e'. intros builder. cbn. rewrite IH. reflexivity.
    + exists Panicked, e'. intros builder. cbn. rewrite IH. reflexivity.
Qed.

Lemma appends_pack (n : Z) (f : ParamsBuilder -> Outcome * ParamsBuilder) :
  appends f -> appends (fun builder => pack n (f builder)).
Proof.
  intros [o [e Hf]]. destruct o as [| |].
  - exists Done, (e ++ [EmitPushInteger (int64 n); EmitOp PACK]). intros builder.
    rewrite Hf. cbn. rewrite app_assoc. reflexivity.
  - exists Unsupported, e. intros builder. rewrite Hf. reflexivity.
  - exists Panicked, e. intros builder. rewrite Hf. reflexivity.
Qed.

Lemma appends_buildFields (fields : list (bool * Param)) :
  Forall (fun f => appends (buildOne (snd f))) fields ->
  appends (buildFields buildOne fields).
Proof.
  induction 1 as [| [exported v] fields [o [e Hv]] _ [o' [e' IH]]].
  - exists Done, []. intros builder. cbn. rewrite app_nil_r. reflexivity.
  - destruct exported; cbn [negb buildFields snd] in *.
    + destruct o as [| |].
      * exists o', (e ++ [EmitOp DUPFROMALTSTACK; EmitOp SWAP; EmitOp APPEND] ++ e').
        intros builder. rewrite Hv, IH, <- !app_assoc. reflexivity.
      * exists Unsupported, e. intros builder. rewrite Hv. reflexivity.
      * exists Panicked, e. intros builder. rewrite Hv. reflexivity.
    + exists Panicked, []. intros builder. rewrite app_nil_r. reflexivity.
Qed.

Lemma appends_buildOne (v : Param) : appends (buildOne v).
Proof.
  induction v as [v IH] using Param_nested_ind.
  destruct v as [b | x | x | x | x | x | x | x | x | s | x | b | a | u
                 | l | l | fields |];
    try (eexists Done, [_]; intros builder; reflexivity).
  - apply (appends_pack (len l) (buildReversed buildOne l)), appends_buildReversed, IH.
  - apply (appends_pack (len l) (buildReversed buildOne l)), appends_buildReversed, IH.
  - destruct (appends_buildFields fields IH) as [o [e Hf]]. destruct o as [| |].
    + exists Done,
        ([EmitPushInteger 0; EmitOp NEWSTRUCT; EmitOp TOALTSTACK] ++ e
         ++ [EmitOp FROMALTSTACK]).
      intros builder. cbn [buildOne]. rewrite Hf, <- !app_assoc. reflexivity.
    + exists Unsupported, ([EmitPushInteger 0; EmitOp NEWSTRUCT; EmitOp TOALTSTACK] ++ e).
      intros builder. cbn [buildOne]. rewrite Hf, <- !app_assoc. reflexivity.
    + exists Panicked, ([EmitPushInteger 0; EmitOp NEWSTRUCT; EmitOp TOALTSTACK] ++ e).
      intros builder. cbn [buildOne]. rewrite Hf, <- !app_assoc. reflexivity.
  - exists Unsupported, []. intros builder. cbn. rewrite app_nil_r. reflexivity.
Qed.

Lemma done_buildReversed (l : list Param) (builder : ParamsBuilder) :
  Forall (fun v => forall bd, fst (buildOne v bd) = Done <-> supported v = true) l ->
  fst (buildReversed buildOne l builder) = Done <-> forallb supported l = true.
Proof.
  induction 1 as [| v l Hv _ IH]; [cbn; tauto |].
  cbn [buildReversed forallb]. rewrite andb_true_iff, <- IH.
  destruct (buildReversed buildOne l builder) as [[| |] bd1]; cbn [fst].
  - rewrite Hv. tauto.
  - split; [discriminate | intros [_ Habs]; discriminate].
  - split; [discriminate | intros [_ Habs]; discriminate].
Qed.

Lemma done_pack (n : Z) (r : Outcome * ParamsBuilder) :
  fst (pack n r) = Done <-> fst r = Done.
Proof. destruct r as [[| |] bd]; cbn; tauto. Qed.

Lemma done_buildFields (fields : list (bool * Param)) :
  Forall (fun f => forall bd, fst (buildOne (snd f) bd) = Done <->
                              supported (snd f) = true) fields ->
  forall builder,
    fst (buildFields buildOne fields builder) = Done <->
    forallb (fun f => fst f && supported (snd f)) fields = true.
Proof.
  induction 1 as [| [exported v] fields Hv _ IH]; intros builder; [cbn; tauto |].
  cbn [buildFields forallb fst snd] in *. rewrite !andb_true_iff.
  destruct exported; cbn [negb].
  - specialize (Hv builder).
    destruct (buildOne v builder) as [[| |] bd1]; cbn [fst] in *.
    + rewrite IH. tauto.
    + split; [discriminate |]. intros [[_ Hs] _]. apply Hv in Hs. discriminate.
    + split; [discriminate |]. intros [[_ Hs] _]. apply Hv in Hs. discriminate.
  - cbn. split; [discriminate | intros [[Habs _] _]; discriminate].
Qed.

Lemma done_buildOne (v : Param) :
  forall builder, fst (buildOne v builder) = Done <-> supported v = true.
Proof.
  induction v as [v IH] using Param_nested_ind.
  destruct v as [b | x | x | x | x | x | x | x | x | s | x | b | a | u
                 | l | l | fields |];
    intros builder; try (cbn; tauto).
  - cbn [buildOne supported]. rewrite done_pack. apply done_buildReversed, IH.
  - cbn [buildOne supported]. rewrite done_pack. apply done_buildReversed, IH.
  - cbn [buildOne supported].
    rewrite <- (done_buildFields fields IH
                  (builder ++ [EmitPushInteger 0; EmitOp NEWSTRUCT; EmitOp TOALTSTACK])).
    destruct (buildFields buildOne fields _) as [[| |] bd1]; cbn; tauto.
  - cbn. split; discriminate.
Qed.

End BuilderProofs.

(** X20.  [BuildNeoVMParam] builds the parameters from the last to the
    first: building [ps1 ++ ps2] is building [ps2] and then, on the builder
    this leaves, [ps1]; when [ps2] stops with an error, [ps1] is not looked
    at. *)
Theorem BuildNeoVMParam_reverse_order (ps1 ps2 : list TxBuilder.Param)
    (builder : TxBuilder.ParamsBuilder) :
  TxBuilder.BuildNeoVMParam (ps1 ++ ps2) builder =
  match TxBuilder.BuildNeoVMParam ps2 builder with
  | (TxBuilder.Done, builder') => TxBuilder.BuildNeoVMParam ps1 builder'
  | stopped => stopped
  end.
Proof.
  unfold TxBuilder.BuildNeoVMParam.
  induction ps1 as [| v ps1 IH]; cbn [app TxBuilder.buildReversed].
  - destruct (TxBuilder.buildReversed TxBuilder.buildOne ps2 builder) as [[| |] bd];
      reflexivity.
  - rewrite IH.
    destruct (TxBuilder.buildReversed TxBuilder.buildOne ps2 builder) as [[| |] bd];
      reflexivity.
Qed.

(** X21.  [BuildNeoVMParam] only appends to the builder, and neither what
    it appends nor how it ends depends on what the builder already holds. *)
Theorem BuildNeoVMParam_appends (ps : list TxBuilder.Param) :
  exists outcome emitted,
    forall builder,
      TxBuilder.BuildNeoVMParam ps builder = (outcome, builder ++ emitted).
Proof.
  apply appends_buildReversed. apply Forall_forall. intros v _.
  apply appends_buildOne.
Qed.

(** X22.  [BuildNeoVMParam] returns [nil] exactly when every parameter is
    supported: at no depth a value of a kind the type switch does not take
    nor a struct with an unexported field. *)
Theorem BuildNeoVMParam_done_iff_supported (ps : list TxBuilder.Param)
    (builder : TxBuilder.ParamsBuilder) :
  fst (TxBuilder.BuildNeoVMParam ps builder) = TxBuilder.Done <->
  forallb TxBuilder.supported ps = true.
Proof.
  apply done_buildReversed. apply Forall_forall. intros v _. apply done_buildOne.
Qed.

(** X23.  A [uint] goes through [int64]: from [2^63] on it is pushed as the
    negative number [v - 2^64], whereas the same value as a [uint64] is
    pushed as it is; below [2^63] both push the value. *)
Theorem uint_pushed_through_int64 (v : Z) (builder : TxBuilder.ParamsBuilder) :
  0 <= v < 2 ^ 64 ->
  TxBuilder.BuildNeoVMParam [TxBuilder.PUint v] builder =
    (TxBuilder.Done,
     builder ++ [TxBuilder.EmitPushInteger (if v <? 2 ^ 63 then v else v - 2 ^ 64)]) /\
  TxBuilder.BuildNeoVMParam [TxBuilder.PUint64 v] builder =
    (TxBuilder.Done, builder ++ [TxBuilder.EmitPushInteger v]).
Proof.
  intros Hv. split; [| reflexivity].
  unfold TxBuilder.BuildNeoVMParam. cbn [TxBuilder.buildReversed TxBuilder.buildOne].
  do 3 f_equal. unfold TxBuilder.int64.
  assert (H64 : 2 ^ 64 = 2 * 2 ^ 63) by reflexivity.
  assert (Hp : 0 < 2 ^ 63) by reflexivity.
  rewrite H64 in *. set (P := 2 ^ 63) in *. clearbody P.
  destruct (Z.ltb_spec v P) as [Hlt | Hge].
  - rewrite Z.mod_small by lia. f_equal. lia.
  - replace (v + P) with (v - P + 1 * (2 * P)) by lia.
    rewrite Z.mod_add by lia. rewrite Z.mod_small by lia. f_equal. lia.
Qed.

Lemma uint_pushed_through_int64_witness :
  TxBuilder.BuildNeoVMParam [TxBuilder.PUint (2 ^ 63)] [] =
    (TxBuilder.Done,
     [] ++ [TxBuilder.EmitPushInteger (if 2 ^ 63 <? 2 ^ 63 then 2 ^ 63
                                       else 2 ^ 63 - 2 ^ 64)]) /\
  TxBuilder.BuildNeoVMParam [TxBuilder.PUint64 (2 ^ 63)] [] =
    (TxBuilder.Done, [] ++ [TxBuilder.EmitPushInteger (2 ^ 63)]).
Proof.
  apply (uint_pushed_through_int64 (2 ^ 63) []).
  split; [vm_compute; discriminate | vm_compute; reflexivity].
Defined.

(** X24.  [BuildNeoVMInvokeCode] returns a code exactly when every
    parameter is supported, and the code is then the encoding of the
    parameters, built on an empty builder, followed by the byte [0x67] and
    the contract address; otherwise it returns no code. *)
Theorem BuildNeoVMInvokeCode_code (ToArray : TxBuilder.ParamsBuilder -> bytes)
    (addr : Address) (ps : list TxBuilder.Param) :
  if forallb TxBuilder.supported ps
  then TxBuilder.BuildNeoVMInvokeCode ToArray addr ps =
         (TxBuilder.Done,
          Some (ToArray (snd (TxBuilder.BuildNeoVMParam ps [])) ++ 103 :: addr))
  else snd (TxBuilder.BuildNeoVMInvokeCode ToArray addr ps) = None /\
       fst (TxBuilder.BuildNeoVMInvokeCode ToArray addr ps) <> TxBuilder.Done.
Proof.
  assert (Hiff : fst (TxBuilder.BuildNeoVMParam ps []) = TxBuilder.Done <->
                 forallb TxBuilder.supported ps = true).
  { apply done_buildReversed. apply Forall_forall. intros v _. apply done_buildOne. }
  unfold TxBuilder.BuildNeoVMInvokeCode.
  destruct (TxBuilder.BuildNeoVMParam ps []) as [o bd]. cbn [fst snd] in *.
  destruct (forallb TxBuilder.supported ps).
  - rewrite (proj2 Hiff eq_refl), <- app_assoc. reflexivity.
  - destruct o as [| |].
    + pose proof (proj1 Hiff eq_refl). discriminate.
    + split; [reflexivity | discriminate].
    + split; [reflexivity | discriminate].
Qed.

(** X25.  [BuildNativeTransaction] is an invoke transaction with the
    largest gas limit whose code is the one [BuildNativeInvokeCode] builds
    for version 0 and the arguments as a single byte-array parameter. *)
Theorem BuildNativeTransaction_code (ToArray : TxBuilder.ParamsBuilder -> bytes)
    (addr : Address) (initMethod args : bytes) :
  TxBuilder.BuildNativeInvokeCode ToArray addr 0 initMethod [TxBuilder.PBytes args] =
    (TxBuilder.Done,
     Some (TxBuilder.MPayload
             (TxBuilder.BuildNativeTransaction ToArray addr initMethod args))) /\
  TxBuilder.MTxType (TxBuilder.BuildNativeTransaction ToArray addr initMethod args)
    = InvokeNeo /\
  TxBuilder.GasLimit (TxBuilder.BuildNativeTransaction ToArray addr initMethod args)
    = TxBuilder.MaxUint64.
Proof. repeat apply conj; reflexivity. Qed.

(** * Properties of pre-execution *)

Lemma bytes_compare_eq (a : bytes) :
  forall b, bytes_compare a b = Eq <-> a = b.
Proof.
  induction a as [| x a IH]; intros [| y b]; cbn; try (split; [discriminate | discriminate]).
  - tauto.
  - destruct (Z.compare_spec x y) as [-> | Hlt | Hgt].
    + rewrite IH. split; [intros ->; reflexivity | intros [= ->]; reflexivity].
    + split; [discriminate | intros [= -> _]; lia].
    + split; [discriminate | intros [= -> _]; lia].
Qed.

Lemma GetHeaderByHeight_typed (E : Env) (h : Z) (w : LedgerStoreImp) :
  GetHeaderByHeight E h w <> (None, None).
Proof.
  unfold GetHeaderByHeight, GetBlockHash, getHeaderIndex, gets, GetHeaderByHash,
    blockStore_GetHeader.
  destruct (io_fails E _); [discriminate |].
  destruct (_ !! _); discriminate.
Qed.

(** The guard of the deployment case is the test that the code starts
    with the wasm magic and version. *)
Lemma wasm_guard (code : bytes) :
  (len code >=? len wasmMagicversion) &&
  match bytes_compare wasmMagicversion (take 8 code) with
  | Eq => true
  | _ => false
  end = bool_decide (take 8 code = wasmMagicversion).
Proof.
  destruct (bool_decide_reflect (take 8 code = wasmMagicversion)) as [Heq | Hne].
  - assert (Hlen : 8 <= len code).
    { apply (f_equal (@length Z)) in Heq. rewrite length_take in Heq.
      change (length wasmMagicversion) with 8%nat in Heq. unfold len. lia. }
    rewrite Heq. change (len wasmMagicversion) with 8.
    destruct (Z.geb_spec (len code) 8); [| lia].
    rewrite (proj2 (bytes_compare_eq wasmMagicversion wasmMagicversion) eq_refl).
    reflexivity.
  - destruct (bytes_compare wasmMagicversion (take 8 code)) eqn:Hc;
      try apply andb_false_r.
    apply bytes_compare_eq in Hc. exfalso. apply Hne. symmetry. exact Hc.
Qed.

(** X26.  Pre-execution of a transaction that is not an invocation never
    runs the engine: a deployment is refused, with the failure result,
    exactly when its code starts with the eight bytes of the wasm magic and
    version, and otherwise succeeds with the gas of a contract creation plus
    the gas by code length; any other transaction type is a "transaction type
    error".  The ledger state plays no part. *)
Theorem PreExecute_without_engine (E : Env) (P : PreEnv) (tx : Transaction)
    (preParam : PrexecuteParam) (w : LedgerStoreImp) :
  TxType tx <> InvokeNeo ->
  PreExecuteContractWithParam E P tx preParam w =
  Some
    match TxType tx with
    | Deploy =>
        if bool_decide (take 8 (Payload tx) = wasmMagicversion)
        then (stf P,
              Some (Errorf "this code is wasm binary. can not deployed as neo contract"))
        else (mkPreExecResult CONTRACT_STATE_SUCCESS
                (u64 (gasOf (preExecGasTable P preParam) (CONTRACT_CREATE_NAME P) +
                      calcGasByCodeLen P (len (Payload tx))
                        (gasOf (preExecGasTable P preParam)
                           (UINT_DEPLOY_CODE_LEN_NAME P))))
                None [], None)
    | _ => (stf P, Some (Errorf "transaction type error"))
    end.
Proof.
  intros Hty. unfold PreExecuteContractWithParam. cbv zeta.
  pose proof (GetHeaderByHeight_typed E (currBlockHeight w) w) as Hh.
  destruct (GetHeaderByHeight E (currBlockHeight w) w) as [[hdr |] [e |]];
    try contradiction;
    (destruct (TxType tx) as [| | c]; [| contradiction | reflexivity]);
    rewrite wasm_guard;
    destruct (bool_decide (take 8 (Payload tx) = wasmMagicversion)); reflexivity.
Qed.

Lemma PreExecute_without_engine_witness :
  PreExecuteContractWithParam Toy.E0 Toy.pre (Toy.deploy [0; 97; 115; 109; 1; 0; 0; 0; 9])
    (mkPrexecuteParam false 0 true) (Toy.chain 1) =
  Some
    match TxType (Toy.deploy [0; 97; 115; 109; 1; 0; 0; 0; 9]) with
    | Deploy =>
        if bool_decide (take 8 (Payload (Toy.deploy [0; 97; 115; 109; 1; 0; 0; 0; 9]))
                        = wasmMagicversion)
        then (stf Toy.pre,
              Some (Errorf "this code is wasm binary. can not deployed as neo contract"))
        else (mkPreExecResult CONTRACT_STATE_SUCCESS
                (u64 (gasOf (preExecGasTable Toy.pre (mkPrexecuteParam false 0 true))
                        (CONTRACT_CREATE_NAME Toy.pre) +
                      calcGasByCodeLen Toy.pre
                        (len (Payload (Toy.deploy [0; 97; 115; 109; 1; 0; 0; 0; 9])))
                        (gasOf (preExecGasTable Toy.pre (mkPrexecuteParam false 0 true))
                           (UINT_DEPLOY_CODE_LEN_NAME Toy.pre))))
                None [], None)
    | _ => (stf Toy.pre, Some (Errorf "transaction type error"))
    end.
Proof.
  apply (PreExecute_without_engine Toy.E0 Toy.pre
           (Toy.deploy [0; 97; 115; 109; 1; 0; 0; 0; 9])
           (mkPrexecuteParam false 0 true) (Toy.chain 1)).
  discriminate.
Defined.




(** * Properties of the operator *)

Section OperatorProofs.

Import Operator.

Lemma sendLoop_spec (sdk : Layer2Sdk) (fuel : nat) :
  forall calls : nat,
    (calls <= 100)%nat -> (101 <= fuel + calls)%nat ->
    exists hash n,
      sendLoop fuel sdk calls (Z.of_nat calls) = Some (Z.of_nat (n - 1), hash, n) /\
      (calls < n <= 101)%nat /\
      (forall k, (calls <= k < n - 1)%nat -> is_ok (SendTransaction sdk k) = false) /\
      (SendTransaction sdk (n - 1) = Ok hash \/
       (n = 101%nat /\ is_ok (SendTransaction sdk 100) = false)).
Proof.
  induction fuel as [| fuel IH]; intros calls Hc Hf; [lia |].
  cbn [sendLoop]. destruct (SendTransaction sdk calls) as [hash | e] eqn:Hsend.
  - exists hash, (S calls). replace (S calls - 1)%nat with calls by lia.
    split; [reflexivity |]. split; [lia |]. split; [intros k Hk; lia |].
    left. exact Hsend.
  - destruct (Z.eqb_spec (Z.of_nat calls) 100) as [H100 | Hlt].
    + assert (calls = 100%nat) as -> by lia.
      exists UINT256_EMPTY, 101%nat.
      split; [reflexivity |]. split; [lia |]. split; [intros k Hk; lia |].
      right. split; [reflexivity |]. rewrite Hsend. reflexivity.
    + replace (Z.of_nat calls + 1) with (Z.of_nat (S calls)) by lia.
      destruct (IH (S calls)) as (hash & n & Hrun & Hn & Hfail & Hlast); [lia | lia |].
      exists hash, n.
      split; [exact Hrun |]. split; [lia |]. split; [| exact Hlast].
      intros k Hk. destruct (decide (k = calls)) as [-> | Hne].
      * rewrite Hsend. reflexivity.
      * apply Hfail. lia.
Qed.

Lemma catchUp_spec (parse : Z -> option error) (currentHeight : Z) (fuel : nat) :
  forall (height : Z) (saved : list Z),
    is_u32 currentHeight -> 0 <= height <= currentHeight ->
    (Z.to_nat (currentHeight - height) < fuel)%nat ->
    exists height',
      catchUp fuel parse currentHeight height saved =
        Some (height', saved ++ seqZ (height + 1) (height' - height)) /\
      height <= height' <= currentHeight /\
      (forall k, height < k <= height' -> parse k = None) /\
      (height' < currentHeight -> parse (height' + 1) <> None).
Proof.
  induction fuel as [| fuel IH]; intros height saved Hu Hh Hf; [lia |].
  cbn [catchUp]. destruct (Z.gtb_spec currentHeight height) as [Hgt | Hle].
  - assert (Hnext : u32 (height + 1) = height + 1)
      by (apply Z.mod_small; unfold is_u32 in Hu; lia).
    rewrite Hnext. destruct (parse (height + 1)) as [e |] eqn:Hp.
    + exists height.
      split; [| split; [lia | split; [intros k Hk; lia |]]].
      * replace (height + 1 - 1) with height by lia.
        unfold u32. rewrite Z.mod_small by (unfold is_u32 in Hu; lia).
        rewrite Z.sub_diag. cbn. rewrite app_nil_r. reflexivity.
      * intros _. rewrite Hp. discriminate.
    + destruct (IH (height + 1) (saved ++ [height + 1])) as (h' & Hrun & Hb & Hok & Hstop);
        [exact Hu | lia | lia |].
      exists h'. split; [| split; [lia | split; [| exact Hstop]]].
      * rewrite Hrun, <- app_assoc. do 2 f_equal.
        replace (h' - height) with (Z.succ (h' - (height + 1))) by lia.
        rewrite (seqZ_cons (height + 1)) by lia. cbn [app]. f_equal.
        replace (Z.pred (Z.succ (h' - (height + 1)))) with (h' - (height + 1)) by lia.
        replace (Z.succ (height + 1)) with (height + 1 + 1) by lia.
        reflexivity.
      * intros k Hk. destruct (decide (k = height + 1)) as [-> | Hne];
          [exact Hp | apply Hok; lia].
  - exists height. split; [| split; [lia | split; [intros k Hk; lia | lia]]].
    rewrite Z.sub_diag. cbn. rewrite app_nil_r. reflexivity.
Qed.

End OperatorProofs.

(** X28.  Once the transfer is built and signed, [commitDeposit2Layer2]
    returns [nil] after at most 101 calls of [SendTransaction], stopping at
    the first that succeeds.  The deposit is marked [DEPOSIT_COMMIT] exactly
    when one of the first 100 calls succeeded; when they all failed it is
    marked [DEPOSIT_FAILED] whether or not the 101st call succeeded, because
    the counter is 100 in both cases. *)
Theorem deposit_marked_by_send_counter (sdk : Operator.Layer2Sdk)
    (deposit : Operator.Deposit) (fuel : nat) :
  (forall token amount, is_ok (Operator.NewTransferTransaction sdk token amount) = true) ->
  (forall tx, Operator.SignToTransaction sdk tx = Operator.Signed) ->
  (101 <= fuel)%nat ->
  exists out,
    Operator.commitDeposit2Layer2 fuel sdk deposit = Operator.Returned out /\
    Operator.c_err out = None /\
    (1 <= Operator.c_sends out <= 101)%nat /\
    (forall k, (k < Operator.c_sends out - 1)%nat ->
               is_ok (Operator.SendTransaction sdk k) = false) /\
    (Operator.c_state out = Operator.DEPOSIT_COMMIT <->
     exists k, (k < 100)%nat /\ is_ok (Operator.SendTransaction sdk k) = true) /\
    (Operator.c_state out = Operator.DEPOSIT_FAILED <->
     forall k, (k < 100)%nat -> is_ok (Operator.SendTransaction sdk k) = false) /\
    (exists note, Operator.c_update out =
                  Some (Operator.DID deposit, Operator.c_state out, note)).
Proof.
  intros Hnew Hsign Hfuel. unfold Operator.commitDeposit2Layer2.
  assert (Hbuilt : exists tx,
            match Operator.DTokenAddress deposit with
            | Operator.OtherToken => Ok None
            | token =>
                match Operator.NewTransferTransaction sdk token (Operator.DAmount deposit)
                with
                | Ok tx => Ok (Some tx)
                | Fail err => Fail err
                end
            end = Ok tx).
  { destruct (Operator.DTokenAddress deposit) eqn:Ht.
    - specialize (Hnew Operator.ONT_CONTRACT_ADDRESS (Operator.DAmount deposit)).
      destruct (Operator.NewTransferTransaction sdk _ _) as [tx | e];
        [eexists; reflexivity | discriminate].
    - specialize (Hnew Operator.ONG_CONTRACT_ADDRESS (Operator.DAmount deposit)).
      destruct (Operator.NewTransferTransaction sdk _ _) as [tx | e];
        [eexists; reflexivity | discriminate].
    - eexists; reflexivity. }
  destruct Hbuilt as [tx ->]. rewrite Hsign.
  destruct (sendLoop_spec sdk fuel 0) as (hash & n & Hrun & Hn & Hfail & Hlast);
    [lia | lia |].
  change (Z.of_nat 0) with 0 in Hrun. rewrite Hrun.
  destruct (Z.eqb_spec (Z.of_nat (n - 1)) 100) as [H100 | Hlt].
  - assert (n = 101%nat) as -> by lia.
    eexists. split; [reflexivity |].
    cbn [Operator.c_err Operator.c_sends Operator.c_state Operator.c_update].
    split; [reflexivity |]. split; [lia |].
    split; [intros k Hk; apply Hfail; lia |].
    split; [| split].
    + split; [discriminate |]. intros (k & Hk & Hok).
      rewrite Hfail in Hok by lia. discriminate.
    + split; [| reflexivity]. intros _ k Hk. apply Hfail. lia.
    + eexists. reflexivity.
  - destruct Hlast as [Hok | [-> _]]; [| lia].
    eexists. split; [reflexivity |].
    cbn [Operator.c_err Operator.c_sends Operator.c_state Operator.c_update].
    split; [reflexivity |]. split; [lia |].
    split; [intros k Hk; apply Hfail; lia |].
    split; [| split].
    + split; [| reflexivity]. intros _. exists (n - 1)%nat.
      split; [lia |]. rewrite Hok. reflexivity.
    + split; [discriminate |]. intros Hall.
      specialize (Hall (n - 1)%nat). rewrite Hok in Hall.
      assert (Habs : true = false) by (apply Hall; lia). discriminate.
    + eexists. reflexivity.
Qed.

(** An SDK whose hundred first sends fail and whose 101st succeeds: the
    deposit is marked [DEPOSIT_FAILED] after 101 sends. *)
Lemma deposit_marked_by_send_counter_witness :
  exists out,
    Operator.commitDeposit2Layer2 101
      (Operator.mkLayer2Sdk (fun _ _ => Ok 1) (fun _ => Operator.Signed)
         (fun k => if (k <? 100)%nat then Fail (ErrExternal 9) else Ok 77))
      (Operator.mkDeposit Operator.DEPOSIT_EVENT 10 Operator.ONT_CONTRACT_ADDRESS 5)
    = Operator.Returned out /\
    Operator.c_err out = None /\
    (1 <= Operator.c_sends out <= 101)%nat /\
    (forall k, (k < Operator.c_sends out - 1)%nat ->
               is_ok (Operator.SendTransaction
                        (Operator.mkLayer2Sdk (fun _ _ => Ok 1) (fun _ => Operator.Signed)
                           (fun k => if (k <? 100)%nat then Fail (ErrExternal 9)
                                     else Ok 77)) k) = false) /\
    (Operator.c_state out = Operator.DEPOSIT_COMMIT <->
     exists k, (k < 100)%nat /\
               is_ok (Operator.SendTransaction
                        (Operator.mkLayer2Sdk (fun _ _ => Ok 1) (fun _ => Operator.Signed)
                           (fun k => if (k <? 100)%nat then Fail (ErrExternal 9)
                                     else Ok 77)) k) = true) /\
    (Operator.c_state out = Operator.DEPOSIT_FAILED <->
     forall k, (k < 100)%nat ->
               is_ok (Operator.SendTransaction
                        (Operator.mkLayer2Sdk (fun _ _ => Ok 1) (fun _ => Operator.Signed)
                           (fun k => if (k <? 100)%nat then Fail (ErrExternal 9)
                                     else Ok 77)) k) = false) /\
    (exists note,
       Operator.c_update out =
       Some (Operator.DID
               (Operator.mkDeposit Operator.DEPOSIT_EVENT 10
                  Operator.ONT_CONTRACT_ADDRESS 5),
             Operator.c_state out, note)).
Proof.
  apply (deposit_marked_by_send_counter
           (Operator.mkLayer2Sdk (fun _ _ => Ok 1) (fun _ => Operator.Signed)
              (fun k => if (k <? 100)%nat then Fail (ErrExternal 9) else Ok 77))
           (Operator.mkDeposit Operator.DEPOSIT_EVENT 10 Operator.ONT_CONTRACT_ADDRESS 5)
           101).
  - intros token amount. reflexivity.
  - intros tx. reflexivity.
  - lia.
Defined.

(** X29.  One tick of [MonitorOntologyChain] parses the blocks above the
    parse height one by one, in order, up to the chain's current height or
    to the first block whose parsing fails: the parse height ends at the
    last block parsed, every height up to it was handed to
    [SetChainParseHeight] once and in order, and it never moves back. *)
Theorem monitor_tick_catches_up (parse : Z -> option error) (currentHeight height : Z)
    (fuel : nat) :
  is_u32 currentHeight -> 0 <= height ->
  (Z.to_nat (currentHeight - height) < fuel)%nat ->
  exists height',
    Operator.monitorTick fuel (Ok currentHeight) parse height =
      Some (height', seqZ (height + 1) (height' - height)) /\
    height <= height' <= Z.max height currentHeight /\
    (forall k, height < k <= height' -> parse k = None) /\
    (height' < currentHeight -> parse (height' + 1) <> None).
Proof.
  intros Hu Hh Hf. unfold Operator.monitorTick.
  destruct (Z.leb_spec currentHeight height) as [Hle | Hgt].
  - exists height. split; [| split; [lia | split; [intros k Hk; lia | lia]]].
    rewrite Z.sub_diag. reflexivity.
  - destruct (catchUp_spec parse currentHeight fuel height [] Hu) as
      (h' & Hrun & Hb & Hok & Hstop); [lia | exact Hf |].
    exists h'. split; [exact Hrun |]. split; [lia |]. split; assumption.
Qed.

(** The chain at height 10, the parse height at 6, block 9 failing. *)
Lemma monitor_tick_catches_up_witness :
  exists height',
    Operator.monitorTick 5 (Ok 10)
      (fun k => if k =? 9 then Some (ErrExternal 1) else None) 6 =
      Some (height', seqZ (6 + 1) (height' - 6)) /\
    6 <= height' <= Z.max 6 10 /\
    (forall k, 6 < k <= height' ->
               (fun k => if k =? 9 then Some (ErrExternal 1) else None) k = None) /\
    (height' < 10 ->
     (fun k => if k =? 9 then Some (ErrExternal 1) else None) (height' + 1) <> None).
Proof.
  apply (monitor_tick_catches_up
           (fun k => if k =? 9 then Some (ErrExternal 1) else None) 10 6 5).
  - u32_concrete.
  - lia.
  - vm_compute. lia.
Defined.

Section CheckProofs.

Import Operator.





End CheckProofs.


